(** * Offset-stable table writes and A1 range parsing of the Workspace server

    A shallow embedding of functions of [server.py]:
    - [_get_table_info] and [_get_cell_content_indexes], the table and cell
      locators over a Docs snapshot;
    - [write_table_bulk] and [write_table_cell], which plan one batch of
      Docs requests for many table cells, or for one;
    - [_parse_a1_range], the parser of A1 range notation for Sheets, and
      [format_cells], which calls it.

    Python integers are [Z].  Python [str] values are lists of characters
    ([str]).  The embedding covers ASCII texts: there [str.upper] changes
    the letters a-z only and the class of decimal digits is 0-9.  A
    character of code 128 or more stands for a character that neither is
    nor upper-cases to a letter A-Z, a digit, a colon, a bang or a newline.
    A JSON object read with [.get] is a record whose fields are optional. *)

From Stdlib Require Import Ascii String DecimalString.
From Stdlib Require Import ZArith List Bool Lia Permutation Sorted.
Import ListNotations.
Open Scope Z_scope.

(** ** Python values and exceptions *)

Definition str := list ascii.

Definition lit (s : string) : str := list_ascii_of_string s.

Arguments lit s%_string.

Inductive exn : Type :=
| IndexError
| KeyError (key : str)
| TypeError
| ValueError (msg : str).

Inductive py (A : Type) : Type :=
| Ret (a : A)
| Raise (e : exn).

Arguments Ret {A} a.
Arguments Raise {A} e.

Definition bind {A B : Type} (c : py A) (k : A -> py B) : py B :=
  match c with
  | Ret a => k a
  | Raise e => Raise e
  end.

Notation "x <- c ;; k" := (bind c (fun x => k))
  (at level 61, c at next level, right associativity).

Definition len {A : Type} (l : list A) : Z := Z.of_nat (length l).

Definition raises {A : Type} (c : py A) : Prop := exists e, c = Raise e.

(** [d.get(key, default)] on an optional field. *)
Definition get {A : Type} (field : option A) (default : A) : A :=
  match field with
  | Some v => v
  | None => default
  end.

(** [d[key]] on an optional field. *)
Definition item {A : Type} (key : string) (field : option A) : py A :=
  match field with
  | Some v => Ret v
  | None => Raise (KeyError (lit key))
  end.

Arguments item {A} key%_string field.

(** [l[i]] on a list: a negative index counts from the end, an index
    outside [-len l .. len l - 1] raises [IndexError]. *)
Definition wrap (n i : Z) : Z := if i <? 0 then i + n else i.

Definition getitem {A : Type} (l : list A) (i : Z) : py A :=
  let j := wrap (len l) i in
  if (0 <=? j) && (j <? len l) then
    match nth_error l (Z.to_nat j) with
    | Some a => Ret a
    | None => Raise IndexError
    end
  else Raise IndexError.

(** ** The Docs snapshot *)

Module Docs.

(** A structural element inside a cell; the locator reads its indexes only. *)
Record ContentElement : Type := {
  ce_startIndex : option Z;
  ce_endIndex : option Z
}.

Record TableCell : Type := { content : option (list ContentElement) }.

Record TableRow : Type := { tableCells : option (list TableCell) }.

Record Table : Type := { tableRows : option (list TableRow) }.

(** An element of [body.content]; [table] is present for a table element. *)
Record Element : Type := {
  startIndex : option Z;
  endIndex : option Z;
  table : option Table
}.

Record Body : Type := { body_content : option (list Element) }.

Record Document : Type := { body : option Body }.

Definition no_body : Body := {| body_content := None |}.

(** [doc.get('body', {}).get('content', [])] *)
Definition elements (doc : Document) : list Element :=
  get (body_content (get (body doc) no_body)) [].

(** [element.get('startIndex') == table_start_index and 'table' in element] *)
Definition table_at (element : Element) (table_start_index : Z) : option Table :=
  match startIndex element with
  | Some i => if i =? table_start_index then table element else None
  | None => None
  end.

(** ** [_get_table_info] *)

Fixpoint find_table (content : list Element) (table_start_index : Z)
  : option Table :=
  match content with
  | [] => None
  | element :: rest =>
      match table_at element table_start_index with
      | Some t => Some t
      | None => find_table rest table_start_index
      end
  end.

Definition _get_table_info (doc : Document) (table_start_index : Z)
  : option Table :=
  find_table (elements doc) table_start_index.

(** ** [_get_cell_content_indexes] *)

(** The innermost block: the first content element's start and the last
    one's end; [None] when the cell has no content. *)
Definition cell_range (cell : TableCell) : option (Z * Z) :=
  let cell_content := get (content cell) [] in
  match cell_content with
  | [] => None
  | first :: _ =>
      let start := get (ce_startIndex first) 0 in
      let end_ := get (ce_endIndex (last cell_content first)) (start + 1) in
      Some (start, end_)
  end.

(** The body of the [if] on a matching table element: [Ret (Some _)] is the
    [return (start, end)], [Ret None] falls out of the nested [if]s. *)
Definition in_table (t : Table) (row_index column_index : Z)
  : py (option (Z * Z)) :=
  if row_index <? len (get (tableRows t) []) then
    rows <- item "tableRows" (tableRows t) ;;
    row <- getitem rows row_index ;;
    if column_index <? len (get (tableCells row) []) then
      cells <- item "tableCells" (tableCells row) ;;
      cell <- getitem cells column_index ;;
      Ret (cell_range cell)
    else Ret None
  else Ret None.

(** The [for element in ...] loop.  The returned tuple is either
    [(start, end)], here [Some (start, end)], or [(None, None)], here
    [None]. *)
Fixpoint scan (content : list Element)
  (table_start_index row_index column_index : Z) : py (option (Z * Z)) :=
  match content with
  | [] => Ret None
  | element :: rest =>
      match table_at element table_start_index with
      | Some t =>
          r <- in_table t row_index column_index ;;
          match r with
          | Some (start, end_) => Ret (Some (start, end_))
          | None => scan rest table_start_index row_index column_index
          end
      | None => scan rest table_start_index row_index column_index
      end
  end.

Definition _get_cell_content_indexes (doc : Document)
  (table_start_index row_index column_index : Z) : py (option (Z * Z)) :=
  scan (elements doc) table_start_index row_index column_index.

(** The tuple [(None, None)], which the callers detect with
    [start_idx is None]. *)
Definition NotFound : option (Z * Z) := None.

(** ** [write_table_bulk] *)

(** An entry of [args['cells']]. *)
Record cell_arg : Type := { row : Z; column : Z; text : str }.

(** An entry of [cell_data]. *)
Record cell_entry : Type := {
  entry_row : Z;
  entry_column : Z;
  entry_text : str;
  start_idx : Z;
  end_idx : Z
}.

Record bulk_args : Type := {
  document_id : str;
  table_start_index : Z;
  cells : list cell_arg;
  replace_existing : option bool
}.

(** The two request kinds sent to [batchUpdate]. *)
Inductive request : Type :=
| deleteContentRange (startIndex endIndex : Z)
| insertText (index : Z) (text : str).

(** What a call does: it answers with a text, after submitting one batch
    or without submitting any. *)
Inductive outcome : Type :=
| NoBatch (answer : str)
| Batch (requests : list request) (answer : str).

(** The first loop: cells that do not resolve are left out. *)
Fixpoint collect (doc : Document) (table_start_index : Z)
  (cells : list cell_arg) : py (list cell_entry) :=
  match cells with
  | [] => Ret []
  | cell :: rest =>
      found <- _get_cell_content_indexes doc table_start_index
                 (row cell) (column cell) ;;
      cell_data <- collect doc table_start_index rest ;;
      match found with
      | Some (start, end_) =>
          Ret ({| entry_row := row cell; entry_column := column cell;
                  entry_text := text cell;
                  start_idx := start; end_idx := end_ |} :: cell_data)
      | None => Ret cell_data
      end
  end.

(** [cell_data.sort(key=lambda x: x['start_idx'], reverse=True)]: Python's
    sort is stable, also with [reverse=True]; entries of equal key keep
    their relative order. *)
Fixpoint insert_desc (x : cell_entry) (l : list cell_entry) : list cell_entry :=
  match l with
  | [] => [x]
  | y :: l' =>
      if start_idx y <=? start_idx x then x :: l else y :: insert_desc x l'
  end.

Definition sort_desc (cell_data : list cell_entry) : list cell_entry :=
  fold_right insert_desc [] cell_data.

(** One pass of the second loop: the requests appended for one cell. *)
Definition cell_requests (replace_existing : bool) (cell : cell_entry)
  : list request :=
  (if replace_existing && (end_idx cell >? start_idx cell + 1)
   then [deleteContentRange (start_idx cell) (end_idx cell - 1)]
   else [])
  ++ [insertText (start_idx cell) (entry_text cell)].

(** The second loop, appending to [requests]. *)
Definition build_requests (replace_existing : bool)
  (cell_data : list cell_entry) : list request :=
  fold_left (fun requests cell => requests ++ cell_requests replace_existing cell)
    cell_data [].

(** The planner on resolved targets: sort, then build. *)
Definition plan (replace_existing : bool) (cell_data : list cell_entry)
  : list request :=
  build_requests replace_existing (sort_desc cell_data).

Definition str_of_nat (n : nat) : str :=
  lit (NilEmpty.string_of_uint (Nat.to_uint n)).

Definition none_found : str :=
  lit "Error: Could not find any of the specified table cells".

Definition wrote (n : nat) : str :=
  lit "Wrote text to " ++ str_of_nat n
  ++ lit " cells in a single batch operation".

(** [doc] is the snapshot that [documents().get] returned. *)
Definition write_table_bulk (doc : Document) (args : bulk_args) : py outcome :=
  let replace_existing := get (replace_existing args) true in
  cell_data <- collect doc (table_start_index args) (cells args) ;;
  match cell_data with
  | [] => Ret (NoBatch none_found)
  | _ :: _ =>
      Ret (Batch (plan replace_existing cell_data) (wrote (length cell_data)))
  end.

(** ** The batch executor *)

(** Modelled from the spec: the Mutation Executor is the external Docs
    service, which is not part of the repository.  A document state is the
    sequence of its characters, addressed by offset; [deleteContentRange s e]
    removes the half-open range from [s] to [e], [insertText i t] inserts
    [t] before offset [i]; a request outside the current state is refused,
    and so is an empty range. *)
Definition apply_request (d : str) (r : request) : option str :=
  match r with
  | deleteContentRange s e =>
      if (0 <=? s) && (s <? e) && (e <=? len d)
      then Some (firstn (Z.to_nat s) d ++ skipn (Z.to_nat e) d)
      else None
  | insertText i t =>
      if (0 <=? i) && (i <=? len d)
      then Some (firstn (Z.to_nat i) d ++ t ++ skipn (Z.to_nat i) d)
      else None
  end.

(** Modelled from the spec: requests are applied in list order, each one
    against the state that the earlier ones produced; one refusal refuses
    the batch. *)
Fixpoint apply_batch (d : str) (requests : list request) : option str :=
  match requests with
  | [] => Some d
  | r :: rest =>
      match apply_request d r with
      | Some d' => apply_batch d' rest
      | None => None
      end
  end.

(** ** What the targets ask for, read against the snapshot alone *)

(** The texts to appear in front of snapshot offset [p]. *)
Definition inserted (cell_data : list cell_entry) (p : Z) : str :=
  flat_map (fun cell => if start_idx cell =? p then entry_text cell else [])
    cell_data.

(** Whether the character at snapshot offset [p] is to go: it lies in the
    body of a replaced target, the last position of the range excepted. *)
Definition removed (replace_existing : bool) (cell_data : list cell_entry)
  (p : Z) : bool :=
  existsb (fun cell =>
             replace_existing && (end_idx cell >? start_idx cell + 1)
             && (start_idx cell <=? p) && (p <? end_idx cell - 1))
    cell_data.

(** The snapshot from offset [p] on, every character kept or removed and
    every text inserted at the snapshot offset it was asked for. *)
Fixpoint rewritten (replace_existing : bool) (cell_data : list cell_entry)
  (p : Z) (d : str) : str :=
  match d with
  | [] => []
  | u :: d' =>
      inserted cell_data p
      ++ (if removed replace_existing cell_data p then [] else [u])
      ++ rewritten replace_existing cell_data (p + 1) d'
  end.

Definition intended (replace_existing : bool) (cell_data : list cell_entry)
  (d : str) : str :=
  rewritten replace_existing cell_data 0 d ++ inserted cell_data (len d).

(** Two resolved ranges overlap ([s1 < e2 && s2 < e1]). *)
Definition overlap (a b : cell_entry) : bool :=
  (start_idx a <? end_idx b) && (start_idx b <? end_idx a).

(** ** Shapes of tables *)

(** The tables of the elements of the document that start at the anchor. *)
Definition tables_at (doc : Document) (table_start_index : Z) : list Table :=
  flat_map (fun element =>
              match table_at element table_start_index with
              | Some t => [t]
              | None => []
              end)
    (elements doc).

(** A table of [rows] rows with [columns] cells each. *)
Definition has_shape (rows columns : Z) (t : Table) : Prop :=
  exists rs, tableRows t = Some rs /\ len rs = rows /\
    Forall (fun r => exists cs, tableCells r = Some cs /\ len cs = columns) rs.

(** ** The targets that resolve *)

Definition locate_cell (doc : Document) (table_start_index : Z)
  (cell : cell_arg) : py (option (Z * Z)) :=
  _get_cell_content_indexes doc table_start_index (row cell) (column cell).

Definition resolve (doc : Document) (table_start_index : Z) (cell : cell_arg)
  : list cell_entry :=
  match locate_cell doc table_start_index cell with
  | Ret (Some (start, end_)) =>
      [ {| entry_row := row cell; entry_column := column cell;
           entry_text := text cell; start_idx := start; end_idx := end_ |} ]
  | _ => []
  end.

Definition resolved (doc : Document) (table_start_index : Z)
  (cells : list cell_arg) : list cell_entry :=
  flat_map (resolve doc table_start_index) cells.

(** A target's range is a non-empty range of the snapshot text [d]. *)
Definition in_snapshot (d : str) (c : cell_entry) : Prop :=
  0 <= start_idx c /\ start_idx c < end_idx c /\ end_idx c <= len d.

(** No two targets overlap. *)
Definition disjoint (cell_data : list cell_entry) : Prop :=
  ForallOrdPairs (fun a b => overlap a b = false) cell_data.

(** ** Orders of targets *)

Definition starts_descend (a b : cell_entry) : Prop :=
  start_idx b <= start_idx a.

Definition starts_strictly_descend (a b : cell_entry) : Prop :=
  start_idx b < start_idx a.

(** The targets whose start offset is [k]. *)
Definition with_start (k : Z) (c : cell_entry) : bool := start_idx c =? k.

(** [b] lies entirely below [a]. *)
Definition below (a b : cell_entry) : Prop := end_idx b <= start_idx a.

(** What is left of the snapshot text [d] from a target's start on, once
    the target's requests are applied: in replace mode a body of more than
    the last position goes. *)
Definition kept (replace_existing : bool) (c : cell_entry) (d : str) : str :=
  if replace_existing && (end_idx c >? start_idx c + 1)
  then skipn (Z.to_nat (end_idx c - 1)) d
  else skipn (Z.to_nat (start_idx c)) d.

End Docs.

(** ** The A1 range parser *)

Module Sheets.

Record GridRange : Type := {
  sheetId : Z;
  startRowIndex : option Z;
  endRowIndex : option Z;
  startColumnIndex : option Z;
  endColumnIndex : option Z
}.

Definition ord (c : ascii) : Z := Z.of_nat (nat_of_ascii c).

(** [str.upper], one character at a time. *)
Definition upper_char (c : ascii) : ascii :=
  if (97 <=? ord c) && (ord c <=? 122)
  then ascii_of_nat (nat_of_ascii c - 32)
  else c.

Definition upper (s : str) : str := map upper_char s.

(** The class [[A-Z]]. *)
Definition is_letter (c : ascii) : bool := (65 <=? ord c) && (ord c <=? 90).

(** The class [\d]. *)
Definition is_digit (c : ascii) : bool := (48 <=? ord c) && (ord c <=? 57).

Definition bang : ascii := "!"%char.
Definition colon : ascii := ":"%char.
Definition newline : ascii := "010"%char.

(** ['!' in range_str] *)
Definition contains (c : ascii) (s : str) : bool := existsb (Ascii.eqb c) s.

(** [range_str.split('!')]: the pieces between the separators, at least
    one piece. *)
Fixpoint split (sep : ascii) (s : str) : list str :=
  match s with
  | [] => [[]]
  | c :: s' =>
      if Ascii.eqb c sep then [] :: split sep s'
      else match split sep s' with
           | piece :: pieces => (c :: piece) :: pieces
           | [] => [[c]]
           end
  end.

(** A starred class: the longest prefix in the class, and what follows. *)
Fixpoint take_while (p : ascii -> bool) (s : str) : str :=
  match s with
  | c :: s' => if p c then c :: take_while p s' else []
  | [] => []
  end.

Fixpoint drop_while (p : ascii -> bool) (s : str) : str :=
  match s with
  | c :: s' => if p c then drop_while p s' else s
  | [] => []
  end.

(** [:?] *)
Definition drop_colon (s : str) : str :=
  match s with
  | c :: s' => if Ascii.eqb c colon then s' else s
  | [] => []
  end.

(** [$]: at the end of the text, or before a newline that ends it. *)
Definition at_end (s : str) : bool :=
  match s with
  | [] => true
  | [c] => Ascii.eqb c newline
  | _ => false
  end.

(** [re.match] of the upper-cased text against the pattern
    [^ ( [A-Z]* ) ( \d* ) :? ( [A-Z]* ) ( \d* ) $] (written here with blanks),
    the four groups on success.  Every starred class takes all it can; the
    classes and the colon exclude one another, so giving characters back
    never helps ([re_match_complete]). *)
Definition re_match (s : str) : option (str * str * str * str) :=
  let start_col := take_while is_letter s in
  let s := drop_while is_letter s in
  let start_row := take_while is_digit s in
  let s := drop_while is_digit s in
  let s := drop_colon s in
  let end_col := take_while is_letter s in
  let s := drop_while is_letter s in
  let end_row := take_while is_digit s in
  let s := drop_while is_digit s in
  if at_end s then Some (start_col, start_row, end_col, end_row) else None.

(** The match by stages: whether the rest of the pattern, from a stage on,
    matches what is left of the text. *)
Definition end_row_ok (s : str) : bool := at_end (drop_while is_digit s).

Definition end_col_ok (s : str) : bool := end_row_ok (drop_while is_letter s).

Definition colon_ok (s : str) : bool := end_col_ok (drop_colon s).

Definition start_row_ok (s : str) : bool := colon_ok (drop_while is_digit s).

Definition start_col_ok (s : str) : bool :=
  start_row_ok (drop_while is_letter s).

(** A starred class stops in front of [s]. *)
Definition halts (p : ascii -> bool) (s : str) : bool :=
  match s with
  | [] => true
  | c :: _ => negb (p c)
  end.

(** The inner function [col_to_index]; [None] is Python's [None]. *)
Definition col_to_index (col : str) : option Z :=
  match col with
  | [] => None
  | _ :: _ =>
      Some (fold_left (fun result char => result * 26 + (ord char - ord "A" + 1))
              col 0 - 1)
  end.

(** [col_to_index(...) + 1] *)
Definition plus_one (v : option Z) : py Z :=
  match v with
  | Some n => Ret (n + 1)
  | None => Raise TypeError
  end.

(** [sys.get_int_max_str_digits()]: the interpreter's limit on the number of
    digits that [int] converts (CPython 3.11 and later, and the updates of
    the versions before it), at its default.  The server never sets it. *)
Definition int_max_str_digits : Z := 4300.

(** The message of the [ValueError] that [int] raises beyond the limit. *)
Definition too_many_digits (n : Z) : str :=
  lit "Exceeds the limit (4300 digits) for integer string conversion: value has "
  ++ lit (NilZero.string_of_int (Z.to_int n))
  ++ lit " digits; use sys.set_int_max_str_digits() to increase the limit".

(** [int(...)] on a group of decimal digits.  Every digit counts towards
    the limit, leading zeros too.  On other texts Python's [int] accepts
    signs, blanks and underscores too; the parser passes it groups of the
    match only. *)
Definition int (digits : str) : py Z :=
  match digits with
  | [] => Raise (ValueError (lit "invalid literal for int() with base 10: ''"))
  | _ :: _ =>
      if forallb is_digit digits
      then if len digits >? int_max_str_digits
           then Raise (ValueError (too_many_digits (len digits)))
           else Ret (fold_left (fun n c => n * 10 + (ord c - ord "0"))
                       digits 0)
      else Raise (ValueError (lit "invalid literal for int() with base 10"))
  end.

(** Truth of a [str] in a condition. *)
Definition nonempty (s : str) : bool :=
  match s with
  | [] => false
  | _ :: _ => true
  end.

Definition set_startColumnIndex (g : GridRange) (v : option Z) : GridRange :=
  {| sheetId := sheetId g; startRowIndex := startRowIndex g;
     endRowIndex := endRowIndex g;
     startColumnIndex := v; endColumnIndex := endColumnIndex g |}.

Definition set_endColumnIndex (g : GridRange) (v : Z) : GridRange :=
  {| sheetId := sheetId g; startRowIndex := startRowIndex g;
     endRowIndex := endRowIndex g;
     startColumnIndex := startColumnIndex g; endColumnIndex := Some v |}.

Definition set_startRowIndex (g : GridRange) (v : Z) : GridRange :=
  {| sheetId := sheetId g; startRowIndex := Some v;
     endRowIndex := endRowIndex g;
     startColumnIndex := startColumnIndex g;
     endColumnIndex := endColumnIndex g |}.

Definition set_endRowIndex (g : GridRange) (v : Z) : GridRange :=
  {| sheetId := sheetId g; startRowIndex := startRowIndex g;
     endRowIndex := Some v;
     startColumnIndex := startColumnIndex g;
     endColumnIndex := endColumnIndex g |}.

(** The part of [_parse_a1_range] after the match. *)
Definition fill (sheet_id : Z) (groups : str * str * str * str) : py GridRange :=
  let '(start_col, start_row, end_col, end_row) := groups in
  let grid_range :=
    {| sheetId := sheet_id; startRowIndex := None; endRowIndex := None;
       startColumnIndex := None; endColumnIndex := None |} in
  let grid_range :=
    if nonempty start_col
    then set_startColumnIndex grid_range (col_to_index start_col)
    else grid_range in
  grid_range <-
    (if nonempty end_col then
       v <- plus_one (col_to_index end_col) ;;
       Ret (set_endColumnIndex grid_range v)
     else if nonempty start_col then
       v <- plus_one (col_to_index start_col) ;;
       Ret (set_endColumnIndex grid_range v)
     else Ret grid_range) ;;
  grid_range <-
    (if nonempty start_row then
       n <- int start_row ;;
       Ret (set_startRowIndex grid_range (n - 1))
     else Ret grid_range) ;;
  if nonempty end_row then
    n <- int end_row ;;
    Ret (set_endRowIndex grid_range n)
  else if nonempty start_row then
    n <- int start_row ;;
    Ret (set_endRowIndex grid_range n)
  else Ret grid_range.

(** The sheet name is dropped: [range_str.split('!')[1]] when the text has
    a bang. *)
Definition without_sheet (range_str : str) : py str :=
  if contains bang range_str then getitem (split bang range_str) 1
  else Ret range_str.

Definition _parse_a1_range (range_str : str) (sheet_id : Z) : py GridRange :=
  range_str <- without_sheet range_str ;;
  match re_match (upper range_str) with
  | None => Raise (ValueError (lit "Invalid A1 notation: " ++ range_str))
  | Some groups => fill sheet_id groups
  end.

(** ** What the parser reads, stated on the text *)

(** The piece that [split('!')[1]] selects: the text between the first bang
    and the next one (or the end); the whole text when it has no bang. *)
Fixpoint until_bang (s : str) : str :=
  match s with
  | [] => []
  | c :: s' => if Ascii.eqb c bang then [] else c :: until_bang s'
  end.

Fixpoint stripped (s : str) : str :=
  match s with
  | [] => []
  | c :: s' => if Ascii.eqb c bang then until_bang s' else stripped s'
  end.

Definition sheet_stripped (s : str) : str :=
  if contains bang s then stripped s else s.

(** The language of the source's pattern: two tokens, each of column
    letters followed by row digits, with an optional colon between them;
    every part may be missing.  The trailing part [nl] is what the end
    anchor of the pattern allows, nothing or one final newline. *)
Definition grid_pattern (s : str) : Prop :=
  exists start_col start_row sep end_col end_row nl,
    s = start_col ++ start_row ++ sep ++ end_col ++ end_row ++ nl /\
    forallb is_letter start_col = true /\ forallb is_digit start_row = true /\
    (sep = [] \/ sep = [colon]) /\
    forallb is_letter end_col = true /\ forallb is_digit end_row = true /\
    (nl = [] \/ nl = [newline]).

(** A run of consecutive characters of a text. *)
Definition piece_of (piece s : str) : Prop :=
  exists before after, s = before ++ piece ++ after.

(** The text holds more digits in a row than [int] converts. *)
Definition long_row (s : str) : Prop :=
  exists digits,
    piece_of digits s /\ forallb is_digit digits = true /\
    len digits > int_max_str_digits.

(** ** The accepted forms, as the specification words them *)

(** Modelled from the spec: a column name, a row number, and a cell (a
    column name followed by a row number). *)
Definition is_column (s : str) : bool := nonempty s && forallb is_letter s.

Definition is_row (s : str) : bool := nonempty s && forallb is_digit s.

Definition is_cell (s : str) : bool :=
  nonempty (take_while is_letter s) && is_row (drop_while is_letter s).

(** Modelled from the spec: the four accepted forms, a single cell ("A1"),
    a rectangle ("A1:D10"), an open column range ("A:D") and an open row
    range ("5:10"). *)
Definition accepted_form (s : str) : bool :=
  match split colon s with
  | [a] => is_cell a
  | [a; b] =>
      (is_cell a && is_cell b) || (is_column a && is_column b)
      || (is_row a && is_row b)
  | _ => false
  end.

(** Modelled from the spec: the text with an optional sheet-name prefix,
    which ends at the first bang, taken off. *)
Fixpoint after_bang (s : str) : str :=
  match s with
  | [] => []
  | c :: s' => if Ascii.eqb c bang then s' else after_bang s'
  end.

Definition prefix_stripped (s : str) : str :=
  if contains bang s then after_bang s else s.

(** A column name read in base 26 with digits A=1 ... Z=26, the last
    letter being the least significant. *)
Fixpoint base26 (rev_col : str) : Z :=
  match rev_col with
  | [] => 0
  | c :: more => base26 more * 26 + (ord c - ord "A" + 1)
  end.

Definition column_number (col : str) : Z := base26 (rev col).

(** A group of digits read in base 10. *)
Fixpoint base10 (rev_digits : str) : Z :=
  match rev_digits with
  | [] => 0
  | c :: more => base10 more * 10 + (ord c - ord "0")
  end.

Definition row_number (digits : str) : Z := base10 (rev digits).

(** The grid range the specification gives for a start token
    [start_col start_row] and an end token [end_col end_row]: indexes are
    zero-based and half-open, a missing end bound is the start bound plus
    one, a bound on neither side is absent. *)
Definition expected (sheet_id : Z) (start_col start_row end_col end_row : str)
  : GridRange :=
  {| sheetId := sheet_id;
     startRowIndex :=
       if nonempty start_row then Some (row_number start_row - 1) else None;
     endRowIndex :=
       if nonempty end_row then Some (row_number end_row)
       else if nonempty start_row then Some (row_number start_row - 1 + 1)
       else None;
     startColumnIndex :=
       if nonempty start_col then Some (column_number start_col - 1) else None;
     endColumnIndex :=
       if nonempty end_col then Some (column_number end_col)
       else if nonempty start_col then Some (column_number start_col - 1 + 1)
       else None |}.

End Sheets.

(** ** Sample snapshots *)

Module Samples.

Import Docs.

Definition paragraph (s e : Z) : ContentElement :=
  {| ce_startIndex := Some s; ce_endIndex := Some e |}.

Definition cell_of (s e : Z) : TableCell :=
  {| content := Some [paragraph s e] |}.

Definition row_of (cells : list TableCell) : TableRow :=
  {| tableCells := Some cells |}.

Definition table_of (rows : list TableRow) : Table :=
  {| tableRows := Some rows |}.

Definition doc_of (anchor stop : Z) (t : Table) : Document :=
  {| body := Some {| body_content :=
       Some [ {| startIndex := Some 0; endIndex := Some anchor; table := None |};
              {| startIndex := Some anchor; endIndex := Some stop;
                 table := Some t |} ] |} |}.

(** A 2 x 2 table anchored at offset 5. *)
Definition table22 : Table :=
  table_of [ row_of [cell_of 7 12; cell_of 13 18];
             row_of [cell_of 20 25; cell_of 26 27] ].

Definition doc22 : Document := doc_of 5 29 table22.

(** A text for [doc22]: 30 characters, offsets 0 to 29; a bar ends each
    cell. *)
Definition text22 : str := lit ".......alfa|.beta|..gama|.|...".

(** A snapshot whose two cells claim the overlapping ranges 10-20 and
    15-25. *)
Definition doc_overlap : Document :=
  doc_of 5 29 (table_of [ row_of [cell_of 10 20; cell_of 15 25] ]).

Definition bulk (cells : list cell_arg) : bulk_args :=
  {| document_id := lit "doc"; table_start_index := 5; cells := cells;
     replace_existing := None |}.

(** A cell whose row number has one digit more than [int] converts. *)
Definition long_cell : str :=
  "A"%char :: repeat "1"%char (Z.to_nat (Sheets.int_max_str_digits + 1)).

Definition entry (s e : Z) (t : str) : cell_entry :=
  {| entry_row := 0; entry_column := 0; entry_text := t;
     start_idx := s; end_idx := e |}.

End Samples.

(** ** [write_table_cell] *)

Module DocsCell.

Import Docs.

Record cell_args : Type := {
  cell_document_id : str;
  cell_table_start_index : Z;
  row_index : Z;
  column_index : Z;
  cell_text : str;
  cell_replace_existing : option bool
}.

(** An integer in an f-string. *)
Definition str_of_int (z : Z) : str :=
  lit (NilZero.string_of_int (Z.to_int z)).

Definition cell_not_found : str :=
  lit "Error: Could not find the specified table cell".

Definition wrote_cell (r c : Z) : str :=
  lit "Wrote text to cell (" ++ str_of_int r ++ lit ", " ++ str_of_int c
  ++ lit ")".

(** [doc] is the snapshot that [documents().get] returned. *)
Definition write_table_cell (doc : Document) (args : cell_args) : py outcome :=
  found <- _get_cell_content_indexes doc (cell_table_start_index args)
             (row_index args) (column_index args) ;;
  match found with
  | None => Ret (NoBatch cell_not_found)
  | Some (start_idx, end_idx) =>
      let replace_existing := get (cell_replace_existing args) true in
      let requests :=
        if replace_existing && (end_idx >? start_idx + 1)
        then [deleteContentRange start_idx (end_idx - 1);
              insertText start_idx (cell_text args)]
        else [insertText start_idx (cell_text args)] in
      Ret (Batch requests (wrote_cell (row_index args) (column_index args)))
  end.

(** The bulk call for the same single cell. *)
Definition as_bulk (args : cell_args) : bulk_args :=
  {| document_id := cell_document_id args;
     table_start_index := cell_table_start_index args;
     cells := [ {| row := row_index args; column := column_index args;
                   text := cell_text args |} ];
     replace_existing := cell_replace_existing args |}.

(** What a call submits, if anything. *)
Definition submitted (r : py outcome) : option (list request) :=
  match r with
  | Ret (Batch requests _) => Some requests
  | _ => None
  end.



(** A table element without a [tableRows] key, and a table whose only row
    is without a [tableCells] key, each at offset 5. *)
Definition table_no_rows : Table := {| tableRows := None |}.

Definition doc_no_rows : Document := Samples.doc_of 5 29 table_no_rows.

Definition row_no_cells : TableRow := {| tableCells := None |}.

Definition doc_no_cells : Document :=
  Samples.doc_of 5 29 (Samples.table_of [row_no_cells]).

(** A cell of three paragraphs. *)
Definition doc_paragraphs : Document :=
  Samples.doc_of 5 40
    (Samples.table_of
       [ Samples.row_of
           [ {| content := Some [ Samples.paragraph 7 12; Samples.paragraph 12 20;
                                  Samples.paragraph 20 31 ] |} ] ]).

End DocsCell.

(** ** [format_cells], the caller of the parser *)

Module Format.

Import Sheets.

Fixpoint str_eqb (a b : str) : bool :=
  match a, b with
  | [], [] => true
  | x :: a', y :: b' => Ascii.eqb x y && str_eqb a' b'
  | _, _ => false
  end.

(** [sep.join(l)] *)
Fixpoint join (sep : str) (l : list str) : str :=
  match l with
  | [] => []
  | [x] => x
  | x :: rest => x ++ sep ++ join sep rest
  end.

(** What the handler can raise: what the parser raised, or
    [AttributeError] from [.get] on a value that is not an object. *)
Inductive failure : Type :=
| FromParser (e : exn)
| AttributeError.

Inductive attempt (A : Type) : Type :=
| Done (a : A)
| Failed (f : failure).

Arguments Done {A} a.
Arguments Failed {A} f.

Definition and_then {A B : Type} (c : attempt A) (k : A -> attempt B)
  : attempt B :=
  match c with
  | Done a => k a
  | Failed f => Failed f
  end.

Section Numbers.

(** JSON numbers, integers or floats, with Python's test [n == 0] and the
    integer 0. *)
Variable number : Type.
Variable is_zero : number -> bool.
Variable zero : number.

#[warnings="-register-all"]
Inductive json : Type :=
| JNull
| JBool (b : bool)
| JNum (n : number)
| JStr (s : str)
| JList (l : list json)
| JObj (members : list (str * json)).

(** Truth of a value in a condition. *)
Definition truthy (v : json) : bool :=
  match v with
  | JNull => false
  | JBool b => b
  | JNum n => negb (is_zero n)
  | JStr s => nonempty s
  | JList l => match l with [] => false | _ :: _ => true end
  | JObj members => match members with [] => false | _ :: _ => true end
  end.

(** [v is not None] *)
Definition not_none (v : json) : bool :=
  match v with
  | JNull => false
  | _ => true
  end.

(** A dict under construction: the keys in insertion order. *)
Definition dict := list (str * json).

Fixpoint lookup (key : str) (d : dict) : option json :=
  match d with
  | [] => None
  | (k, v) :: rest => if str_eqb k key then Some v else lookup key rest
  end.

(** [if test(args.get(name)): d[key] = args[name]], as the entries it adds. *)
Definition entry (key : string) (field : option json) (test : json -> bool)
  : dict :=
  match field with
  | Some v => if test v then [(lit key, v)] else []
  | None => []
  end.

(** [if args.get(name): ...] *)
Definition given (field : option json) : bool :=
  match field with
  | Some v => truthy v
  | None => false
  end.

Record format_args : Type := {
  spreadsheet_id : str;
  sheet_id : Z;
  range : str;
  bold : option json;
  italic : option json;
  font_size : option json;
  font_family : option json;
  text_color : option json;
  background_color : option json;
  horizontal_alignment : option json;
  vertical_alignment : option json;
  wrap_strategy : option json;
  borders : option json
}.

(** [v.get(key)] and [v.get(key, default)]: [AttributeError] unless [v] is
    an object. *)
Definition get_member (v : json) (key : string) : attempt (option json) :=
  match v with
  | JObj members => Done (lookup (lit key) members)
  | _ => Failed AttributeError
  end.

Definition get_member_or (v : json) (key : string) (default : json)
  : attempt json :=
  and_then (get_member v key)
    (fun found => Done match found with Some x => x | None => default end).

Definition black : json :=
  JObj [(lit "red", JNum zero); (lit "green", JNum zero);
        (lit "blue", JNum zero)].

(** One pass of [for side in ['top', 'bottom', 'left', 'right']]. *)
Definition border_side (all_borders : json) (side : string) (done : dict)
  : attempt dict :=
  and_then (get_member all_borders side) (fun found =>
    match found with
    | Some border_config =>
        if truthy border_config then
          and_then (get_member_or border_config "style" (JStr (lit "SOLID")))
            (fun style =>
          and_then (get_member_or border_config "color" black)
            (fun color =>
          Done (done ++ [(lit side,
                          JObj [(lit "style", style); (lit "color", color)])])))
        else Done done
    | None => Done done
    end).

(** The [borders] dict, when [args.get('borders')] holds. *)
Definition border_dict (all_borders : json) : attempt dict :=
  and_then (border_side all_borders "top" []) (fun b =>
  and_then (border_side all_borders "bottom" b) (fun b =>
  and_then (border_side all_borders "left" b) (fun b =>
  border_side all_borders "right" b))).

Definition text_format_of (args : format_args) : dict :=
  entry "bold" (bold args) not_none
  ++ entry "italic" (italic args) not_none
  ++ entry "fontSize" (font_size args) truthy
  ++ entry "fontFamily" (font_family args) truthy
  ++ entry "foregroundColor" (text_color args) truthy.

Definition nonempty_dict (d : dict) : bool :=
  match d with
  | [] => false
  | _ :: _ => true
  end.

(** [cell_format] before the borders. *)
Definition plain_format (args : format_args) : dict :=
  (if nonempty_dict (text_format_of args)
   then [(lit "textFormat", JObj (text_format_of args))] else [])
  ++ entry "backgroundColor" (background_color args) truthy
  ++ entry "horizontalAlignment" (horizontal_alignment args) truthy
  ++ entry "verticalAlignment" (vertical_alignment args) truthy
  ++ entry "wrapStrategy" (wrap_strategy args) truthy.

(** The [borders] block, as the entries it adds to [cell_format]. *)
Definition border_format (args : format_args) : attempt dict :=
  match borders args with
  | Some all_borders =>
      if truthy all_borders then
        and_then (border_dict all_borders) (fun b =>
          Done (if nonempty_dict b then [(lit "borders", JObj b)] else []))
      else Done []
  | None => Done []
  end.

(** The list [fields]. *)
Definition field_names (args : format_args) : list str :=
  (if nonempty_dict (text_format_of args)
   then [lit "userEnteredFormat.textFormat"] else [])
  ++ (if given (background_color args)
      then [lit "userEnteredFormat.backgroundColor"] else [])
  ++ (if given (horizontal_alignment args)
      then [lit "userEnteredFormat.horizontalAlignment"] else [])
  ++ (if given (vertical_alignment args)
      then [lit "userEnteredFormat.verticalAlignment"] else [])
  ++ (if given (wrap_strategy args)
      then [lit "userEnteredFormat.wrapStrategy"] else [])
  ++ (if given (borders args)
      then [lit "userEnteredFormat.borders"] else []).

(** The [repeatCell] request. *)
Record repeat_cell : Type := {
  request_range : GridRange;
  userEnteredFormat : dict;
  fields : str
}.

Definition formatted (range : str) : str :=
  lit "Formatted cells in range " ++ range.

(** The request submitted to [batchUpdate] and the answer. *)
Definition format_cells (args : format_args) : attempt (repeat_cell * str) :=
  match _parse_a1_range (range args) (sheet_id args) with
  | Raise e => Failed (FromParser e)
  | Ret grid_range =>
      and_then (border_format args) (fun border_entries =>
        let cell_format := plain_format args ++ border_entries in
        let fields := field_names args in
        Done ({| request_range := grid_range;
                 userEnteredFormat := cell_format;
                 fields := match fields with
                           | [] => lit "userEnteredFormat"
                           | _ :: _ => join (lit ",") fields
                           end |},
              formatted (range args)))
  end.


(** No formatting option is given. *)
Definition no_option (args : format_args) : Prop :=
  (bold args = None \/ bold args = Some JNull)
  /\ (italic args = None \/ italic args = Some JNull)
  /\ given (font_size args) = false
  /\ given (font_family args) = false
  /\ given (text_color args) = false
  /\ given (background_color args) = false
  /\ given (horizontal_alignment args) = false
  /\ given (vertical_alignment args) = false
  /\ given (wrap_strategy args) = false
  /\ given (borders args) = false.

End Numbers.

Arguments JNull {number}.
Arguments JBool {number} b.
Arguments JNum {number} n.
Arguments JStr {number} s.
Arguments JList {number} l.
Arguments JObj {number} members.
Arguments spreadsheet_id {number} f.
Arguments sheet_id {number} f.
Arguments range {number} f.
Arguments bold {number} f.
Arguments italic {number} f.
Arguments font_size {number} f.
Arguments font_family {number} f.
Arguments text_color {number} f.
Arguments background_color {number} f.
Arguments horizontal_alignment {number} f.
Arguments vertical_alignment {number} f.
Arguments wrap_strategy {number} f.
Arguments borders {number} f.
Arguments request_range {number} r.
Arguments userEnteredFormat {number} r.
Arguments fields {number} r.

(** Integers as numbers. *)
Definition plain_args (range : str) : format_args Z :=
  {| spreadsheet_id := lit "sheet"; sheet_id := 0; range := range;
     bold := None; italic := None; font_size := None; font_family := None;
     text_color := None; background_color := None;
     horizontal_alignment := None; vertical_alignment := None;
     wrap_strategy := None; borders := None |}.

(** A call whose [borders] is a text, and one whose [borders] names no
    side. *)
Definition borders_args (range : str) (v : json Z) : format_args Z :=
  {| spreadsheet_id := lit "sheet"; sheet_id := 0; range := range;
     bold := None; italic := None; font_size := None; font_family := None;
     text_color := None; background_color := None;
     horizontal_alignment := None; vertical_alignment := None;
     wrap_strategy := None; borders := Some v |}.

End Format.

(** * Properties *)

Import Docs.

(** ** Python subscripts *)

Lemma len_nonneg {A : Type} (l : list A) : 0 <= len l.
Proof. unfold len. lia. Qed.

Lemma len_cons {A : Type} (a : A) (l : list A) : len (a :: l) = len l + 1.
Proof. unfold len. cbn [length]. lia. Qed.

Lemma len_app {A : Type} (l l' : list A) : len (l ++ l') = len l + len l'.
Proof. unfold len. rewrite length_app. lia. Qed.

Lemma getitem_in_range {A : Type} (l : list A) (i : Z) :
  - len l <= i < len l ->
  exists a, getitem l i = Ret a /\
            nth_error l (Z.to_nat (wrap (len l) i)) = Some a.
Proof.
  intros Hi. unfold getitem.
  assert (Hw : 0 <= wrap (len l) i < len l).
  { unfold wrap. destruct (Z.ltb_spec i 0); lia. }
  replace (0 <=? wrap (len l) i) with true by (symmetry; apply Z.leb_le; lia).
  replace (wrap (len l) i <? len l) with true by (symmetry; apply Z.ltb_lt; lia).
  cbn [andb].
  destruct (nth_error l (Z.to_nat (wrap (len l) i))) as [a|] eqn:E.
  - exists a. split; reflexivity.
  - apply nth_error_None in E. unfold len in *. lia.
Qed.

Lemma getitem_too_low {A : Type} (l : list A) (i : Z) :
  i < - len l -> getitem l i = Raise IndexError.
Proof.
  intros Hi. unfold getitem, wrap. pose proof (len_nonneg l).
  destruct (Z.ltb_spec i 0); [|lia].
  replace (0 <=? i + len l) with false by (symmetry; apply Z.leb_gt; lia).
  reflexivity.
Qed.

Lemma getitem_too_high {A : Type} (l : list A) (i : Z) :
  len l <= i -> getitem l i = Raise IndexError.
Proof.
  intros Hi. unfold getitem, wrap. pose proof (len_nonneg l).
  destruct (Z.ltb_spec i 0); [lia|].
  replace (i <? len l) with false by (symmetry; apply Z.ltb_ge; lia).
  rewrite andb_false_r. reflexivity.
Qed.

(** ** The cell locator *)

Lemma scan_tables (content : list Element) (a r c : Z) :
  scan content a r c =
  (fix go (ts : list Table) : py (option (Z * Z)) :=
     match ts with
     | [] => Ret None
     | t :: rest =>
         x <- in_table t r c ;;
         match x with
         | Some (start, end_) => Ret (Some (start, end_))
         | None => go rest
         end
     end)
    (flat_map (fun element =>
                 match table_at element a with
                 | Some t => [t]
                 | None => []
                 end) content).
Proof.
  induction content as [|element rest IH]; [reflexivity|].
  cbn [scan flat_map]. destruct (table_at element a) as [t|].
  - cbn [app]. rewrite IH. reflexivity.
  - cbn [app]. exact IH.
Qed.

Lemma locate_first (doc : Document) (a r c : Z) (t : Table)
  (rest : list Table) (s e : Z) :
  tables_at doc a = t :: rest ->
  in_table t r c = Ret (Some (s, e)) ->
  _get_cell_content_indexes doc a r c = Ret (Some (s, e)).
Proof.
  intros Ht Hin. unfold _get_cell_content_indexes. rewrite scan_tables.
  unfold tables_at in Ht. rewrite Ht. rewrite Hin. reflexivity.
Qed.

Lemma locate_first_raises (doc : Document) (a r c : Z) (t : Table)
  (rest : list Table) (x : exn) :
  tables_at doc a = t :: rest ->
  in_table t r c = Raise x ->
  _get_cell_content_indexes doc a r c = Raise x.
Proof.
  intros Ht Hin. unfold _get_cell_content_indexes. rewrite scan_tables.
  unfold tables_at in Ht. rewrite Ht. rewrite Hin. reflexivity.
Qed.

Lemma locate_none (doc : Document) (a r c : Z) :
  Forall (fun t => in_table t r c = Ret None) (tables_at doc a) ->
  _get_cell_content_indexes doc a r c = Ret NotFound.
Proof.
  unfold _get_cell_content_indexes, tables_at. rewrite scan_tables.
  induction (flat_map _ (elements doc)) as [|t ts IH]; intros H.
  - reflexivity.
  - inversion H as [|? ? Ht Hts]; subst. rewrite Ht. cbn [bind]. auto.
Qed.

Lemma in_table_beyond (rows columns : Z) (t : Table) (r c : Z) :
  has_shape rows columns t ->
  rows <= r \/ (columns <= c /\ - rows <= r) ->
  in_table t r c = Ret None.
Proof.
  intros (rs & Hrs & Hlen & Hcols) Hout. unfold in_table.
  rewrite Hrs. cbn [get]. rewrite Hlen.
  destruct (Z.ltb_spec r rows) as [Hr|Hr]; [|reflexivity].
  destruct Hout as [Hout|[Hc Hlow]]; [lia|].
  cbn [item bind].
  destruct (getitem_in_range rs r) as (row & Hget & Hnth); [lia|].
  rewrite Hget. cbn [bind].
  apply nth_error_In in Hnth.
  rewrite Forall_forall in Hcols. destruct (Hcols row Hnth) as (cs & Hcs & Hn).
  rewrite Hcs. cbn [get]. rewrite Hn.
  destruct (Z.ltb_spec c columns); [lia|reflexivity].
Qed.

(** C8, as the code has it: on a document whose table at the anchor has
    [rows] rows of [columns] cells, the locator answers NotFound, without
    raising, for a row index of [rows] or more and for a column index of
    [columns] or more whose row index is at least [- rows]; in particular
    for row [rows] and column 0. *)
Theorem locate_beyond_bounds (doc : Document) (anchor rows columns : Z)
  (row_index column_index : Z) :
  tables_at doc anchor <> [] ->
  Forall (has_shape rows columns) (tables_at doc anchor) ->
  rows <= row_index \/ (columns <= column_index /\ - rows <= row_index) ->
  _get_cell_content_indexes doc anchor row_index column_index = Ret NotFound
  /\ _get_cell_content_indexes doc anchor rows 0 = Ret NotFound.
Proof.
  intros _ Hshape Hout. split; apply locate_none.
  - eapply Forall_impl; [|exact Hshape]. intros t Ht.
    eapply in_table_beyond; eauto.
  - eapply Forall_impl; [|exact Hshape]. intros t Ht.
    eapply in_table_beyond; eauto. lia.
Qed.

Lemma table22_shape : has_shape 2 2 Samples.table22.
Proof.
  eexists. split; [reflexivity|]. split; [reflexivity|].
  repeat constructor; eexists; split; reflexivity.
Qed.

Lemma locate_beyond_bounds_witness :
  _get_cell_content_indexes Samples.doc22 5 (-1) 2 = Ret NotFound
  /\ _get_cell_content_indexes Samples.doc22 5 2 0 = Ret NotFound.
Proof.
  apply (locate_beyond_bounds Samples.doc22 5 2 2 (-1) 2).
  - discriminate.
  - repeat constructor. exact table22_shape.
  - right. lia.
Defined.

(** C8 as worded fails: with a column index of [columns] and a row index
    below [- rows] the locator raises instead of answering NotFound. *)
Lemma locate_beyond_bounds_raises :
  has_shape 2 2 Samples.table22
  /\ tables_at Samples.doc22 5 = [Samples.table22]
  /\ 2 <= 2
  /\ _get_cell_content_indexes Samples.doc22 5 (-3) 2 = Raise IndexError
  /\ _get_cell_content_indexes Samples.doc22 5 (-3) 2 <> Ret NotFound.
Proof.
  split; [exact table22_shape|]. split; [reflexivity|]. split; [lia|].
  split; [reflexivity|discriminate].
Qed.

Lemma in_table_resolves (t : Table) (rows : list TableRow) (r : TableRow)
  (cells : list TableCell) (c : TableCell) (row_index column_index : Z) :
  tableRows t = Some rows ->
  - len rows <= row_index < len rows ->
  nth_error rows (Z.to_nat (wrap (len rows) row_index)) = Some r ->
  tableCells r = Some cells ->
  - len cells <= column_index < len cells ->
  nth_error cells (Z.to_nat (wrap (len cells) column_index)) = Some c ->
  in_table t row_index column_index = Ret (cell_range c).
Proof.
  intros Hrows Hr Hnr Hcells Hc Hnc. unfold in_table.
  rewrite Hrows. cbn [get item bind].
  destruct (Z.ltb_spec row_index (len rows)); [|lia].
  destruct (getitem_in_range rows row_index Hr) as (r' & Hget & Hnth).
  rewrite Hget. cbn [bind].
  assert (r' = r) by congruence. subst r'.
  rewrite Hcells. cbn [get item bind].
  destruct (Z.ltb_spec column_index (len cells)); [|lia].
  destruct (getitem_in_range cells column_index Hc) as (c' & Hget' & Hnth').
  rewrite Hget'. cbn [bind]. congruence.
Qed.

Lemma wrap_idem (n i : Z) : - n <= i < n -> wrap n (wrap n i) = wrap n i.
Proof.
  intros Hi. unfold wrap. destruct (Z.ltb_spec i 0).
  - destruct (Z.ltb_spec (i + n) 0); [lia|reflexivity].
  - destruct (Z.ltb_spec i 0); [lia|reflexivity].
Qed.

Lemma wrap_range (n i : Z) : - n <= i < n -> 0 <= wrap n i < n.
Proof. intros Hi. unfold wrap. destruct (Z.ltb_spec i 0); lia. Qed.

(** An index below [- n] raises: a row index below minus the number of
    rows, and a column index below minus the number of cells of a selected
    row. *)
Lemma locate_index_too_low (doc : Document) (anchor : Z) (t : Table)
  (rest : list Table) (rows : list TableRow) (row_index column_index : Z) :
  tables_at doc anchor = t :: rest ->
  tableRows t = Some rows ->
  (row_index < - len rows ->
   _get_cell_content_indexes doc anchor row_index column_index
   = Raise IndexError)
  /\ (forall (r : TableRow) (cells : list TableCell),
         - len rows <= row_index < len rows ->
         nth_error rows (Z.to_nat (wrap (len rows) row_index)) = Some r ->
         tableCells r = Some cells ->
         column_index < - len cells ->
         _get_cell_content_indexes doc anchor row_index column_index
         = Raise IndexError).
Proof.
  intros Ht Hrows. split.
  - intros Hlow. eapply locate_first_raises; [exact Ht|].
    unfold in_table. rewrite Hrows. cbn [get item bind].
    pose proof (len_nonneg rows).
    destruct (Z.ltb_spec row_index (len rows)); [|lia].
    rewrite getitem_too_low by lia. reflexivity.
  - intros r cells Hr Hnr Hcells Hlow.
    eapply locate_first_raises; [exact Ht|].
    unfold in_table. rewrite Hrows. cbn [get item bind].
    destruct (Z.ltb_spec row_index (len rows)); [|lia].
    destruct (getitem_in_range rows row_index Hr) as (r' & Hget & Hnth).
    rewrite Hget. cbn [bind].
    assert (r' = r) by congruence. subst r'.
    rewrite Hcells. cbn [get item bind].
    pose proof (len_nonneg cells).
    destruct (Z.ltb_spec column_index (len cells)); [|lia].
    rewrite getitem_too_low by lia. reflexivity.
Qed.

(** C9, as the code has it: the bounds check guards the upper bound only.
    An index [i] with [- n <= i < 0], [n] being the number of rows (of cells
    in the selected row), selects the row (cell) [n + i], counted from the
    end; when that cell has content, its content range is returned and not
    NotFound, as for the index [n + i] itself. *)
Theorem locate_negative_index (doc : Document) (anchor : Z) (t : Table)
  (rest : list Table) (rows : list TableRow) (r : TableRow)
  (cells : list TableCell) (c : TableCell) (s e : Z)
  (row_index column_index : Z) :
  tables_at doc anchor = t :: rest ->
  tableRows t = Some rows ->
  row_index < 0 \/ column_index < 0 ->
  - len rows <= row_index < len rows ->
  nth_error rows (Z.to_nat (wrap (len rows) row_index)) = Some r ->
  tableCells r = Some cells ->
  - len cells <= column_index < len cells ->
  nth_error cells (Z.to_nat (wrap (len cells) column_index)) = Some c ->
  cell_range c = Some (s, e) ->
  _get_cell_content_indexes doc anchor row_index column_index
  = Ret (Some (s, e))
  /\ _get_cell_content_indexes doc anchor row_index column_index
     <> Ret NotFound
  /\ _get_cell_content_indexes doc anchor
       (wrap (len rows) row_index) (wrap (len cells) column_index)
     = Ret (Some (s, e)).
Proof.
  intros Ht Hrows _ Hr Hnr Hcells Hc Hnc Hrange.
  assert (H1 : _get_cell_content_indexes doc anchor row_index column_index
               = Ret (Some (s, e))).
  { eapply locate_first; [exact Ht|].
    rewrite <- Hrange. eapply in_table_resolves; eauto. }
  split; [exact H1|]. split; [rewrite H1; discriminate|].
  eapply locate_first; [exact Ht|].
  rewrite <- Hrange.
  pose proof (wrap_range _ _ Hr). pose proof (wrap_range _ _ Hc).
  eapply in_table_resolves; eauto; try lia.
  - rewrite wrap_idem by lia. exact Hnr.
  - rewrite wrap_idem by lia. exact Hnc.
Qed.

Lemma locate_negative_index_witness :
  _get_cell_content_indexes Samples.doc22 5 (-1) (-2) = Ret (Some (20, 25))
  /\ _get_cell_content_indexes Samples.doc22 5 (-1) (-2) <> Ret NotFound
  /\ _get_cell_content_indexes Samples.doc22 5 1 0 = Ret (Some (20, 25)).
Proof.
  refine (locate_negative_index Samples.doc22 5 Samples.table22 []
            [ Samples.row_of [Samples.cell_of 7 12; Samples.cell_of 13 18];
              Samples.row_of [Samples.cell_of 20 25; Samples.cell_of 26 27] ]
            (Samples.row_of [Samples.cell_of 20 25; Samples.cell_of 26 27])
            [Samples.cell_of 20 25; Samples.cell_of 26 27]
            (Samples.cell_of 20 25) 20 25 (-1) (-2)
            eq_refl eq_refl _ _ eq_refl eq_refl _ eq_refl eq_refl).
  - left. lia.
  - unfold len. simpl. lia.
  - unfold len. simpl. lia.
Defined.

(** C9 as worded fails: on a table of two rows the negative row index -3
    selects no row; the call raises and returns no content range. *)
Lemma locate_negative_index_raises :
  tables_at Samples.doc22 5 = [Samples.table22]
  /\ has_shape 2 2 Samples.table22
  /\ -3 < 0
  /\ _get_cell_content_indexes Samples.doc22 5 (-3) 0 = Raise IndexError
  /\ ~ (exists s e, _get_cell_content_indexes Samples.doc22 5 (-3) 0
                    = Ret (Some (s, e))).
Proof.
  split; [reflexivity|]. split; [exact table22_shape|]. split; [lia|].
  split; [reflexivity|]. intros (s & e & H). discriminate H.
Qed.

(** ** The planner: sorting and grouping *)

Lemma build_requests_groups (re : bool) (cell_data : list cell_entry) :
  build_requests re cell_data = flat_map (cell_requests re) cell_data.
Proof.
  unfold build_requests.
  enough (H : forall acc,
             fold_left (fun requests cell => requests ++ cell_requests re cell)
               cell_data acc
             = acc ++ flat_map (cell_requests re) cell_data) by apply (H []).
  induction cell_data as [|c cd IH]; intros acc; cbn [fold_left flat_map].
  - now rewrite app_nil_r.
  - rewrite IH, app_assoc. reflexivity.
Qed.

Lemma insert_desc_perm (x : cell_entry) (l : list cell_entry) :
  Permutation (x :: l) (insert_desc x l).
Proof.
  induction l as [|y l IH]; cbn [insert_desc]; [reflexivity|].
  destruct (start_idx y <=? start_idx x); [reflexivity|].
  rewrite perm_swap. now constructor.
Qed.

Lemma sort_desc_perm (l : list cell_entry) : Permutation l (sort_desc l).
Proof.
  induction l as [|x l IH]; cbn [sort_desc fold_right]; [constructor|].
  rewrite <- insert_desc_perm. now constructor.
Qed.

Lemma insert_desc_sorted (x : cell_entry) (l : list cell_entry) :
  StronglySorted starts_descend l ->
  StronglySorted starts_descend (insert_desc x l).
Proof.
  induction 1 as [|y l Hl IH Hy]; cbn [insert_desc].
  - repeat constructor.
  - destruct (Z.leb_spec (start_idx y) (start_idx x)) as [Hle|Hgt].
    + constructor; [constructor; assumption|].
      constructor; [exact Hle|].
      eapply Forall_impl; [|exact Hy]. unfold starts_descend. intros; lia.
    + constructor; [exact IH|].
      rewrite <- insert_desc_perm. constructor; [|exact Hy].
      unfold starts_descend. lia.
Qed.

Lemma sort_desc_sorted (l : list cell_entry) :
  StronglySorted starts_descend (sort_desc l).
Proof.
  induction l as [|x l IH]; cbn [sort_desc fold_right]; [constructor|].
  now apply insert_desc_sorted.
Qed.

Lemma insert_desc_stable (k : Z) (x : cell_entry) (l : list cell_entry) :
  filter (with_start k) (insert_desc x l) = filter (with_start k) (x :: l).
Proof.
  induction l as [|y l IH]; cbn [insert_desc]; [reflexivity|].
  destruct (Z.leb_spec (start_idx y) (start_idx x)) as [Hle|Hgt]; [reflexivity|].
  cbn [filter] in *. rewrite IH. unfold with_start.
  destruct (Z.eqb_spec (start_idx y) k), (Z.eqb_spec (start_idx x) k);
    try reflexivity; lia.
Qed.

Lemma sort_desc_stable (k : Z) (l : list cell_entry) :
  filter (with_start k) (sort_desc l) = filter (with_start k) l.
Proof.
  induction l as [|x l IH]; cbn [sort_desc fold_right]; [reflexivity|].
  rewrite insert_desc_stable. cbn [filter]. fold (sort_desc l).
  now rewrite IH.
Qed.

Lemma descend_strictly (l : list cell_entry) :
  StronglySorted starts_descend l ->
  NoDup (map start_idx l) ->
  StronglySorted starts_strictly_descend l.
Proof.
  induction 1 as [|x l Hl IH Hx]; intros Hnd; [constructor|].
  cbn [map] in Hnd. inversion Hnd as [|? ? Hnotin Hnd']; subst.
  constructor; [auto|].
  rewrite Forall_forall in *. intros y Hy.
  specialize (Hx y Hy). unfold starts_descend in Hx.
  unfold starts_strictly_descend.
  assert (start_idx y <> start_idx x).
  { intros E. apply Hnotin. rewrite <- E. now apply in_map. }
  lia.
Qed.

Lemma plan_groups (re : bool) (cell_data : list cell_entry) :
  plan re cell_data = flat_map (cell_requests re) (sort_desc cell_data).
Proof. unfold plan. apply build_requests_groups. Qed.

(** C2, as the code has it: the emitted requests are the per-target groups
    of the targets, concatenated in descending order of the targets' start
    offsets; the order is strictly descending when no two targets share a
    start offset, and targets that share one keep their input order.
    Start offsets 10, 50, 30 give the groups of 50, 30, 10. *)
Theorem plan_descending_groups (re : bool) (cell_data : list cell_entry) :
  plan re cell_data = flat_map (cell_requests re) (sort_desc cell_data)
  /\ Permutation cell_data (sort_desc cell_data)
  /\ StronglySorted starts_descend (sort_desc cell_data)
  /\ (NoDup (map start_idx cell_data) ->
      StronglySorted starts_strictly_descend (sort_desc cell_data))
  /\ (forall k, filter (with_start k) (sort_desc cell_data)
                = filter (with_start k) cell_data)
  /\ (forall a b c : str,
         plan true [Samples.entry 10 14 a; Samples.entry 50 54 b;
                    Samples.entry 30 34 c]
         = [deleteContentRange 50 53; insertText 50 b;
            deleteContentRange 30 33; insertText 30 c;
            deleteContentRange 10 13; insertText 10 a]).
Proof.
  split; [apply plan_groups|].
  split; [apply sort_desc_perm|].
  split; [apply sort_desc_sorted|].
  split.
  - intros Hnd. apply descend_strictly; [apply sort_desc_sorted|].
    eapply Permutation_NoDup; [|exact Hnd].
    apply Permutation_map, sort_desc_perm.
  - split; [intros k; apply sort_desc_stable|]. reflexivity.
Qed.

Lemma plan_descending_groups_witness :
  StronglySorted starts_strictly_descend
    (sort_desc [Samples.entry 10 14 []; Samples.entry 50 54 [];
                Samples.entry 30 34 []]).
Proof.
  apply (proj1 (proj2 (proj2 (proj2
    (plan_descending_groups true
       [Samples.entry 10 14 []; Samples.entry 50 54 [];
        Samples.entry 30 34 []]))))).
  cbn. repeat constructor; cbn; intuition discriminate.
Defined.

(** C2 as worded fails: when the same cell is given twice, both groups have
    the same start offset, and no order of the two groups is strictly
    descending. *)
Lemma plan_not_strictly_descending :
  let twice := [ {| row := 0; column := 0; text := lit "a" |};
                 {| row := 0; column := 0; text := lit "b" |} ] in
  exists requests answer,
    write_table_bulk Samples.doc22 (Samples.bulk twice)
    = Ret (Batch requests answer)
    /\ requests = [deleteContentRange 7 11; insertText 7 (lit "a");
                   deleteContentRange 7 11; insertText 7 (lit "b")]
    /\ collect Samples.doc22 5 twice
       = Ret [ {| entry_row := 0; entry_column := 0; entry_text := lit "a";
                  start_idx := 7; end_idx := 12 |};
               {| entry_row := 0; entry_column := 0; entry_text := lit "b";
                  start_idx := 7; end_idx := 12 |} ]
    /\ forall cell_data order,
         collect Samples.doc22 5 twice = Ret cell_data ->
         Permutation cell_data order ->
         ~ StronglySorted starts_strictly_descend order.
Proof.
  cbv zeta. eexists. eexists. split; [reflexivity|].
  split; [reflexivity|]. split; [reflexivity|].
  intros cell_data order Hc Hp Hs.
  cbv in Hc. injection Hc as <-.
  assert (Hall : Forall (fun c => start_idx c = 7) order).
  { rewrite Forall_forall. intros c Hin.
    apply Permutation_sym in Hp. pose proof (Permutation_in _ Hp Hin) as Hc.
    cbn in Hc. destruct Hc as [<-|[<-|[]]]; reflexivity. }
  apply Permutation_length in Hp. cbn in Hp.
  destruct order as [|x [|y [|z order]]]; try discriminate Hp.
  inversion Hs as [|? ? _ Hx]; subst.
  inversion Hall as [|? ? Ex Hall']; subst.
  inversion Hall' as [|? ? Ey _]; subst.
  inversion Hx as [|? ? Hxy _]; subst.
  unfold starts_strictly_descend in Hxy. lia.
Qed.

Lemma flat_map_group {A B : Type} (f : A -> list B) (x : A) (l : list A) :
  In x l -> exists before after, flat_map f l = before ++ f x ++ after.
Proof.
  intros Hin. apply in_split in Hin. destruct Hin as (l1 & l2 & ->).
  exists (flat_map f l1), (flat_map f l2).
  rewrite flat_map_app. reflexivity.
Qed.

Lemma plan_has_group (re : bool) (cell_data : list cell_entry) (c : cell_entry) :
  In c cell_data ->
  exists before after, plan re cell_data = before ++ cell_requests re c ++ after.
Proof.
  intros Hin. rewrite plan_groups. apply flat_map_group.
  eapply Permutation_in; [apply sort_desc_perm|exact Hin].
Qed.

(** ** No rejection, no all-or-nothing *)

Lemma bulk_of_collected (doc : Document) (args : bulk_args)
  (cell_data : list cell_entry) :
  collect doc (table_start_index args) (cells args) = Ret cell_data ->
  cell_data <> [] ->
  write_table_bulk doc args
  = Ret (Batch (plan (get (replace_existing args) true) cell_data)
           (wrote (length cell_data))).
Proof.
  intros Hc Hne. unfold write_table_bulk. rewrite Hc. cbn [bind].
  destruct cell_data; [contradiction|reflexivity].
Qed.

(** C4, as the code has it: the call checks neither overlap nor shared
    start offsets.  Whenever the lookups return and at least one target
    resolves, the batch is submitted: it holds the group of every resolved
    target, whatever the ranges are; the groups stand in descending order
    of the targets' start offsets, and targets that share a start offset
    are ordered as they were given.  The targets 10-20 and 15-25 give the
    group of 15, then the group of 10. *)
Theorem bulk_never_rejects (doc : Document) (args : bulk_args)
  (cell_data : list cell_entry) :
  collect doc (table_start_index args) (cells args) = Ret cell_data ->
  cell_data <> [] ->
  let re := get (replace_existing args) true in
  write_table_bulk doc args
  = Ret (Batch (plan re cell_data) (wrote (length cell_data)))
  /\ (forall c, In c cell_data ->
        exists before after,
          plan re cell_data = before ++ cell_requests re c ++ after)
  /\ (exists order,
         plan re cell_data = flat_map (cell_requests re) order
         /\ Permutation cell_data order
         /\ StronglySorted starts_descend order
         /\ forall k, filter (with_start k) order
                      = filter (with_start k) cell_data)
  /\ plan re cell_data = flat_map (cell_requests re) (sort_desc cell_data)
  /\ StronglySorted starts_descend (sort_desc cell_data)
  /\ (forall k, filter (with_start k) (sort_desc cell_data)
                = filter (with_start k) cell_data)
  /\ (forall x y : str,
         plan true [Samples.entry 10 20 x; Samples.entry 15 25 y]
         = [deleteContentRange 15 24; insertText 15 y;
            deleteContentRange 10 19; insertText 10 x]).
Proof.
  intros Hc Hne re. split; [now apply bulk_of_collected|].
  split; [intros c; apply plan_has_group|].
  split.
  { exists (sort_desc cell_data).
    split; [apply plan_groups|]. split; [apply sort_desc_perm|].
    split; [apply sort_desc_sorted|]. intros k. apply sort_desc_stable. }
  split; [apply plan_groups|].
  split; [apply sort_desc_sorted|].
  split; [intros k; apply sort_desc_stable|]. reflexivity.
Qed.

Lemma bulk_never_rejects_witness :
  write_table_bulk Samples.doc_overlap
    (Samples.bulk [ {| row := 0; column := 0; text := lit "X" |};
                    {| row := 0; column := 1; text := lit "Y" |} ])
  = Ret (Batch [deleteContentRange 15 24; insertText 15 (lit "Y");
                deleteContentRange 10 19; insertText 10 (lit "X")]
           (wrote 2)).
Proof.
  refine (eq_trans
            (proj1 (bulk_never_rejects Samples.doc_overlap
                      (Samples.bulk
                         [ {| row := 0; column := 0; text := lit "X" |};
                           {| row := 0; column := 1; text := lit "Y" |} ])
                      [ {| entry_row := 0; entry_column := 0;
                           entry_text := lit "X";
                           start_idx := 10; end_idx := 20 |};
                        {| entry_row := 0; entry_column := 1;
                           entry_text := lit "Y";
                           start_idx := 15; end_idx := 25 |} ]
                      eq_refl _))
            eq_refl).
  discriminate.
Defined.

(** C4 as worded fails: the targets 10-20 and 15-25 overlap, and the same
    cell given twice shares its start offset; both calls submit a batch. *)
Lemma bulk_accepts_overlap_and_ties :
  overlap (Samples.entry 10 20 (lit "X")) (Samples.entry 15 25 (lit "Y")) = true
  /\ plan true [Samples.entry 10 20 (lit "X"); Samples.entry 15 25 (lit "Y")]
     = [deleteContentRange 15 24; insertText 15 (lit "Y");
        deleteContentRange 10 19; insertText 10 (lit "X")]
  /\ write_table_bulk Samples.doc_overlap
       (Samples.bulk [ {| row := 0; column := 0; text := lit "X" |};
                       {| row := 0; column := 1; text := lit "Y" |} ])
     = Ret (Batch [deleteContentRange 15 24; insertText 15 (lit "Y");
                   deleteContentRange 10 19; insertText 10 (lit "X")]
              (wrote 2))
  /\ write_table_bulk Samples.doc22
       (Samples.bulk [ {| row := 0; column := 0; text := lit "a" |};
                       {| row := 0; column := 0; text := lit "b" |} ])
     = Ret (Batch [deleteContentRange 7 11; insertText 7 (lit "a");
                   deleteContentRange 7 11; insertText 7 (lit "b")]
              (wrote 2)).
Proof. repeat split. Qed.

Lemma collect_resolved (doc : Document) (anchor : Z) (cells : list cell_arg) :
  Forall (fun cell => exists r, locate_cell doc anchor cell = Ret r) cells ->
  collect doc anchor cells = Ret (resolved doc anchor cells).
Proof.
  induction 1 as [|cell cells (r & Hr) _ IH]; [reflexivity|].
  cbn [collect resolved flat_map]. fold (resolved doc anchor cells).
  unfold resolve. unfold locate_cell in Hr. unfold locate_cell.
  rewrite Hr, IH. cbn [bind].
  destruct r as [[s e]|]; reflexivity.
Qed.

Lemma collect_raises (doc : Document) (anchor : Z) (cells : list cell_arg) :
  Exists (fun cell => raises (locate_cell doc anchor cell)) cells ->
  raises (collect doc anchor cells).
Proof.
  induction 1 as [cell cells (e & He)|cell cells _ (e & IH)];
    cbn [collect]; unfold locate_cell in *.
  - rewrite He. exists e. reflexivity.
  - destruct (_get_cell_content_indexes doc anchor (row cell) (column cell))
      as [r|e'].
    + rewrite IH. exists e. reflexivity.
    + exists e'. reflexivity.
Qed.

(** C5, as the code has it: a target that does not resolve is skipped.
    When every lookup returns, the call answers with an error and submits
    nothing if no target resolves, and otherwise submits the plan of
    exactly the targets that resolve; when a lookup raises, the call raises
    and submits nothing. *)
Theorem bulk_skips_unresolved (doc : Document) (args : bulk_args) :
  let anchor := table_start_index args in
  let found := resolved doc anchor (cells args) in
  (Forall (fun cell => exists r, locate_cell doc anchor cell = Ret r)
     (cells args) ->
   (found = [] -> write_table_bulk doc args = Ret (NoBatch none_found))
   /\ (found <> [] ->
       write_table_bulk doc args
       = Ret (Batch (plan (get (replace_existing args) true) found)
                (wrote (length found)))))
  /\ (Exists (fun cell => raises (locate_cell doc anchor cell)) (cells args) ->
      raises (write_table_bulk doc args)).
Proof.
  intros anchor found. split.
  - intros Hall. pose proof (collect_resolved doc anchor (cells args) Hall) as Hc.
    fold found in Hc. split.
    + intros E. unfold write_table_bulk. fold anchor. rewrite Hc, E. reflexivity.
    + intros Hne. now apply bulk_of_collected.
  - intros Hex. destruct (collect_raises doc anchor (cells args) Hex) as (e & He).
    unfold write_table_bulk. fold anchor. rewrite He. exists e. reflexivity.
Qed.

Lemma bulk_skips_unresolved_witness :
  write_table_bulk Samples.doc22
    (Samples.bulk [ {| row := 0; column := 0; text := lit "x" |};
                    {| row := 5; column := 0; text := lit "y" |} ])
  = Ret (Batch [deleteContentRange 7 11; insertText 7 (lit "x")] (wrote 1))
  /\ write_table_bulk Samples.doc22
       (Samples.bulk [ {| row := 5; column := 0; text := lit "y" |} ])
     = Ret (NoBatch none_found)
  /\ raises (write_table_bulk Samples.doc22
               (Samples.bulk [ {| row := 0; column := 0; text := lit "x" |};
                               {| row := -3; column := 0; text := lit "y" |} ])).
Proof.
  split; [|split].
  - refine (proj2 (proj1 (bulk_skips_unresolved Samples.doc22
              (Samples.bulk [ {| row := 0; column := 0; text := lit "x" |};
                              {| row := 5; column := 0; text := lit "y" |} ])) _) _).
    + repeat constructor; eexists; reflexivity.
    + discriminate.
  - refine (proj1 (proj1 (bulk_skips_unresolved Samples.doc22
              (Samples.bulk [ {| row := 5; column := 0; text := lit "y" |} ])) _) _).
    + repeat constructor; eexists; reflexivity.
    + reflexivity.
  - refine (proj2 (bulk_skips_unresolved Samples.doc22
              (Samples.bulk [ {| row := 0; column := 0; text := lit "x" |};
                              {| row := -3; column := 0; text := lit "y" |} ])) _).
    apply Exists_cons_tl, Exists_cons_hd. exists IndexError. reflexivity.
Defined.

(** C5 as worded fails: of two requested targets one resolves and one does
    not; the call returns no error and submits the requests of the first
    alone. *)
Lemma bulk_applies_partially :
  locate_cell Samples.doc22 5 {| row := 0; column := 0; text := lit "x" |}
  = Ret (Some (7, 12))
  /\ locate_cell Samples.doc22 5 {| row := 5; column := 0; text := lit "y" |}
     = Ret NotFound
  /\ write_table_bulk Samples.doc22
       (Samples.bulk [ {| row := 0; column := 0; text := lit "x" |};
                       {| row := 5; column := 0; text := lit "y" |} ])
     = Ret (Batch [deleteContentRange 7 11; insertText 7 (lit "x")] (wrote 1)).
Proof. repeat split. Qed.

(** ** Executing a plan *)

Lemma apply_batch_app (d : str) (l1 l2 : list request) :
  apply_batch d (l1 ++ l2)
  = match apply_batch d l1 with
    | Some d' => apply_batch d' l2
    | None => None
    end.
Proof.
  revert d. induction l1 as [|r l1 IH]; intros d; cbn [app apply_batch].
  - reflexivity.
  - destruct (apply_request d r); [apply IH|reflexivity].
Qed.

Lemma firstn_prefix {A : Type} (n : nat) (P X : list A) :
  (n <= length P)%nat -> firstn n (P ++ X) = firstn n P.
Proof.
  intros H. rewrite firstn_app.
  replace (n - length P)%nat with 0%nat by lia.
  cbn [firstn]. apply app_nil_r.
Qed.

Lemma skipn_prefix {A : Type} (n : nat) (P X : list A) :
  (n <= length P)%nat -> skipn n (P ++ X) = skipn n P ++ X.
Proof.
  intros H. rewrite skipn_app.
  replace (n - length P)%nat with 0%nat by lia. reflexivity.
Qed.

Lemma firstn_of_firstn_app {A : Type} (n : nat) (P R : list A) :
  (n <= length P)%nat -> firstn n (firstn n P ++ R) = firstn n P.
Proof.
  intros H. rewrite firstn_prefix by (rewrite length_firstn; lia).
  rewrite firstn_firstn. f_equal. lia.
Qed.

Lemma skipn_of_firstn_app {A : Type} (n : nat) (P R : list A) :
  (n <= length P)%nat -> skipn n (firstn n P ++ R) = R.
Proof.
  intros H. rewrite skipn_app. rewrite length_firstn.
  replace (n - Nat.min n (length P))%nat with 0%nat by lia.
  rewrite skipn_all2 by (rewrite length_firstn; lia). reflexivity.
Qed.

(** The requests of one target, applied to a state that still has the
    snapshot's prefix [P], rewrite that prefix alone. *)
Lemma apply_group (re : bool) (c : cell_entry) (P X : str) :
  in_snapshot P c ->
  apply_batch (P ++ X) (cell_requests re c)
  = Some (firstn (Z.to_nat (start_idx c)) P ++ entry_text c
          ++ kept re c P ++ X).
Proof.
  intros (H0 & Hlt & Hlen). unfold cell_requests, kept.
  assert (Hs : (Z.to_nat (start_idx c) <= length P)%nat)
    by (unfold len in Hlen; lia).
  destruct (re && (end_idx c >? start_idx c + 1)) eqn:E.
  - apply andb_prop in E. destruct E as [_ E].
    apply Z.gtb_lt in E.
    assert (He : (Z.to_nat (end_idx c - 1) <= length P)%nat)
      by (unfold len in Hlen; lia).
    cbn [app apply_batch apply_request].
    replace ((0 <=? start_idx c) && (start_idx c <? end_idx c - 1)
             && (end_idx c - 1 <=? len (P ++ X))) with true.
    2:{ symmetry. rewrite !andb_true_iff, Z.leb_le, Z.ltb_lt, Z.leb_le.
        rewrite len_app. pose proof (len_nonneg X). lia. }
    rewrite firstn_prefix, skipn_prefix by assumption.
    set (R := skipn (Z.to_nat (end_idx c - 1)) P ++ X).
    replace ((0 <=? start_idx c)
             && (start_idx c <=? len (firstn (Z.to_nat (start_idx c)) P ++ R)))
      with true.
    2:{ symmetry. rewrite andb_true_iff, !Z.leb_le. rewrite len_app.
        pose proof (len_nonneg R). unfold len at 1.
        rewrite length_firstn. lia. }
    rewrite firstn_of_firstn_app, skipn_of_firstn_app by assumption.
    unfold R. reflexivity.
  - cbn [app apply_batch apply_request].
    replace ((0 <=? start_idx c) && (start_idx c <=? len (P ++ X))) with true.
    2:{ symmetry. rewrite andb_true_iff, !Z.leb_le. rewrite len_app.
        pose proof (len_nonneg X). lia. }
    rewrite firstn_prefix, skipn_prefix by assumption. reflexivity.
Qed.

(** C3: in replace mode a target over the range from [s] to [e] gets the
    group [deleteContentRange s (e-1)], [insertText s text] when [e > s+1]
    and the single request [insertText s text] otherwise.  The deleted
    range stops before position [e-1]: applied to the snapshot text, the
    group keeps the text from [e-1] on.  This group is what the planner
    emits for the target, alone or among others, and what a call submits
    for a single resolved cell.  A replace over 20-25 gives
    [deleteContentRange 20 24] then [insertText 20 text]. *)
Theorem replace_target_requests (c : cell_entry) :
  (end_idx c > start_idx c + 1 ->
   cell_requests true c
   = [deleteContentRange (start_idx c) (end_idx c - 1);
      insertText (start_idx c) (entry_text c)])
  /\ (end_idx c <= start_idx c + 1 ->
      cell_requests true c = [insertText (start_idx c) (entry_text c)])
  /\ (forall a b, In (deleteContentRange a b) (cell_requests true c) ->
                  a = start_idx c /\ b = end_idx c - 1
                  /\ ~ (a <= end_idx c - 1 < b))
  /\ (forall d, in_snapshot d c -> end_idx c > start_idx c + 1 ->
                apply_batch d (cell_requests true c)
                = Some (firstn (Z.to_nat (start_idx c)) d ++ entry_text c
                        ++ skipn (Z.to_nat (end_idx c - 1)) d))
  /\ plan true [c] = cell_requests true c
  /\ (forall cell_data, In c cell_data ->
        exists before after,
          plan true cell_data = before ++ cell_requests true c ++ after)
  /\ (forall doc args,
         collect doc (table_start_index args) (cells args) = Ret [c] ->
         replace_existing args = None \/ replace_existing args = Some true ->
         write_table_bulk doc args
         = Ret (Batch (cell_requests true c) (wrote 1)))
  /\ (forall t, plan true [Samples.entry 20 25 t]
                = [deleteContentRange 20 24; insertText 20 t]).
Proof.
  assert (Hone : plan true [c] = cell_requests true c).
  { rewrite plan_groups. cbn. apply app_nil_r. }
  split; [|split; [|split; [|split; [|split; [|split; [|split]]]]]].
  - intros H. unfold cell_requests. cbn [andb].
    destruct (Z.gtb_spec (end_idx c) (start_idx c + 1)); [reflexivity|lia].
  - intros H. unfold cell_requests. cbn [andb].
    destruct (Z.gtb_spec (end_idx c) (start_idx c + 1)); [lia|reflexivity].
  - intros a b Hin. unfold cell_requests in Hin. cbn [andb] in Hin.
    destruct (Z.gtb_spec (end_idx c) (start_idx c + 1)); cbn in Hin.
    + destruct Hin as [E|[E|[]]]; [|discriminate E].
      injection E as <- <-. repeat split; lia.
    + destruct Hin as [E|[]]. discriminate E.
  - intros d Hd Hbody.
    pose proof (apply_group true c d [] Hd) as H.
    rewrite !app_nil_r in H. rewrite H. unfold kept. cbn [andb].
    destruct (Z.gtb_spec (end_idx c) (start_idx c + 1)); [reflexivity|lia].
  - exact Hone.
  - intros cell_data Hin. apply (plan_has_group true _ _ Hin).
  - intros doc args Hc Hre.
    rewrite (bulk_of_collected doc args [c] Hc) by discriminate.
    rewrite <- Hone. destruct Hre as [-> | ->]; reflexivity.
  - reflexivity.
Qed.

Lemma replace_target_requests_witness :
  cell_requests true (Samples.entry 20 25 (lit "new"))
  = [deleteContentRange 20 24; insertText 20 (lit "new")]
  /\ cell_requests true (Samples.entry 26 27 (lit "new"))
     = [insertText 26 (lit "new")]
  /\ apply_batch Samples.text22
       (cell_requests true (Samples.entry 20 25 (lit "new")))
     = Some (lit ".......alfa|.beta|..new|.|...").
Proof.
  split; [|split].
  - apply (proj1 (replace_target_requests (Samples.entry 20 25 (lit "new")))).
    simpl. lia.
  - apply (proj1 (proj2 (replace_target_requests
                           (Samples.entry 26 27 (lit "new"))))).
    simpl. lia.
  - refine (eq_trans
              (proj1 (proj2 (proj2 (proj2
                 (replace_target_requests (Samples.entry 20 25 (lit "new"))))))
                 Samples.text22 _ _) _).
    + repeat split; vm_compute; congruence.
    + simpl. lia.
    + reflexivity.
Defined.

(** ** The intended text *)

Lemma rewritten_app (re : bool) (cd : list cell_entry) (p : Z) (A B : str) :
  rewritten re cd p (A ++ B)
  = rewritten re cd p A ++ rewritten re cd (p + len A) B.
Proof.
  revert p. induction A as [|u A IH]; intros p; cbn [app rewritten].
  - unfold len. cbn. now rewrite Z.add_0_r.
  - rewrite IH, len_cons. rewrite <- !app_assoc.
    do 3 f_equal. f_equal. lia.
Qed.

Lemma rewritten_ext (re : bool) (cd cd' : list cell_entry) (p : Z) (d : str) :
  (forall q, p <= q < p + len d ->
             inserted cd q = inserted cd' q
             /\ removed re cd q = removed re cd' q) ->
  rewritten re cd p d = rewritten re cd' p d.
Proof.
  revert p. induction d as [|u d IH]; intros p H; [reflexivity|].
  cbn [rewritten]. rewrite len_cons in H. pose proof (len_nonneg d).
  destruct (H p) as [-> ->]; [lia|].
  rewrite (IH (p + 1)); [reflexivity|].
  intros q Hq. apply H. lia.
Qed.

Lemma rewritten_nil (re : bool) (p : Z) (d : str) : rewritten re [] p d = d.
Proof.
  revert p. induction d as [|u d IH]; intros p; [reflexivity|].
  cbn [rewritten inserted removed flat_map existsb app]. now rewrite IH.
Qed.

(** Past its start offset, a single target inserts nothing and removes up
    to the position before its last. *)
Lemma rewritten_past_start (re : bool) (c : cell_entry) (p : Z) (d : str) :
  start_idx c < p ->
  rewritten re [c] p d
  = if re && (end_idx c >? start_idx c + 1)
    then skipn (Z.to_nat (end_idx c - 1 - p)) d
    else d.
Proof.
  revert p. induction d as [|u d IH]; intros p Hp.
  - cbn [rewritten]. rewrite skipn_nil. now destruct (_ && _).
  - cbn [rewritten inserted removed flat_map existsb].
    destruct (Z.eqb_spec (start_idx c) p) as [E|_]; [lia|].
    rewrite IH by lia. rewrite orb_false_r.
    destruct (re && (end_idx c >? start_idx c + 1)); cbn [andb app].
    + replace (start_idx c <=? p) with true by (symmetry; apply Z.leb_le; lia).
      destruct (Z.ltb_spec p (end_idx c - 1)) as [Hin|Hout].
      * replace (Z.to_nat (end_idx c - 1 - p))
          with (S (Z.to_nat (end_idx c - 1 - (p + 1)))) by lia.
        reflexivity.
      * replace (Z.to_nat (end_idx c - 1 - p)) with 0%nat by lia.
        replace (Z.to_nat (end_idx c - 1 - (p + 1))) with 0%nat by lia.
        reflexivity.
    + reflexivity.
Qed.

Lemma rewritten_at_start (re : bool) (c : cell_entry) (d : str) :
  start_idx c < end_idx c ->
  end_idx c - start_idx c <= len d ->
  rewritten re [c] (start_idx c) d
  = entry_text c
    ++ (if re && (end_idx c >? start_idx c + 1)
        then skipn (Z.to_nat (end_idx c - 1 - start_idx c)) d
        else d).
Proof.
  intros Hlt Hlen. destruct d as [|u d].
  - unfold len in Hlen. cbn in Hlen. lia.
  - cbn [rewritten inserted removed flat_map existsb].
    rewrite Z.eqb_refl, app_nil_r, orb_false_r.
    rewrite rewritten_past_start by lia. f_equal.
    destruct re; cbn [andb]; [|reflexivity].
    destruct (Z.gtb_spec (end_idx c) (start_idx c + 1)) as [Hbody|Hnone];
      cbn [andb]; [|reflexivity].
    replace (start_idx c <=? start_idx c) with true
      by (symmetry; apply Z.leb_le; lia).
    replace (start_idx c <? end_idx c - 1) with true
      by (symmetry; apply Z.ltb_lt; lia).
    cbn [andb app].
    replace (Z.to_nat (end_idx c - 1 - start_idx c))
      with (S (Z.to_nat (end_idx c - 1 - (start_idx c + 1)))) by lia.
    reflexivity.
Qed.

Lemma inserted_cons (c : cell_entry) (cd : list cell_entry) (q : Z) :
  inserted (c :: cd) q
  = (if start_idx c =? q then entry_text c else []) ++ inserted cd q.
Proof. reflexivity. Qed.

Lemma removed_cons (re : bool) (c : cell_entry) (cd : list cell_entry) (q : Z) :
  removed re (c :: cd) q
  = (re && (end_idx c >? start_idx c + 1)
     && (start_idx c <=? q) && (q <? end_idx c - 1))
    || removed re cd q.
Proof. reflexivity. Qed.

(** Targets that end at or before [b] leave the text from [b] on alone. *)
Lemma idle_from (re : bool) (cd : list cell_entry) (b q : Z) :
  Forall (fun c => start_idx c < end_idx c <= b) cd ->
  b <= q ->
  inserted cd q = [] /\ removed re cd q = false.
Proof.
  intros Hall Hq. induction Hall as [|c cd Hc _ [IHi IHr]].
  - split; reflexivity.
  - rewrite inserted_cons, removed_cons, IHi, IHr. split.
    + destruct (Z.eqb_spec (start_idx c) q); [lia|reflexivity].
    + replace (q <? end_idx c - 1) with false
        by (symmetry; apply Z.ltb_ge; lia).
      now rewrite andb_false_r.
Qed.

(** A target leaves the text before its start alone. *)
Lemma idle_before (re : bool) (c : cell_entry) (cd : list cell_entry) (q : Z) :
  q < start_idx c ->
  inserted (c :: cd) q = inserted cd q
  /\ removed re (c :: cd) q = removed re cd q.
Proof.
  intros Hq. rewrite inserted_cons, removed_cons. split.
  - destruct (Z.eqb_spec (start_idx c) q); [lia|reflexivity].
  - replace (start_idx c <=? q) with false
      by (symmetry; apply Z.leb_gt; lia).
    now rewrite andb_false_r.
Qed.

(** The snapshot rewritten for a target and for targets below it: the
    prefix before the target is rewritten for the lower ones alone. *)
Lemma rewritten_top (re : bool) (c : cell_entry) (cd : list cell_entry)
  (P : str) :
  in_snapshot P c ->
  Forall (fun c' => start_idx c' < end_idx c' <= start_idx c) cd ->
  rewritten re (c :: cd) 0 P
  = rewritten re cd 0 (firstn (Z.to_nat (start_idx c)) P)
    ++ entry_text c ++ kept re c P.
Proof.
  intros (H0 & Hlt & Hlen) Hlow.
  set (n := Z.to_nat (start_idx c)).
  assert (Hn : (n <= length P)%nat) by (unfold len in Hlen; lia).
  assert (Hfn : len (firstn n P) = start_idx c).
  { unfold len. rewrite length_firstn. lia. }
  rewrite <- (firstn_skipn n P) at 1.
  rewrite rewritten_app, Hfn, Z.add_0_l. f_equal.
  - apply rewritten_ext. intros q Hq. apply idle_before. lia.
  - transitivity (rewritten re [c] (start_idx c) (skipn n P)).
    + apply rewritten_ext. intros q Hq.
      destruct (idle_from re cd (start_idx c) q Hlow) as [Hi Hr]; [lia|].
      rewrite inserted_cons, removed_cons, Hi, Hr. split; reflexivity.
    + rewrite rewritten_at_start.
      * f_equal. unfold kept.
        destruct (re && (end_idx c >? start_idx c + 1)) eqn:E; [|reflexivity].
        apply andb_prop in E. destruct E as [_ E]. apply Z.gtb_lt in E.
        rewrite skipn_skipn. f_equal. unfold n. lia.
      * exact Hlt.
      * unfold len. rewrite length_skipn. unfold len in Hlen. lia.
Qed.

(** Requests of targets listed from the highest down, each entirely below
    the one before: applied in that order to a state that begins with the
    snapshot text [P], they turn [P] into its intended text. *)
Lemma apply_descending (re : bool) (cd : list cell_entry) :
  StronglySorted below cd ->
  forall P X : str,
    Forall (in_snapshot P) cd ->
    apply_batch (P ++ X) (flat_map (cell_requests re) cd)
    = Some (rewritten re cd 0 P ++ X).
Proof.
  induction 1 as [|c cd Hsorted IH Hbelow]; intros P X Hin.
  - cbn [flat_map apply_batch]. now rewrite rewritten_nil.
  - inversion Hin as [|? ? Hc Hcd]; subst.
    cbn [flat_map]. rewrite apply_batch_app, apply_group by exact Hc.
    assert (Hlow : Forall (fun c' => start_idx c' < end_idx c' <= start_idx c) cd).
    { rewrite Forall_forall in *. intros c' Hc'.
      specialize (Hbelow c' Hc'). destruct (Hcd c' Hc') as (_ & ? & _).
      unfold below in Hbelow. lia. }
    destruct Hc as (H0 & Hlt & Hlen).
    set (n := Z.to_nat (start_idx c)).
    assert (Hfn : len (firstn n P) = start_idx c).
    { unfold len. rewrite length_firstn. unfold len in Hlen. lia. }
    rewrite IH.
    + rewrite rewritten_top; [|repeat split; assumption|exact Hlow].
      fold n. now rewrite <- !app_assoc.
    + rewrite Forall_forall in *. intros c' Hc'.
      destruct (Hcd c' Hc') as (? & ? & _). specialize (Hlow c' Hc').
      repeat split; try assumption. rewrite Hfn. lia.
Qed.

(** ** Disjoint targets sort into a descending chain *)

Lemma insert_desc_below (d : str) (x : cell_entry) (l : list cell_entry) :
  in_snapshot d x ->
  Forall (in_snapshot d) l ->
  Forall (fun y => overlap x y = false) l ->
  StronglySorted below l ->
  StronglySorted below (insert_desc x l).
Proof.
  intros Hx Hl Hov Hs. induction Hs as [|y l Hs IH Hy]; cbn [insert_desc].
  - repeat constructor.
  - inversion Hl as [|? ? Hyd Hld]; subst.
    inversion Hov as [|? ? Hxy Hxl]; subst.
    destruct Hx as (_ & Hx & _). destruct Hyd as (_ & Hyd & _).
    unfold overlap in Hxy. apply andb_false_iff in Hxy.
    rewrite !Z.ltb_ge in Hxy.
    destruct (Z.leb_spec (start_idx y) (start_idx x)) as [Hle|Hgt].
    + constructor; [constructor; assumption|].
      constructor; [unfold below; lia|].
      rewrite Forall_forall in *. intros z Hz.
      specialize (Hy z Hz). destruct (Hld z Hz) as (_ & Hzd & _).
      unfold below in *. lia.
    + constructor; [apply IH; assumption|].
      rewrite <- insert_desc_perm. constructor; [unfold below; lia|exact Hy].
Qed.

Lemma sort_desc_below (d : str) (cd : list cell_entry) :
  Forall (in_snapshot d) cd ->
  disjoint cd ->
  StronglySorted below (sort_desc cd).
Proof.
  intros Hin Hdis. induction Hdis as [|x cd Hx Hcd IH];
    cbn [sort_desc fold_right]; [constructor|].
  inversion Hin as [|? ? Hxd Hcdd]; subst. fold (sort_desc cd).
  apply (insert_desc_below d); try assumption.
  - rewrite <- sort_desc_perm. exact Hcdd.
  - rewrite <- sort_desc_perm. exact Hx.
  - now apply IH.
Qed.

Lemma disjoint_starts (d : str) (cd : list cell_entry) :
  Forall (in_snapshot d) cd ->
  disjoint cd ->
  NoDup (map start_idx cd).
Proof.
  intros Hin Hdis. induction Hdis as [|x cd Hx Hcd IH]; cbn [map].
  - constructor.
  - inversion Hin as [|? ? Hxd Hcdd]; subst.
    constructor; [|now apply IH].
    intros Hmem. apply in_map_iff in Hmem. destruct Hmem as (y & E & Hy).
    rewrite Forall_forall in Hx, Hcdd.
    specialize (Hx y Hy). destruct (Hcdd y Hy) as (_ & Hyd & _).
    destruct Hxd as (_ & Hxd & _).
    unfold overlap in Hx. apply andb_false_iff in Hx.
    rewrite !Z.ltb_ge in Hx. lia.
Qed.

(** ** The intended text does not depend on the order of the targets *)

Lemma inserted_perm (cd cd' : list cell_entry) (q : Z) :
  Permutation cd cd' ->
  NoDup (map start_idx cd) ->
  inserted cd q = inserted cd' q.
Proof.
  induction 1 as [|x l l' Hp IH|x y l|l l' l'' Hp1 IH1 Hp2 IH2]; intros Hnd.
  - reflexivity.
  - rewrite !inserted_cons. cbn [map] in Hnd.
    inversion Hnd; subst. now rewrite IH.
  - rewrite !inserted_cons. cbn [map] in Hnd.
    inversion Hnd as [|? ? Hnotin _]; subst.
    destruct (Z.eqb_spec (start_idx x) q), (Z.eqb_spec (start_idx y) q);
      try reflexivity.
    exfalso. apply Hnotin. left. congruence.
  - rewrite IH1 by exact Hnd. apply IH2.
    eapply Permutation_NoDup; [|exact Hnd]. now apply Permutation_map.
Qed.

Lemma removed_perm (re : bool) (cd cd' : list cell_entry) (q : Z) :
  Permutation cd cd' -> removed re cd q = removed re cd' q.
Proof.
  intros Hp. unfold removed. apply eq_true_iff_eq.
  rewrite !existsb_exists. split; intros (c & Hc & H); exists c; split;
    try exact H.
  - eapply Permutation_in; eauto.
  - eapply Permutation_in; [apply Permutation_sym|]; eauto.
Qed.

Lemma intended_perm (re : bool) (cd cd' : list cell_entry) (d : str) :
  Permutation cd cd' ->
  NoDup (map start_idx cd) ->
  intended re cd d = intended re cd' d.
Proof.
  intros Hp Hnd. unfold intended. f_equal.
  - apply rewritten_ext. intros q _. split.
    + now apply inserted_perm.
    + now apply removed_perm.
  - now apply inserted_perm.
Qed.

Lemma disjoint_perm (cd cd' : list cell_entry) :
  Permutation cd cd' -> disjoint cd -> disjoint cd'.
Proof.
  unfold disjoint. intros Hp Hd.
  assert (Hsym : forall a b, overlap a b = false -> overlap b a = false).
  { intros a b. unfold overlap. now rewrite andb_comm. }
  induction Hp as [|x l l' Hp IH|x y l|l l' l'' Hp1 IH1 Hp2 IH2].
  - constructor.
  - inversion Hd as [|? ? Hx Hl]; subst. constructor.
    + now rewrite <- Hp.
    + now apply IH.
  - inversion Hd as [|? ? Hy Hxl]; subst.
    inversion Hxl as [|? ? Hx Hl]; subst.
    inversion Hy as [|? ? Hyx Hyl]; subst.
    constructor; [constructor; [now apply Hsym|exact Hx]|].
    constructor; assumption.
  - auto.
Qed.

(** The planner on disjoint targets of the snapshot: its requests, applied
    in order, give the intended text. *)
Lemma plan_intended (re : bool) (cd : list cell_entry) (d : str) :
  Forall (in_snapshot d) cd ->
  disjoint cd ->
  apply_batch d (plan re cd) = Some (intended re cd d).
Proof.
  intros Hin Hdis. rewrite plan_groups.
  pose proof (apply_descending re (sort_desc cd)
                (sort_desc_below d cd Hin Hdis) d []) as H.
  rewrite !app_nil_r in H. rewrite H.
  2:{ rewrite <- sort_desc_perm. exact Hin. }
  f_equal.
  rewrite (intended_perm re cd (sort_desc cd) d (sort_desc_perm cd)
             (disjoint_starts d cd Hin Hdis)).
  unfold intended.
  assert (E : inserted (sort_desc cd) (len d) = []).
  { apply (idle_from re (sort_desc cd) (len d) (len d)); [|lia].
    rewrite <- sort_desc_perm. eapply Forall_impl; [|exact Hin].
    intros c (? & ? & ?). lia. }
  rewrite E, app_nil_r. reflexivity.
Qed.

Lemma inserted_absent (cd : list cell_entry) (q : Z) :
  ~ In q (map start_idx cd) -> inserted cd q = [].
Proof.
  induction cd as [|x cd IH]; intros Hq; [reflexivity|].
  rewrite inserted_cons. cbn [map In] in Hq.
  destruct (Z.eqb_spec (start_idx x) q); [tauto|].
  apply IH. tauto.
Qed.

Lemma inserted_own (cd : list cell_entry) (c : cell_entry) :
  NoDup (map start_idx cd) ->
  In c cd ->
  inserted cd (start_idx c) = entry_text c.
Proof.
  induction cd as [|x cd IH]; intros Hnd Hin; [destruct Hin|].
  cbn [map] in Hnd. inversion Hnd as [|? ? Hnotin Hnd']; subst.
  rewrite inserted_cons. destruct Hin as [->|Hin].
  - rewrite Z.eqb_refl, inserted_absent by exact Hnotin. apply app_nil_r.
  - destruct (Z.eqb_spec (start_idx x) (start_idx c)) as [E|_].
    + exfalso. apply Hnotin. rewrite E. now apply in_map.
    + now apply IH.
Qed.

(** In the intended text, a target's text stands right after the rewritten
    snapshot prefix that ends at the target's start offset. *)
Lemma intended_places (re : bool) (cd : list cell_entry) (d : str)
  (c : cell_entry) :
  Forall (in_snapshot d) cd ->
  disjoint cd ->
  In c cd ->
  exists tail,
    intended re cd d
    = rewritten re cd 0 (firstn (Z.to_nat (start_idx c)) d)
      ++ entry_text c ++ tail.
Proof.
  intros Hin Hdis Hc.
  pose proof (disjoint_starts d cd Hin Hdis) as Hnd.
  rewrite Forall_forall in Hin. destruct (Hin c Hc) as (H0 & Hlt & Hlen).
  set (n := Z.to_nat (start_idx c)).
  assert (Hfn : len (firstn n d) = start_idx c).
  { unfold len. rewrite length_firstn. unfold len in Hlen. lia. }
  unfold intended.
  assert (Hd : rewritten re cd 0 d
               = rewritten re cd 0 (firstn n d ++ skipn n d))
    by now rewrite firstn_skipn.
  rewrite Hd, rewritten_app, Hfn, Z.add_0_l. clear Hd.
  destruct (skipn n d) as [|u rest] eqn:E.
  - exfalso. apply (f_equal (@length _)) in E. rewrite length_skipn in E.
    cbn in E. unfold len in Hlen. lia.
  - cbn [rewritten]. rewrite (inserted_own cd c Hnd Hc).
    eexists. rewrite <- !app_assoc. reflexivity.
Qed.

Lemma collect_inv (doc : Document) (anchor : Z) (cells : list cell_arg)
  (cd : list cell_entry) :
  collect doc anchor cells = Ret cd ->
  Forall (fun cell => exists r, locate_cell doc anchor cell = Ret r) cells
  /\ cd = resolved doc anchor cells.
Proof.
  revert cd. induction cells as [|cell cells IH]; intros cd H.
  - cbn in H. injection H as <-. split; [constructor|reflexivity].
  - cbn [collect] in H. cbn [resolved flat_map].
    fold (resolved doc anchor cells). unfold resolve, locate_cell in *.
    destruct (_get_cell_content_indexes doc anchor (row cell) (column cell))
      as [r|e] eqn:Er; [|discriminate H].
    cbn [bind] in H.
    destruct (collect doc anchor cells) as [cdl|e]; [|discriminate H].
    cbn [bind] in H. destruct (IH cdl eq_refl) as [Hall ->].
    split.
    + constructor; [exists r; exact Er|exact Hall].
    + destruct r as [[s e]|]; injection H as <-; reflexivity.
Qed.

Lemma collect_perm (doc : Document) (anchor : Z) (cells cells' : list cell_arg)
  (cd : list cell_entry) :
  Permutation cells cells' ->
  collect doc anchor cells = Ret cd ->
  exists cd', collect doc anchor cells' = Ret cd' /\ Permutation cd cd'.
Proof.
  intros Hp Hc. apply collect_inv in Hc. destruct Hc as [Hall ->].
  exists (resolved doc anchor cells'). split.
  - apply collect_resolved. now rewrite <- Hp.
  - unfold resolved. now apply Permutation_flat_map.
Qed.

(** C1: when the targets that a call resolves are non-empty, pairwise
    disjoint ranges of the snapshot text, the call submits the planner's
    requests, and these, applied in list order, each against the state the
    earlier ones left, turn the snapshot text into the intended text: every
    target's text stands at the snapshot offset the target names, whatever
    the lengths of the texts; and a call with the same cells in another
    order ends in the same text. *)
Theorem bulk_write_offset_stable (doc : Document) (args : bulk_args)
  (cell_data : list cell_entry) (d : str) :
  collect doc (table_start_index args) (cells args) = Ret cell_data ->
  cell_data <> [] ->
  Forall (in_snapshot d) cell_data ->
  disjoint cell_data ->
  let re := get (replace_existing args) true in
  (exists answer,
      write_table_bulk doc args = Ret (Batch (plan re cell_data) answer))
  /\ apply_batch d (plan re cell_data) = Some (intended re cell_data d)
  /\ (forall c, In c cell_data ->
        exists tail,
          intended re cell_data d
          = rewritten re cell_data 0 (firstn (Z.to_nat (start_idx c)) d)
            ++ entry_text c ++ tail)
  /\ (forall cells', Permutation (cells args) cells' ->
        exists requests answer,
          write_table_bulk doc
            {| document_id := document_id args;
               table_start_index := table_start_index args;
               cells := cells';
               replace_existing := replace_existing args |}
          = Ret (Batch requests answer)
          /\ apply_batch d requests = Some (intended re cell_data d)).
Proof.
  intros Hc Hne Hin Hdis re. split; [|split; [|split]].
  - eexists. now apply bulk_of_collected.
  - now apply plan_intended.
  - intros c. now apply intended_places.
  - intros cells' Hp.
    destruct (collect_perm doc _ _ _ _ Hp Hc) as (cd' & Hc' & Hpcd).
    assert (Hne' : cd' <> []).
    { intros ->. apply Permutation_sym, Permutation_nil in Hpcd. contradiction. }
    exists (plan re cd'), (wrote (length cd')). split.
    + apply (bulk_of_collected doc
               {| document_id := document_id args;
                  table_start_index := table_start_index args;
                  cells := cells';
                  replace_existing := replace_existing args |} cd' Hc' Hne').
    + rewrite plan_intended.
      * f_equal. symmetry. apply intended_perm; [exact Hpcd|].
        now apply (disjoint_starts d).
      * now rewrite <- Hpcd.
      * now apply (disjoint_perm cell_data).
Qed.

Lemma bulk_write_offset_stable_witness :
  let cells := [ {| row := 0; column := 0; text := lit "X" |};
                 {| row := 1; column := 0; text := lit "YYYYYYYY" |};
                 {| row := 1; column := 1; text := lit "Z" |} ] in
  apply_batch Samples.text22
    (plan true (resolved Samples.doc22 5 cells))
  = Some (lit ".......X|.beta|..YYYYYYYY|.Z|...").
Proof.
  cbv zeta.
  refine (eq_trans (proj1 (proj2 (bulk_write_offset_stable Samples.doc22
            (Samples.bulk [ {| row := 0; column := 0; text := lit "X" |};
                            {| row := 1; column := 0; text := lit "YYYYYYYY" |};
                            {| row := 1; column := 1; text := lit "Z" |} ])
            _ Samples.text22 eq_refl _ _ _))) _).
  - discriminate.
  - repeat constructor; vm_compute; congruence.
  - repeat constructor.
  - vm_compute. reflexivity.
Defined.

(** * The A1 range parser *)

Import Sheets.

(** ** Characters *)

Ltac each_char c :=
  destruct c as [[] [] [] [] [] [] [] []]; vm_compute; try reflexivity;
  try discriminate; try tauto.

Lemma letter_not_digit (c : ascii) : is_letter c = true -> is_digit c = false.
Proof. each_char c. Qed.

Lemma letter_not_colon (c : ascii) :
  is_letter c = true -> Ascii.eqb c colon = false.
Proof. each_char c. Qed.

Lemma letter_not_newline (c : ascii) :
  is_letter c = true -> Ascii.eqb c newline = false.
Proof. each_char c. Qed.

Lemma digit_not_letter (c : ascii) : is_digit c = true -> is_letter c = false.
Proof. each_char c. Qed.

Lemma digit_not_colon (c : ascii) :
  is_digit c = true -> Ascii.eqb c colon = false.
Proof. each_char c. Qed.

Lemma digit_not_newline (c : ascii) :
  is_digit c = true -> Ascii.eqb c newline = false.
Proof. each_char c. Qed.

Lemma upper_char_idem (c : ascii) : upper_char (upper_char c) = upper_char c.
Proof. each_char c. Qed.

Lemma upper_char_bang (c : ascii) :
  Ascii.eqb (upper_char c) bang = Ascii.eqb c bang.
Proof. each_char c. Qed.

Lemma upper_char_letter (c : ascii) : is_letter c = true -> upper_char c = c.
Proof. each_char c. Qed.

Lemma upper_char_digit (c : ascii) : is_digit c = true -> upper_char c = c.
Proof. each_char c. Qed.

Lemma letter_value (c : ascii) :
  is_letter c = true -> 1 <= ord c - ord "A" + 1 <= 26.
Proof.
  unfold is_letter. rewrite andb_true_iff, !Z.leb_le.
  change (ord "A") with 65. lia.
Qed.

Lemma upper_idem (s : str) : upper (upper s) = upper s.
Proof.
  unfold upper. rewrite map_map. apply map_ext. apply upper_char_idem.
Qed.

(** ** Starred classes *)

Lemma take_drop (p : ascii -> bool) (s : str) :
  take_while p s ++ drop_while p s = s.
Proof.
  induction s as [|c s IH]; [reflexivity|]. cbn.
  destruct (p c); [cbn; now rewrite IH|reflexivity].
Qed.

Lemma take_all (p : ascii -> bool) (s : str) :
  forallb p (take_while p s) = true.
Proof.
  induction s as [|c s IH]; [reflexivity|]. cbn.
  destruct (p c) eqn:E; [cbn; now rewrite E|reflexivity].
Qed.

Lemma drop_app (p : ascii -> bool) (l r : str) :
  forallb p l = true -> drop_while p (l ++ r) = drop_while p r.
Proof.
  induction l as [|c l IH]; [reflexivity|]. cbn.
  intros H. apply andb_prop in H. destruct H as [-> H]. now apply IH.
Qed.

Lemma drop_halts (p : ascii -> bool) (s : str) :
  halts p s = true -> drop_while p s = s.
Proof.
  destruct s as [|c s]; [reflexivity|]. cbn.
  now destruct (p c).
Qed.

Lemma take_halts (p : ascii -> bool) (s : str) :
  halts p s = true -> take_while p s = [].
Proof.
  destruct s as [|c s]; [reflexivity|]. cbn.
  now destruct (p c).
Qed.

Lemma take_app (p : ascii -> bool) (l r : str) :
  forallb p l = true -> halts p r = true -> take_while p (l ++ r) = l.
Proof.
  intros Hl Hr. induction l as [|c l IH]; cbn.
  - now apply take_halts.
  - cbn in Hl. apply andb_prop in Hl. destruct Hl as [-> Hl].
    now rewrite IH.
Qed.

Lemma drop_app_halts (p : ascii -> bool) (l r : str) :
  forallb p l = true -> halts p r = true -> drop_while p (l ++ r) = r.
Proof.
  intros Hl Hr. rewrite drop_app by exact Hl. now apply drop_halts.
Qed.

Lemma drop_idem (p : ascii -> bool) (s : str) :
  drop_while p (drop_while p s) = drop_while p s.
Proof.
  induction s as [|c s IH]; [reflexivity|]. cbn.
  destruct (p c) eqn:E; [exact IH|]. cbn. now rewrite E.
Qed.

(** ** Taking all it can is enough *)

Lemma end_row_to_end_col (s : str) :
  end_row_ok s = true -> end_col_ok s = true.
Proof.
  unfold end_col_ok. destruct s as [|c s]; [trivial|].
  cbn [drop_while]. destruct (is_letter c) eqn:E; [|trivial].
  unfold end_row_ok. cbn [drop_while].
  rewrite (letter_not_digit c E). cbn [at_end].
  rewrite (letter_not_newline c E). destruct s; discriminate.
Qed.

Lemma end_col_to_colon (s : str) : end_col_ok s = true -> colon_ok s = true.
Proof.
  unfold colon_ok. destruct s as [|c s]; [trivial|].
  cbn [drop_colon]. destruct (Ascii.eqb c colon) eqn:E; [|trivial].
  apply Ascii.eqb_eq in E. subst c.
  unfold end_col_ok, end_row_ok. cbn. destruct s; discriminate.
Qed.

Lemma colon_to_start_row (s : str) :
  colon_ok s = true -> start_row_ok s = true.
Proof.
  unfold start_row_ok. destruct s as [|c s]; [trivial|].
  cbn [drop_while]. destruct (is_digit c) eqn:E; [|trivial].
  unfold colon_ok at 1. cbn [drop_colon]. rewrite (digit_not_colon c E).
  unfold end_col_ok at 1. cbn [drop_while]. rewrite (digit_not_letter c E).
  intros H. apply end_col_to_colon, end_row_to_end_col.
  unfold end_row_ok in *. cbn [drop_while] in H. rewrite E in H.
  now rewrite drop_idem.
Qed.

Lemma start_row_to_start_col (s : str) :
  start_row_ok s = true -> start_col_ok s = true.
Proof.
  unfold start_col_ok. destruct s as [|c s]; [trivial|].
  cbn [drop_while]. destruct (is_letter c) eqn:E; [|trivial].
  unfold start_row_ok at 1. cbn [drop_while]. rewrite (letter_not_digit c E).
  unfold colon_ok at 1. cbn [drop_colon]. rewrite (letter_not_colon c E).
  unfold end_col_ok at 1. cbn [drop_while]. rewrite E.
  intros H.
  now apply colon_to_start_row, end_col_to_colon, end_row_to_end_col.
Qed.

Lemma re_match_stages (s : str) :
  re_match s <> None <-> start_col_ok s = true.
Proof.
  unfold re_match, start_col_ok, start_row_ok, colon_ok, end_col_ok, end_row_ok.
  destruct (at_end _); split; congruence.
Qed.

Lemma re_match_complete (s : str) : grid_pattern s -> re_match s <> None.
Proof.
  intros (c1 & r1 & sep & c2 & r2 & nl & -> & H1 & H2 & Hsep & H3 & H4 & Hnl).
  apply re_match_stages.
  assert (E5 : end_row_ok (r2 ++ nl) = true).
  { unfold end_row_ok. rewrite drop_app by exact H4.
    destruct Hnl as [->| ->]; reflexivity. }
  assert (E4 : end_col_ok (c2 ++ r2 ++ nl) = true).
  { unfold end_col_ok. rewrite drop_app by exact H3.
    now apply end_row_to_end_col. }
  assert (E3 : colon_ok (sep ++ c2 ++ r2 ++ nl) = true).
  { destruct Hsep as [->| ->].
    - now apply end_col_to_colon.
    - exact E4. }
  assert (E2 : start_row_ok (r1 ++ sep ++ c2 ++ r2 ++ nl) = true).
  { unfold start_row_ok. rewrite drop_app by exact H2.
    now apply colon_to_start_row. }
  unfold start_col_ok. rewrite drop_app by exact H1.
  now apply start_row_to_start_col.
Qed.

Lemma drop_colon_sep (s : str) :
  exists sep, (sep = [] \/ sep = [colon]) /\ s = sep ++ drop_colon s.
Proof.
  destruct s as [|c s]; [exists []; auto|]. cbn.
  destruct (Ascii.eqb c colon) eqn:E.
  - apply Ascii.eqb_eq in E. subst. exists [colon]. auto.
  - exists []. auto.
Qed.

Lemma at_end_nl (s : str) : at_end s = true -> s = [] \/ s = [newline].
Proof.
  destruct s as [|c [|c' s]]; cbn; intros H; auto; [|discriminate].
  apply Ascii.eqb_eq in H. subst. auto.
Qed.

Lemma re_match_sound (s : str) (c1 r1 c2 r2 : str) :
  re_match s = Some (c1, r1, c2, r2) ->
  forallb is_letter c1 = true /\ forallb is_digit r1 = true /\
  forallb is_letter c2 = true /\ forallb is_digit r2 = true /\
  exists sep nl,
    (sep = [] \/ sep = [colon]) /\ (nl = [] \/ nl = [newline]) /\
    s = c1 ++ r1 ++ sep ++ c2 ++ r2 ++ nl.
Proof.
  unfold re_match.
  set (s1 := drop_while is_letter s).
  set (s2 := drop_while is_digit s1).
  set (s3 := drop_colon s2).
  set (s4 := drop_while is_letter s3).
  set (s5 := drop_while is_digit s4).
  destruct (at_end s5) eqn:E; [|discriminate].
  intros H. injection H as <- <- <- <-.
  repeat (split; [apply take_all|]).
  destruct (drop_colon_sep s2) as (sep & Hsep & Es2).
  exists sep, s5. split; [exact Hsep|]. split; [now apply at_end_nl|].
  fold s3 in Es2.
  rewrite <- (take_drop is_letter s) at 1. fold s1. f_equal.
  rewrite <- (take_drop is_digit s1) at 1. fold s2. f_equal.
  rewrite Es2 at 1. f_equal.
  rewrite <- (take_drop is_letter s3) at 1. fold s4. f_equal.
  rewrite <- (take_drop is_digit s4) at 1. reflexivity.
Qed.

Lemma re_match_grid (s : str) : re_match s <> None <-> grid_pattern s.
Proof.
  split; [|apply re_match_complete].
  destruct (re_match s) as [[[[c1 r1] c2] r2]|] eqn:E; [|congruence].
  intros _. apply re_match_sound in E.
  destruct E as (H1 & H2 & H3 & H4 & sep & nl & Hsep & Hnl & ->).
  exists c1, r1, sep, c2, r2, nl. auto 10.
Qed.

Lemma take_whole (p : ascii -> bool) (l : str) :
  forallb p l = true -> take_while p l = l.
Proof.
  intros H. rewrite <- (app_nil_r l) at 1. now apply take_app.
Qed.

Lemma drop_whole (p : ascii -> bool) (l : str) :
  forallb p l = true -> drop_while p l = [].
Proof.
  intros H. rewrite <- (app_nil_r l). now apply drop_app_halts.
Qed.

Lemma halts_after (p q : ascii -> bool) (l r : str) :
  (forall c, q c = true -> p c = false) ->
  forallb q l = true ->
  halts p r = true ->
  halts p (l ++ r) = true.
Proof.
  intros Hpq Hl Hr. destruct l as [|c l]; [exact Hr|].
  cbn in *. apply andb_prop in Hl. destruct Hl as [Hc _].
  now rewrite (Hpq c Hc).
Qed.

Lemma re_match_two_tokens (c1 r1 c2 r2 : str) :
  forallb is_letter c1 = true -> forallb is_digit r1 = true ->
  forallb is_letter c2 = true -> forallb is_digit r2 = true ->
  re_match (c1 ++ r1 ++ colon :: c2 ++ r2) = Some (c1, r1, c2, r2).
Proof.
  intros H1 H2 H3 H4. unfold re_match.
  assert (Ha : halts is_letter (r1 ++ colon :: c2 ++ r2) = true).
  { apply (halts_after _ is_digit); auto using digit_not_letter. }
  assert (Hb : halts is_digit (colon :: c2 ++ r2) = true) by reflexivity.
  assert (Hc : halts is_letter r2 = true).
  { rewrite <- (app_nil_r r2).
    apply (halts_after _ is_digit); auto using digit_not_letter. }
  rewrite take_app, drop_app_halts by assumption.
  rewrite take_app, drop_app_halts by assumption.
  cbn [drop_colon]. change (Ascii.eqb colon colon) with true. cbv iota.
  rewrite take_app, drop_app_halts by assumption.
  rewrite (take_whole is_digit r2), (drop_whole is_digit r2) by assumption.
  reflexivity.
Qed.


(** ** Numbers *)

Lemma column_number_snoc (col : str) (c : ascii) :
  column_number (col ++ [c])
  = column_number col * 26 + (ord c - ord "A" + 1).
Proof. unfold column_number. rewrite rev_app_distr. reflexivity. Qed.

Lemma row_number_snoc (digits : str) (c : ascii) :
  row_number (digits ++ [c]) = row_number digits * 10 + (ord c - ord "0").
Proof. unfold row_number. rewrite rev_app_distr. reflexivity. Qed.

Lemma fold_column_number (col : str) :
  fold_left (fun result char => result * 26 + (ord char - ord "A" + 1)) col 0
  = column_number col.
Proof.
  induction col as [|c col IH] using rev_ind; [reflexivity|].
  rewrite fold_left_app, column_number_snoc. cbn [fold_left]. now rewrite IH.
Qed.

Lemma fold_row_number (digits : str) :
  fold_left (fun n c => n * 10 + (ord c - ord "0")) digits 0
  = row_number digits.
Proof.
  induction digits as [|c digits IH] using rev_ind; [reflexivity|].
  rewrite fold_left_app, row_number_snoc. cbn [fold_left]. now rewrite IH.
Qed.

Lemma col_to_index_number (col : str) :
  col <> [] -> col_to_index col = Some (column_number col - 1).
Proof.
  destruct col as [|c col]; [congruence|]. intros _.
  unfold col_to_index. now rewrite fold_column_number.
Qed.

Lemma int_number (digits : str) :
  digits <> [] -> forallb is_digit digits = true ->
  len digits <= int_max_str_digits ->
  int digits = Ret (row_number digits).
Proof.
  destruct digits as [|c digits]; [congruence|]. intros _ H Hlen.
  unfold int. rewrite H.
  destruct (Z.gtb_spec (len (c :: digits)) int_max_str_digits); [lia|].
  now rewrite fold_row_number.
Qed.

Lemma long_nonempty (digits : str) :
  len digits > int_max_str_digits -> nonempty digits = true.
Proof.
  destruct digits; [|reflexivity].
  unfold len, int_max_str_digits. cbn. lia.
Qed.

Lemma int_too_long (digits : str) :
  forallb is_digit digits = true -> len digits > int_max_str_digits ->
  int digits = Raise (ValueError (too_many_digits (len digits))).
Proof.
  intros H Hlen. pose proof (long_nonempty digits Hlen) as Hne.
  destruct digits as [|c digits]; [discriminate Hne|].
  unfold int. rewrite H.
  destruct (Z.gtb_spec (len (c :: digits)) int_max_str_digits);
    [reflexivity|lia].
Qed.

Lemma nonempty_true (s : str) : nonempty s = true -> s <> [].
Proof. destruct s; [discriminate|congruence]. Qed.

Lemma fill_expected (sheet_id : Z) (c1 r1 c2 r2 : str) :
  forallb is_digit r1 = true -> forallb is_digit r2 = true ->
  len r1 <= int_max_str_digits -> len r2 <= int_max_str_digits ->
  fill sheet_id (c1, r1, c2, r2) = Ret (expected sheet_id c1 r1 c2 r2).
Proof.
  intros H2 H4 L2 L4. unfold fill, expected.
  destruct (nonempty c1) eqn:E1, (nonempty c2) eqn:E3;
    try (rewrite (col_to_index_number c1) by (now apply nonempty_true));
    try (rewrite (col_to_index_number c2) by (now apply nonempty_true));
    cbn [plus_one bind];
    destruct (nonempty r1) eqn:E2, (nonempty r2) eqn:E4;
    try (rewrite (int_number r1) by (try apply nonempty_true; assumption));
    try (rewrite (int_number r2) by (try apply nonempty_true; assumption));
    cbn [bind];
    unfold set_startColumnIndex, set_endColumnIndex, set_startRowIndex,
      set_endRowIndex; cbn;
    repeat match goal with
      | |- context [?x - 1 + 1] => replace (x - 1 + 1) with x by lia
      end;
    reflexivity.
Qed.

(** The row number that [int] refuses: the start row when it is too long,
    the end row otherwise. *)
Lemma fill_too_long (sheet_id : Z) (c1 r1 c2 r2 : str) :
  forallb is_digit r1 = true -> forallb is_digit r2 = true ->
  len r1 > int_max_str_digits \/ len r2 > int_max_str_digits ->
  fill sheet_id (c1, r1, c2, r2)
  = Raise (ValueError (too_many_digits
             (if len r1 >? int_max_str_digits then len r1 else len r2))).
Proof.
  intros H2 H4 Hlong. unfold fill.
  destruct (nonempty c1) eqn:E1, (nonempty c2) eqn:E3;
    try (rewrite (col_to_index_number c1) by (now apply nonempty_true));
    try (rewrite (col_to_index_number c2) by (now apply nonempty_true));
    cbn [plus_one bind];
    destruct (Z.gtb_spec (len r1) int_max_str_digits) as [L|L];
    try (rewrite (long_nonempty r1) by lia;
         rewrite (int_too_long r1) by (assumption || lia);
         reflexivity);
    (assert (L4 : len r2 > int_max_str_digits) by lia);
    destruct (nonempty r1) eqn:E2;
    try (rewrite (int_number r1) by (try apply nonempty_true; assumption));
    cbn [bind];
    rewrite (long_nonempty r2) by lia;
    rewrite (int_too_long r2) by (assumption || lia);
    reflexivity.
Qed.

Lemma fill_returns (sheet_id : Z) (c1 r1 c2 r2 : str) (g : GridRange) :
  forallb is_digit r1 = true -> forallb is_digit r2 = true ->
  fill sheet_id (c1, r1, c2, r2) = Ret g ->
  g = expected sheet_id c1 r1 c2 r2
  /\ len r1 <= int_max_str_digits /\ len r2 <= int_max_str_digits.
Proof.
  intros H2 H4 E.
  destruct (Z_le_gt_dec (len r1) int_max_str_digits) as [L2|L2];
    [destruct (Z_le_gt_dec (len r2) int_max_str_digits) as [L4|L4]|].
  - rewrite fill_expected in E by assumption. injection E as <-. auto.
  - rewrite fill_too_long in E by auto. discriminate E.
  - rewrite fill_too_long in E by auto. discriminate E.
Qed.

(** ** Digits in a row *)

Lemma halts_drop (p : ascii -> bool) (s : str) :
  halts p (drop_while p s) = true.
Proof.
  induction s as [|c s IH]; [reflexivity|]. cbn [drop_while].
  destruct (p c) eqn:E; [exact IH|]. cbn [halts]. now rewrite E.
Qed.

Lemma prefix_take (p : ascii -> bool) (d b : str) :
  forallb p d = true -> len d <= len (take_while p (d ++ b)).
Proof.
  induction d as [|c d IH]; intros H.
  - apply len_nonneg.
  - cbn in H. apply andb_prop in H. destruct H as [Hc H].
    cbn [app take_while]. rewrite Hc, !len_cons. specialize (IH H). lia.
Qed.

Lemma piece_past_others (p : ascii -> bool) (x s d : str) :
  forallb (fun c => negb (p c)) x = true ->
  d <> [] -> forallb p d = true ->
  piece_of d (x ++ s) -> piece_of d s.
Proof.
  induction x as [|c x IH]; intros Hx Hd Hp (a & b & E); [now exists a, b|].
  cbn in Hx. apply andb_prop in Hx. destruct Hx as [Hc Hx].
  apply IH; try assumption.
  destruct a as [|c' a].
  - destruct d as [|c' d]; [congruence|]. cbn in E. injection E as <- _.
    cbn in Hp. apply andb_prop in Hp. destruct Hp as [Hp _].
    rewrite Hp in Hc. discriminate Hc.
  - cbn in E. injection E as _ E. now exists a, b.
Qed.

Lemma piece_in_run (p : ascii -> bool) (r s d : str) :
  forallb p r = true -> halts p s = true ->
  forallb p d = true -> piece_of d (r ++ s) ->
  len d <= len r \/ piece_of d s.
Proof.
  induction r as [|c r IH]; intros Hr Hs Hp (a & b & E);
    [right; now exists a, b|].
  destruct a as [|c' a].
  - left. pose proof (prefix_take p d b Hp) as H.
    change ([] ++ d ++ b) with (d ++ b) in E. rewrite <- E in H.
    now rewrite take_app in H by assumption.
  - cbn in E. injection E as _ E.
    cbn in Hr. apply andb_prop in Hr. destruct Hr as [_ Hr].
    destruct (IH Hr Hs Hp (ex_intro _ a (ex_intro _ b E))) as [H|H];
      [left|now right].
    rewrite len_cons. lia.
Qed.

Lemma no_piece_of_nil (d : str) : d <> [] -> ~ piece_of d [].
Proof.
  intros Hd (a & b & E). symmetry in E.
  apply app_eq_nil in E. destruct E as [_ E].
  apply app_eq_nil in E. destruct E as [E _]. contradiction.
Qed.

Lemma letters_no_digits (x : str) :
  forallb is_letter x = true ->
  forallb (fun c => negb (is_digit c)) x = true.
Proof.
  induction x as [|c x IH]; [reflexivity|]. cbn. intros H.
  apply andb_prop in H. destruct H as [Hc H].
  now rewrite (letter_not_digit c Hc), IH.
Qed.

Lemma long_is_some (d : str) : len d > int_max_str_digits -> d <> [].
Proof. intros H E. subst d. unfold len, int_max_str_digits in H. cbn in H. lia. Qed.

(** The digits that the match hands to [int] are the runs of digits of the
    text: a run of digits lies in the start row or in the end row. *)
Lemma match_digit_runs (s c1 r1 c2 r2 d : str) :
  re_match s = Some (c1, r1, c2, r2) ->
  d <> [] -> forallb is_digit d = true -> piece_of d s ->
  len d <= len r1 \/ len d <= len r2.
Proof.
  unfold re_match. intros H Hd Hp Hpiece.
  set (s1 := drop_while is_letter s) in *.
  set (s2 := drop_while is_digit s1) in *.
  set (s3 := drop_colon s2) in *.
  set (s4 := drop_while is_letter s3) in *.
  set (s5 := drop_while is_digit s4) in *.
  destruct (at_end s5) eqn:Eend; [|discriminate H].
  injection H as <- <- <- <-.
  rewrite <- (take_drop is_letter s) in Hpiece. fold s1 in Hpiece.
  apply (piece_past_others is_digit) in Hpiece;
    [|apply letters_no_digits, take_all|assumption|assumption].
  rewrite <- (take_drop is_digit s1) in Hpiece. fold s2 in Hpiece.
  apply (piece_in_run is_digit) in Hpiece;
    [|apply take_all|apply halts_drop|assumption].
  destruct Hpiece as [Hlen|Hpiece]; [now left|right].
  destruct (drop_colon_sep s2) as (sep & Hsep & E2). fold s3 in E2.
  rewrite E2 in Hpiece.
  apply (piece_past_others is_digit) in Hpiece;
    [|destruct Hsep as [->| ->]; reflexivity|assumption|assumption].
  rewrite <- (take_drop is_letter s3) in Hpiece. fold s4 in Hpiece.
  apply (piece_past_others is_digit) in Hpiece;
    [|apply letters_no_digits, take_all|assumption|assumption].
  rewrite <- (take_drop is_digit s4) in Hpiece. fold s5 in Hpiece.
  apply (piece_in_run is_digit) in Hpiece;
    [|apply take_all|apply halts_drop|assumption].
  destruct Hpiece as [Hlen|Hpiece]; [exact Hlen|exfalso].
  apply at_end_nl in Eend. destruct Eend as [E|E]; rewrite E in Hpiece.
  - now apply (no_piece_of_nil d).
  - apply (no_piece_of_nil d Hd).
    apply (piece_past_others is_digit [newline] [] d);
      [reflexivity|assumption|assumption|exact Hpiece].
Qed.

Lemma short_no_long_row (s : str) :
  len s <= int_max_str_digits -> ~ long_row s.
Proof.
  intros Hs (d & (before & after & ->) & _ & Hlen).
  rewrite !len_app in Hs.
  pose proof (len_nonneg before). pose proof (len_nonneg after). lia.
Qed.

Lemma match_long_row (s c1 r1 c2 r2 : str) :
  re_match s = Some (c1, r1, c2, r2) ->
  long_row s
  <-> len r1 > int_max_str_digits \/ len r2 > int_max_str_digits.
Proof.
  intros H. split.
  - intros (d & Hpiece & Hp & Hlen).
    destruct (match_digit_runs s c1 r1 c2 r2 d H (long_is_some d Hlen)
                Hp Hpiece); [left|right]; lia.
  - apply re_match_sound in H.
    destruct H as (_ & H2 & _ & H4 & sep & nl & _ & _ & ->).
    intros [L|L].
    + exists r1. split; [|auto]. now exists c1, (sep ++ c2 ++ r2 ++ nl).
    + exists r2. split; [|auto]. exists (c1 ++ r1 ++ sep ++ c2), nl.
      now rewrite <- !app_assoc.
Qed.

(** ** The sheet name *)

Lemma getitem_second {A : Type} (a b : A) (l : list A) :
  getitem (a :: b :: l) 1 = Ret b.
Proof.
  unfold getitem, wrap. cbn [Z.ltb Z.compare].
  rewrite !len_cons. pose proof (len_nonneg l).
  replace (1 <? len l + 1 + 1) with true by (symmetry; apply Z.ltb_lt; lia).
  reflexivity.
Qed.

Lemma split_first (s : str) :
  exists pieces, split bang s = until_bang s :: pieces.
Proof.
  induction s as [|c s (pieces & IH)]; cbn [split until_bang];
    [now exists []|].
  destruct (Ascii.eqb c bang); [now eexists|].
  rewrite IH. now eexists.
Qed.

Lemma split_second (s : str) :
  contains bang s = true ->
  exists first pieces, split bang s = first :: stripped s :: pieces.
Proof.
  induction s as [|c s IH]; [discriminate|].
  unfold contains in *. cbn [existsb split stripped].
  rewrite (Ascii.eqb_sym bang c).
  destruct (Ascii.eqb c bang); cbn [orb].
  - intros _. destruct (split_first s) as (pieces & ->). now eexists; eexists.
  - intros H. destruct (IH H) as (first & pieces & ->). now eexists; eexists.
Qed.

Lemma without_sheet_stripped (t : str) :
  without_sheet t = Ret (sheet_stripped t).
Proof.
  unfold without_sheet, sheet_stripped.
  destruct (contains bang t) eqn:E; [|reflexivity].
  destruct (split_second t E) as (first & pieces & ->).
  apply getitem_second.
Qed.

Lemma parse_unfold (t : str) (sheet_id : Z) :
  _parse_a1_range t sheet_id
  = match re_match (upper (sheet_stripped t)) with
    | None => Raise (ValueError (lit "Invalid A1 notation: " ++ sheet_stripped t))
    | Some groups => fill sheet_id groups
    end.
Proof. unfold _parse_a1_range. now rewrite without_sheet_stripped. Qed.

Lemma contains_upper (s : str) : contains bang (upper s) = contains bang s.
Proof.
  unfold contains, upper.
  induction s as [|c s IH]; [reflexivity|]. cbn [map existsb].
  rewrite IH. f_equal.
  rewrite (Ascii.eqb_sym bang), (Ascii.eqb_sym bang c). apply upper_char_bang.
Qed.

Lemma until_bang_upper (s : str) : until_bang (upper s) = upper (until_bang s).
Proof.
  unfold upper.
  induction s as [|c s IH]; [reflexivity|]. cbn [map until_bang].
  rewrite upper_char_bang. destruct (Ascii.eqb c bang); [reflexivity|].
  cbn [map]. now rewrite <- IH.
Qed.

Lemma stripped_upper (s : str) : stripped (upper s) = upper (stripped s).
Proof.
  induction s as [|c s IH]; [reflexivity|].
  change (upper (c :: s)) with (upper_char c :: upper s). cbn [stripped].
  rewrite upper_char_bang. destruct (Ascii.eqb c bang).
  - apply until_bang_upper.
  - exact IH.
Qed.

Lemma sheet_stripped_upper (s : str) :
  sheet_stripped (upper s) = upper (sheet_stripped s).
Proof.
  unfold sheet_stripped. rewrite contains_upper.
  destruct (contains bang s); [apply stripped_upper|reflexivity].
Qed.

Lemma until_bang_plain (s : str) : contains bang s = false -> until_bang s = s.
Proof.
  unfold contains.
  induction s as [|c s IH]; [reflexivity|]. cbn [existsb until_bang].
  rewrite (Ascii.eqb_sym bang c). destruct (Ascii.eqb c bang); [discriminate|].
  cbn [orb]. intros H. now rewrite IH.
Qed.

Lemma sheet_stripped_plain (s : str) :
  contains bang s = false -> sheet_stripped s = s.
Proof. unfold sheet_stripped. now intros ->. Qed.

Lemma sheet_stripped_named (name body : str) :
  contains bang name = false -> contains bang body = false ->
  sheet_stripped (name ++ bang :: body) = body.
Proof.
  intros Hn Hb. unfold sheet_stripped.
  replace (contains bang (name ++ bang :: body)) with true.
  2:{ unfold contains. rewrite existsb_app. cbn [existsb].
      rewrite Ascii.eqb_refl. cbn [orb]. now rewrite orb_true_r. }
  unfold contains in Hn.
  induction name as [|c name IH]; cbn [app stripped].
  - rewrite Ascii.eqb_refl. now apply until_bang_plain.
  - cbn [existsb] in Hn. rewrite (Ascii.eqb_sym bang c) in Hn.
    destruct (Ascii.eqb c bang); [discriminate|]. now apply IH.
Qed.

Lemma no_bang (p : ascii -> bool) (s : str) :
  (forall c, p c = true -> Ascii.eqb bang c = false) ->
  forallb p s = true -> contains bang s = false.
Proof.
  intros Hp. unfold contains.
  induction s as [|c s IH]; [reflexivity|]. cbn [forallb existsb].
  intros H. apply andb_prop in H. destruct H as [Hc Hs].
  now rewrite (Hp c Hc), IH.
Qed.

Lemma letter_not_bang (c : ascii) :
  is_letter c = true -> Ascii.eqb bang c = false.
Proof. each_char c. Qed.

Lemma digit_not_bang (c : ascii) :
  is_digit c = true -> Ascii.eqb bang c = false.
Proof. each_char c. Qed.

Lemma contains_app (c : ascii) (l r : str) :
  contains c (l ++ r) = contains c l || contains c r.
Proof. unfold contains. apply existsb_app. Qed.

Lemma two_tokens_no_bang (c1 r1 c2 r2 : str) :
  forallb is_letter c1 = true -> forallb is_digit r1 = true ->
  forallb is_letter c2 = true -> forallb is_digit r2 = true ->
  contains bang (c1 ++ r1 ++ colon :: c2 ++ r2) = false.
Proof.
  intros H1 H2 H3 H4.
  change (colon :: c2 ++ r2) with ([colon] ++ c2 ++ r2).
  rewrite !contains_app.
  rewrite (no_bang is_letter c1 letter_not_bang H1).
  rewrite (no_bang is_digit r1 digit_not_bang H2).
  rewrite (no_bang is_letter c2 letter_not_bang H3).
  rewrite (no_bang is_digit r2 digit_not_bang H4).
  reflexivity.
Qed.







(** ** When the parser fails *)

Lemma parse_raises_iff (t : str) (sheet_id : Z) :
  raises (_parse_a1_range t sheet_id)
  <-> re_match (upper (sheet_stripped t)) = None
      \/ long_row (upper (sheet_stripped t)).
Proof.
  rewrite parse_unfold.
  destruct (re_match (upper (sheet_stripped t)))
    as [[[[c1 r1] c2] r2]|] eqn:E.
  - rewrite (match_long_row _ _ _ _ _ E).
    apply re_match_sound in E. destruct E as (_ & H2 & _ & H4 & _).
    split.
    + intros (e & He). right.
      destruct (Z_le_gt_dec (len r1) int_max_str_digits) as [L2|L2];
        [|now left].
      destruct (Z_le_gt_dec (len r2) int_max_str_digits) as [L4|L4];
        [|now right].
      rewrite fill_expected in He by assumption. discriminate He.
    + intros [H|H]; [discriminate H|].
      rewrite fill_too_long by assumption. eexists. reflexivity.
  - split; [now left|]. intros _. eexists. reflexivity.
Qed.

(** What the parser raises: the error that quotes the text when the match
    fails, the error of [int] when a row number is too long. *)
Lemma parse_error (t : str) (sheet_id : Z) (e : exn) :
  _parse_a1_range t sheet_id = Raise e ->
  (re_match (upper (sheet_stripped t)) = None
   /\ e = ValueError (lit "Invalid A1 notation: " ++ sheet_stripped t))
  \/ (re_match (upper (sheet_stripped t)) <> None
      /\ exists n, n > int_max_str_digits
                   /\ e = ValueError (too_many_digits n)).
Proof.
  rewrite parse_unfold.
  destruct (re_match (upper (sheet_stripped t)))
    as [[[[c1 r1] c2] r2]|] eqn:E.
  - intros He. right. split; [discriminate|].
    apply re_match_sound in E. destruct E as (_ & H2 & _ & H4 & _).
    destruct (Z_le_gt_dec (len r1) int_max_str_digits) as [L2|L2];
      [destruct (Z_le_gt_dec (len r2) int_max_str_digits) as [L4|L4]|].
    + rewrite fill_expected in He by assumption. discriminate He.
    + rewrite fill_too_long in He by auto. injection He as <-.
      destruct (Z.gtb_spec (len r1) int_max_str_digits); [lia|].
      exists (len r2). auto.
    + rewrite fill_too_long in He by auto. injection He as <-.
      destruct (Z.gtb_spec (len r1) int_max_str_digits); [|lia].
      exists (len r1). auto.
  - intros He. left. split; [reflexivity|congruence].
Qed.

(** ** The accepted forms *)

Lemma split_some (sep : ascii) (s : str) : split sep s <> [].
Proof.
  destruct s as [|c s]; cbn [split]; [discriminate|].
  destruct (Ascii.eqb c sep); [discriminate|].
  destruct (split sep s); discriminate.
Qed.

Lemma split_single (sep : ascii) (s a : str) : split sep s = [a] -> s = a.
Proof.
  revert a. induction s as [|c s IH]; intros a; cbn [split].
  - intros H. now injection H as <-.
  - destruct (Ascii.eqb c sep).
    + intros H. injection H as _ H. now apply split_some in H.
    + destruct (split sep s) as [|piece pieces] eqn:E.
      * now apply split_some in E.
      * intros H. injection H as <- ->. now rewrite (IH piece eq_refl).
Qed.

Lemma split_pair (sep : ascii) (s a b : str) :
  split sep s = [a; b] -> s = a ++ sep :: b.
Proof.
  revert a. induction s as [|c s IH]; intros a; cbn [split];
    [discriminate|].
  destruct (Ascii.eqb_spec c sep) as [->|_].
  - intros H. injection H as <- H. now rewrite (split_single sep s b H).
  - destruct (split sep s) as [|piece pieces] eqn:E.
    + now apply split_some in E.
    + intros H. injection H as <- ->. now rewrite (IH piece eq_refl).
Qed.

Lemma is_cell_tokens (s : str) :
  is_cell s = true ->
  exists col row,
    s = col ++ row /\ forallb is_letter col = true
    /\ forallb is_digit row = true.
Proof.
  unfold is_cell, is_row. intros H.
  apply andb_prop in H. destruct H as [_ H].
  apply andb_prop in H. destruct H as [_ H].
  exists (take_while is_letter s), (drop_while is_letter s).
  split; [symmetry; apply take_drop|]. split; [apply take_all|exact H].
Qed.

Lemma prefix_stripped_named (name body : str) :
  contains bang name = false ->
  prefix_stripped (name ++ bang :: body) = body.
Proof.
  intros Hn. unfold prefix_stripped.
  replace (contains bang (name ++ bang :: body)) with true.
  2:{ unfold contains. rewrite existsb_app. cbn [existsb].
      rewrite Ascii.eqb_refl. cbn [orb]. now rewrite orb_true_r. }
  unfold contains in Hn.
  induction name as [|c name IH]; cbn [app after_bang].
  - now rewrite Ascii.eqb_refl.
  - cbn [existsb] in Hn. rewrite (Ascii.eqb_sym bang c) in Hn.
    destruct (Ascii.eqb c bang); [discriminate|]. now apply IH.
Qed.

(** The accepted forms are texts of the pattern. *)
Lemma accepted_in_pattern (s : str) :
  accepted_form s = true -> grid_pattern s.
Proof.
  unfold accepted_form.
  destruct (split colon s) as [|a [|b [|c more]]] eqn:E; try discriminate.
  - apply split_single in E. subst a. intros H.
    destruct (is_cell_tokens s H) as (col & row & -> & Hc & Hr).
    exists col, row, [], [], [], [].
    rewrite !app_nil_r. repeat split; auto.
  - apply split_pair in E. subst s. intros H.
    apply orb_prop in H. destruct H as [H|H];
      [apply orb_prop in H; destruct H as [H|H]|];
      apply andb_prop in H; destruct H as [Ha Hb].
    + destruct (is_cell_tokens a Ha) as (c1 & r1 & -> & H1 & H2).
      destruct (is_cell_tokens b Hb) as (c2 & r2 & -> & H3 & H4).
      exists c1, r1, [colon], c2, r2, [].
      rewrite !app_nil_r, <- !app_assoc. repeat split; auto.
    + unfold is_column in Ha, Hb.
      apply andb_prop in Ha. destruct Ha as [_ Ha].
      apply andb_prop in Hb. destruct Hb as [_ Hb].
      exists a, [], [colon], b, [], [].
      rewrite !app_nil_r. repeat split; auto.
    + unfold is_row in Ha, Hb.
      apply andb_prop in Ha. destruct Ha as [_ Ha].
      apply andb_prop in Hb. destruct Hb as [_ Hb].
      exists [], a, [colon], [], b, [].
      rewrite !app_nil_r. repeat split; auto.
Qed.

(** C7, as the code has it: the parser raises exactly when the piece of
    the text that it reads (the text between the first bang and the next,
    the whole text when it has no bang), upper-cased, is outside the
    pattern or holds more than 4300 digits in a row.  Outside the pattern
    the error is the [ValueError] that quotes the piece; otherwise it is
    the [ValueError] of [int] for a row number that is too long.  The
    piece read is what follows the sheet name when the text has one bang
    at most.  The pattern is two tokens of column letters and row digits around an
    optional colon, any part possibly missing, and its end anchor allows
    one final newline: the four accepted forms are in it, and parse when
    their row numbers are within the limit, but it is wider than they are.
    Bounds are not compared: "D10:A1" and "B2:B1" parse, to ranges whose
    end precedes or meets the start. *)
Theorem parse_fails_iff_no_match :
  (forall t sheet_id,
      raises (_parse_a1_range t sheet_id)
      <-> ~ grid_pattern (upper (sheet_stripped t))
          \/ long_row (upper (sheet_stripped t)))
  /\ (forall t sheet_id e,
         _parse_a1_range t sheet_id = Raise e ->
         (~ grid_pattern (upper (sheet_stripped t))
          /\ e = ValueError (lit "Invalid A1 notation: " ++ sheet_stripped t))
         \/ (grid_pattern (upper (sheet_stripped t))
             /\ exists n, n > int_max_str_digits
                          /\ e = ValueError (too_many_digits n)))
  /\ (forall t, contains bang t = false ->
                sheet_stripped t = t /\ prefix_stripped t = t)
  /\ (forall name body,
         contains bang name = false -> contains bang body = false ->
         sheet_stripped (name ++ bang :: body) = body
         /\ prefix_stripped (name ++ bang :: body) = body)
  /\ (forall s, accepted_form s = true -> grid_pattern s)
  /\ (forall t sheet_id,
         accepted_form (upper (sheet_stripped t)) = true ->
         ~ long_row (upper (sheet_stripped t)) ->
         exists g, _parse_a1_range t sheet_id = Ret g)
  /\ (forall sheet_id,
         _parse_a1_range (lit "D10:A1") sheet_id
         = Ret {| sheetId := sheet_id;
                  startRowIndex := Some 9; endRowIndex := Some 1;
                  startColumnIndex := Some 3; endColumnIndex := Some 1 |})
  /\ (forall sheet_id,
         _parse_a1_range (lit "B2:B1") sheet_id
         = Ret {| sheetId := sheet_id;
                  startRowIndex := Some 1; endRowIndex := Some 1;
                  startColumnIndex := Some 1; endColumnIndex := Some 2 |}).
Proof.
  assert (Hiff : forall t sheet_id,
             raises (_parse_a1_range t sheet_id)
             <-> ~ grid_pattern (upper (sheet_stripped t))
                 \/ long_row (upper (sheet_stripped t))).
  { intros t sheet_id. rewrite parse_raises_iff, <- re_match_grid.
    destruct (re_match (upper (sheet_stripped t))); split;
      intros [H|H]; auto; try discriminate H.
    exfalso. apply H. discriminate. }
  split; [exact Hiff|].
  split; [|split; [|split; [|split; [exact accepted_in_pattern|
                                     split; [|split; reflexivity]]]]].
  - intros t sheet_id e H. rewrite <- re_match_grid.
    destruct (parse_error t sheet_id e H) as [(Hm & He)|(Hm & He)].
    + left. split; [|exact He]. intros Hsome. now apply Hsome.
    + right. split; assumption.
  - intros t Ht. unfold prefix_stripped.
    rewrite (sheet_stripped_plain t Ht), Ht. split; reflexivity.
  - intros name body Hn Hb.
    split; [now apply sheet_stripped_named|now apply prefix_stripped_named].
  - intros t sheet_id Ha Hshort.
    destruct (_parse_a1_range t sheet_id) as [g|e] eqn:E; [now exists g|].
    exfalso.
    assert (Hr : raises (_parse_a1_range t sheet_id))
      by (exists e; exact E).
    apply Hiff in Hr. destruct Hr as [Hr|Hr]; [|now apply Hshort].
    apply Hr. now apply accepted_in_pattern.
Qed.

Lemma parse_fails_iff_no_match_witness :
  (exists g, _parse_a1_range (lit "Sheet1!b2:c30") 0 = Ret g)
  /\ grid_pattern (lit "B2:C30").
Proof.
  split.
  - refine (proj1 (proj2 (proj2 (proj2 (proj2 (proj2
              parse_fails_iff_no_match)))))
              (lit "Sheet1!b2:c30") 0 eq_refl _).
    apply short_no_long_row. vm_compute. discriminate.
  - apply (proj1 (proj2 (proj2 (proj2 (proj2 parse_fails_iff_no_match))))
             (lit "B2:C30")).
    reflexivity.
Defined.

(** C7 as worded fails, both ways.  Every part of the pattern is optional:
    the empty text, ":", "1A" and "A:5" are none of the accepted forms, and
    parse.  Of "Sheet1!A1!junk" the parser reads "A1" alone, though what
    follows the sheet name is no accepted form; of a quoted sheet name that
    holds a bang it reads what follows that bang, and refuses the text
    though the cell "A1" follows the name.  A cell with a row number of
    4301 digits is an accepted form, and is refused. *)
Lemma parse_beyond_accepted_forms :
  (accepted_form [] = false
   /\ _parse_a1_range [] 0
      = Ret {| sheetId := 0; startRowIndex := None; endRowIndex := None;
               startColumnIndex := None; endColumnIndex := None |})
  /\ (accepted_form (lit ":") = false
      /\ _parse_a1_range (lit ":") 0
         = Ret {| sheetId := 0; startRowIndex := None; endRowIndex := None;
                  startColumnIndex := None; endColumnIndex := None |})
  /\ (accepted_form (lit "1A") = false
      /\ _parse_a1_range (lit "1A") 0
         = Ret {| sheetId := 0;
                  startRowIndex := Some 0; endRowIndex := Some 1;
                  startColumnIndex := None; endColumnIndex := Some 1 |})
  /\ (accepted_form (lit "A:5") = false
      /\ _parse_a1_range (lit "A:5") 0
         = Ret {| sheetId := 0;
                  startRowIndex := None; endRowIndex := Some 5;
                  startColumnIndex := Some 0; endColumnIndex := Some 1 |})
  /\ (prefix_stripped (lit "Sheet1!A1!junk") = lit "A1!junk"
      /\ accepted_form (upper (lit "A1!junk")) = false
      /\ _parse_a1_range (lit "Sheet1!A1!junk") 0
         = Ret {| sheetId := 0;
                  startRowIndex := Some 0; endRowIndex := Some 1;
                  startColumnIndex := Some 0; endColumnIndex := Some 1 |})
  /\ (accepted_form (lit "A1") = true
      /\ _parse_a1_range (lit "'My!Sheet'!A1") 0
         = Raise (ValueError (lit "Invalid A1 notation: Sheet'")))
  /\ (prefix_stripped Samples.long_cell = Samples.long_cell
      /\ accepted_form (upper Samples.long_cell) = true
      /\ raises (_parse_a1_range Samples.long_cell 0)).
Proof.
  repeat split; try (vm_compute; reflexivity).
  eexists. vm_compute. reflexivity.
Qed.

(** ** Letter case *)

Lemma parse_upper (t : str) (sheet_id : Z) :
  _parse_a1_range (upper t) sheet_id
  = match re_match (upper (sheet_stripped t)) with
    | None =>
        Raise (ValueError (lit "Invalid A1 notation: "
                           ++ upper (sheet_stripped t)))
    | Some groups => fill sheet_id groups
    end.
Proof.
  rewrite parse_unfold, sheet_stripped_upper, upper_idem. reflexivity.
Qed.

(** C10: a text and its upper-cased form parse alike: each returns a grid
    range exactly when the other does, and then the same one; each raises
    exactly when the other does.  "a1:d10" parses as "A1:D10". *)
Theorem parse_case_insensitive (t : str) (sheet_id : Z) :
  (forall g, _parse_a1_range t sheet_id = Ret g
             <-> _parse_a1_range (upper t) sheet_id = Ret g)
  /\ (raises (_parse_a1_range t sheet_id)
      <-> raises (_parse_a1_range (upper t) sheet_id))
  /\ _parse_a1_range (lit "a1:d10") sheet_id
     = _parse_a1_range (lit "A1:D10") sheet_id
  /\ _parse_a1_range (lit "a1:d10") sheet_id
     = Ret {| sheetId := sheet_id;
              startRowIndex := Some 0; endRowIndex := Some 10;
              startColumnIndex := Some 0; endColumnIndex := Some 4 |}.
Proof.
  rewrite parse_upper, parse_unfold.
  destruct (re_match (upper (sheet_stripped t))) as [groups|].
  - repeat split; auto.
  - repeat split; try discriminate; intros _; eexists; reflexivity.
Qed.

(** * Further properties *)

Import DocsCell.

(** ** The locator and [_get_table_info] *)

Lemma find_table_head (content : list Element) (a : Z) :
  find_table content a
  = hd_error (flat_map (fun element =>
                          match table_at element a with
                          | Some t => [t]
                          | None => []
                          end) content).
Proof.
  induction content as [|element rest IH]; [reflexivity|].
  cbn [find_table flat_map]. destruct (table_at element a); [reflexivity|].
  exact IH.
Qed.

Lemma table_info_head (doc : Document) (a : Z) :
  _get_table_info doc a = hd_error (tables_at doc a).
Proof. apply find_table_head. Qed.

(** X1: the table that [_get_table_info] reports is the one the locator
    reads first: a range found in it, or an exception raised on it, is the
    locator's result.  When [_get_table_info] reports none, the locator
    answers NotFound for every row and column and raises nothing. *)
Theorem locate_follows_table_info (doc : Document) (anchor : Z) :
  (_get_table_info doc anchor = None ->
   forall r c, _get_cell_content_indexes doc anchor r c = Ret NotFound)
  /\ (forall t r c s e,
         _get_table_info doc anchor = Some t ->
         in_table t r c = Ret (Some (s, e)) ->
         _get_cell_content_indexes doc anchor r c = Ret (Some (s, e)))
  /\ (forall t r c x,
         _get_table_info doc anchor = Some t ->
         in_table t r c = Raise x ->
         _get_cell_content_indexes doc anchor r c = Raise x).
Proof.
  rewrite table_info_head. split; [|split].
  - intros H r c. apply locate_none.
    destruct (tables_at doc anchor); [constructor|discriminate H].
  - intros t r c s e H Hin.
    destruct (tables_at doc anchor) as [|t' rest] eqn:E; [discriminate H|].
    injection H as ->. eapply locate_first; eauto.
  - intros t r c x H Hin.
    destruct (tables_at doc anchor) as [|t' rest] eqn:E; [discriminate H|].
    injection H as ->. eapply locate_first_raises; eauto.
Qed.

Lemma locate_follows_table_info_witness :
  (forall r c, _get_cell_content_indexes Samples.doc22 6 r c = Ret NotFound)
  /\ _get_cell_content_indexes Samples.doc22 5 0 1 = Ret (Some (13, 18)).
Proof.
  split.
  - apply (proj1 (locate_follows_table_info Samples.doc22 6)). reflexivity.
  - apply (proj1 (proj2 (locate_follows_table_info Samples.doc22 5))
             Samples.table22); reflexivity.
Defined.

Lemma in_table_shape_raises (rows columns : Z) (t : Table) (r c : Z) :
  has_shape rows columns t ->
  (r < - rows \/ (- rows <= r < rows /\ c < - columns) ->
   in_table t r c = Raise IndexError)
  /\ (~ (r < - rows \/ (- rows <= r < rows /\ c < - columns)) ->
      exists x, in_table t r c = Ret x).
Proof.
  intros (rs & Hrs & Hlen & Hcols). unfold in_table.
  rewrite Hrs. cbn [get item bind]. rewrite Hlen.
  pose proof (len_nonneg rs) as Hn. rewrite Hlen in Hn.
  destruct (Z.ltb_spec r rows) as [Hr|Hr].
  2:{ split; [lia|]. intros _. now eexists. }
  destruct (Z_lt_ge_dec r (- rows)) as [Hlow|Hok].
  - split; [|intros H; exfalso; apply H; now left].
    intros _. rewrite getitem_too_low by lia. reflexivity.
  - destruct (getitem_in_range rs r) as (row & Hget & Hnth); [lia|].
    rewrite Hget. cbn [bind]. apply nth_error_In in Hnth.
    rewrite Forall_forall in Hcols. destruct (Hcols row Hnth) as (cs & Hcs & Hk).
    rewrite Hcs. cbn [get item bind]. rewrite Hk.
    pose proof (len_nonneg cs) as Hm. rewrite Hk in Hm.
    destruct (Z.ltb_spec c columns) as [Hc|Hc].
    2:{ split; [lia|]. intros _. now eexists. }
    destruct (Z_lt_ge_dec c (- columns)) as [Hclow|Hcok].
    + split; [|intros H; exfalso; apply H; right; lia].
      intros _. rewrite getitem_too_low by lia. reflexivity.
    + split; [lia|]. intros _.
      destruct (getitem_in_range cs c) as (cell & Hgc & _); [lia|].
      rewrite Hgc. cbn [bind]. now eexists.
Qed.

(** X2: on a document whose tables at the anchor have [rows] rows of
    [columns] cells, the locator raises exactly when the row index is below
    [- rows], or the row index selects a row and the column index is below
    [- columns]; what it raises is [IndexError]. *)
Theorem locate_raises_iff (doc : Document) (anchor rows columns r c : Z) :
  tables_at doc anchor <> [] ->
  Forall (has_shape rows columns) (tables_at doc anchor) ->
  (raises (_get_cell_content_indexes doc anchor r c)
   <-> r < - rows \/ (- rows <= r < rows /\ c < - columns))
  /\ (forall x, _get_cell_content_indexes doc anchor r c = Raise x ->
                x = IndexError).
Proof.
  intros Hne Hshape.
  destruct (Z_lt_ge_dec r (- rows)) as [Hlow|Hok];
    [|destruct (Z_lt_ge_dec r rows) as [Hr|Hr];
      [destruct (Z_lt_ge_dec c (- columns)) as [Hc|Hc]|]].
  1,2: destruct (tables_at doc anchor) as [|t rest] eqn:E; [contradiction|];
       inversion Hshape as [|? ? Ht _]; subst;
       assert (Hraise : _get_cell_content_indexes doc anchor r c
                        = Raise IndexError)
         by (eapply locate_first_raises; [exact E|];
             apply (proj1 (in_table_shape_raises rows columns t r c Ht)); lia);
       rewrite Hraise; split;
         [split; [intros _; lia|intros _; now exists IndexError]
         |intros x Hx; congruence].
  all: assert (Hret : exists x, _get_cell_content_indexes doc anchor r c = Ret x)
         by (unfold _get_cell_content_indexes; rewrite scan_tables;
             fold (tables_at doc anchor);
             clear Hne; induction Hshape as [|t ts Ht _ IH];
               [now eexists|];
             destruct (proj2 (in_table_shape_raises rows columns t r c Ht))
               as (x & Hx); [lia|];
             rewrite Hx; cbn [bind]; destruct x as [[s e]|];
               [now eexists|exact IH]);
       destruct Hret as (x & Hx); rewrite Hx; split;
         [split; [intros (e & He); discriminate He|lia]
         |intros y Hy; discriminate Hy].
Qed.

Lemma locate_raises_iff_witness :
  (raises (_get_cell_content_indexes Samples.doc22 5 1 (-3))
   <-> 1 < - 2 \/ (- 2 <= 1 < 2 /\ -3 < - 2))
  /\ (forall x, _get_cell_content_indexes Samples.doc22 5 1 (-3) = Raise x ->
                x = IndexError).
Proof.
  apply (locate_raises_iff Samples.doc22 5 2 2 1 (-3)).
  - discriminate.
  - repeat constructor. exact table22_shape.
Defined.

(** X3: a missing key is an error only under a negative index.  A table
    element without [tableRows] is passed over for a row index of 0 or more
    and raises [KeyError] for a negative one; a selected row without
    [tableCells] is passed over for a column index of 0 or more and raises
    [KeyError] for a negative one. *)
Theorem locate_missing_key (doc : Document) (anchor : Z) (t : Table)
  (rest : list Table) (r c : Z) :
  tables_at doc anchor = t :: rest ->
  (tableRows t = None ->
   (r < 0 ->
    _get_cell_content_indexes doc anchor r c = Raise (KeyError (lit "tableRows")))
   /\ (0 <= r -> in_table t r c = Ret None)
   /\ (0 <= r -> rest = [] ->
       _get_cell_content_indexes doc anchor r c = Ret NotFound))
  /\ (forall rows row,
         tableRows t = Some rows ->
         - len rows <= r < len rows ->
         nth_error rows (Z.to_nat (wrap (len rows) r)) = Some row ->
         tableCells row = None ->
         (c < 0 ->
          _get_cell_content_indexes doc anchor r c
          = Raise (KeyError (lit "tableCells")))
         /\ (0 <= c -> in_table t r c = Ret None)
         /\ (0 <= c -> rest = [] ->
             _get_cell_content_indexes doc anchor r c = Ret NotFound)).
Proof.
  intros Ht. split.
  - intros Hnone.
    assert (Hneg : r < 0 -> in_table t r c = Raise (KeyError (lit "tableRows"))).
    { intros Hr. unfold in_table. rewrite Hnone. cbn [get].
      change (len (@nil TableRow)) with 0.
      destruct (Z.ltb_spec r 0); [reflexivity|lia]. }
    assert (Hpos : 0 <= r -> in_table t r c = Ret None).
    { intros Hr. unfold in_table. rewrite Hnone. cbn [get].
      change (len (@nil TableRow)) with 0.
      destruct (Z.ltb_spec r 0); [lia|reflexivity]. }
    split; [|split].
    + intros Hr. eapply locate_first_raises; eauto.
    + exact Hpos.
    + intros Hr ->. apply locate_none. rewrite Ht. repeat constructor. auto.
  - intros rows row Hrows Hr Hnth Hcells.
    destruct (getitem_in_range rows r Hr) as (row' & Hget & Hnth').
    assert (row' = row) by congruence. subst row'.
    assert (Hneg : c < 0 ->
                   in_table t r c = Raise (KeyError (lit "tableCells"))).
    { intros Hc. unfold in_table. rewrite Hrows. cbn [get item bind].
      destruct (Z.ltb_spec r (len rows)); [|lia].
      rewrite Hget. cbn [bind]. rewrite Hcells. cbn [get].
      change (len (@nil TableCell)) with 0.
      destruct (Z.ltb_spec c 0); [reflexivity|lia]. }
    assert (Hpos : 0 <= c -> in_table t r c = Ret None).
    { intros Hc. unfold in_table. rewrite Hrows. cbn [get item bind].
      destruct (Z.ltb_spec r (len rows)); [|lia].
      rewrite Hget. cbn [bind]. rewrite Hcells. cbn [get].
      change (len (@nil TableCell)) with 0.
      destruct (Z.ltb_spec c 0); [lia|reflexivity]. }
    split; [|split].
    + intros Hc. eapply locate_first_raises; eauto.
    + exact Hpos.
    + intros Hc ->. apply locate_none. rewrite Ht. repeat constructor. auto.
Qed.

Lemma locate_missing_key_witness :
  _get_cell_content_indexes doc_no_rows 5 (-1) 0
  = Raise (KeyError (lit "tableRows"))
  /\ _get_cell_content_indexes doc_no_rows 5 0 0 = Ret NotFound
  /\ _get_cell_content_indexes doc_no_cells 5 0 (-1)
     = Raise (KeyError (lit "tableCells"))
  /\ _get_cell_content_indexes doc_no_cells 5 0 0 = Ret NotFound.
Proof.
  split; [|split; [|split]].
  - apply (proj1 (proj1 (locate_missing_key doc_no_rows 5 table_no_rows []
                           (-1) 0 eq_refl) eq_refl)). lia.
  - apply (proj2 (proj2 (proj1 (locate_missing_key doc_no_rows 5 table_no_rows
                                  [] 0 0 eq_refl) eq_refl))); [lia|reflexivity].
  - refine (proj1 (proj2 (locate_missing_key doc_no_cells 5
                            (Samples.table_of [row_no_cells]) [] 0 (-1) eq_refl)
                     [row_no_cells] row_no_cells eq_refl _ eq_refl eq_refl) _).
    + unfold len. simpl. lia.
    + lia.
  - refine (proj2 (proj2 (proj2 (locate_missing_key doc_no_cells 5
                            (Samples.table_of [row_no_cells]) [] 0 0 eq_refl)
                     [row_no_cells] row_no_cells eq_refl _ eq_refl eq_refl)) _ _).
    + unfold len. simpl. lia.
    + lia.
    + reflexivity.
Defined.

Lemma getitem_inv {A : Type} (l : list A) (i : Z) (a : A) :
  getitem l i = Ret a ->
  - len l <= i < len l
  /\ nth_error l (Z.to_nat (wrap (len l) i)) = Some a.
Proof.
  unfold getitem. pose proof (len_nonneg l).
  destruct ((0 <=? wrap (len l) i) && (wrap (len l) i <? len l)) eqn:E;
    [|discriminate].
  apply andb_prop in E. destruct E as [E1 E2].
  apply Z.leb_le in E1. apply Z.ltb_lt in E2.
  destruct (nth_error l (Z.to_nat (wrap (len l) i))) as [b|] eqn:En;
    [|discriminate].
  intros H'. injection H' as ->. split; [|reflexivity].
  unfold wrap in E1, E2. destruct (Z.ltb_spec i 0); lia.
Qed.

Lemma in_table_inv (t : Table) (r c : Z) (x : Z * Z) :
  in_table t r c = Ret (Some x) ->
  exists rows row cells cell,
    tableRows t = Some rows
    /\ - len rows <= r < len rows
    /\ nth_error rows (Z.to_nat (wrap (len rows) r)) = Some row
    /\ tableCells row = Some cells
    /\ - len cells <= c < len cells
    /\ nth_error cells (Z.to_nat (wrap (len cells) c)) = Some cell
    /\ cell_range cell = Some x.
Proof.
  unfold in_table. destruct (tableRows t) as [rows|] eqn:Hrows; cbn [get].
  2:{ destruct (r <? len (@nil TableRow)); discriminate. }
  destruct (r <? len rows); [|discriminate]. cbn [item bind].
  destruct (getitem rows r) as [row|] eqn:Hrow; [|discriminate]. cbn [bind].
  destruct (tableCells row) as [cells|] eqn:Hcells; cbn [get].
  2:{ destruct (c <? len (@nil TableCell)); discriminate. }
  destruct (c <? len cells); [|discriminate]. cbn [item bind].
  destruct (getitem cells c) as [cell|] eqn:Hcell; [|discriminate]. cbn [bind].
  intros H. injection H as H.
  apply getitem_inv in Hrow. apply getitem_inv in Hcell.
  exists rows, row, cells, cell. tauto.
Qed.

(** X4: a range that the locator returns is the content range of a cell of
    a table element that starts at the anchor: the cell that the (possibly
    negative) row and column indexes select there. *)
Theorem locate_sound (doc : Document) (anchor r c s e : Z) :
  _get_cell_content_indexes doc anchor r c = Ret (Some (s, e)) ->
  exists t rows row cells cell,
    In t (tables_at doc anchor)
    /\ tableRows t = Some rows
    /\ - len rows <= r < len rows
    /\ nth_error rows (Z.to_nat (wrap (len rows) r)) = Some row
    /\ tableCells row = Some cells
    /\ - len cells <= c < len cells
    /\ nth_error cells (Z.to_nat (wrap (len cells) c)) = Some cell
    /\ cell_range cell = Some (s, e).
Proof.
  unfold _get_cell_content_indexes. rewrite scan_tables.
  fold (tables_at doc anchor).
  induction (tables_at doc anchor) as [|t ts IH]; [discriminate|].
  destruct (in_table t r c) as [[[s' e']|]|x] eqn:Hin; cbn [bind].
  - intros H. injection H as -> ->.
    destruct (in_table_inv t r c _ Hin) as (rows & row & cells & cell & H).
    exists t, rows, row, cells, cell. split; [now left|exact H].
  - intros H. destruct (IH H) as (t' & rows & row & cells & cell & Ht & H').
    exists t', rows, row, cells, cell. split; [now right|exact H'].
  - discriminate.
Qed.

Lemma locate_sound_witness :
  exists t rows row cells cell,
    In t (tables_at Samples.doc22 5)
    /\ tableRows t = Some rows
    /\ - len rows <= -1 < len rows
    /\ nth_error rows (Z.to_nat (wrap (len rows) (-1))) = Some row
    /\ tableCells row = Some cells
    /\ - len cells <= 0 < len cells
    /\ nth_error cells (Z.to_nat (wrap (len cells) 0)) = Some cell
    /\ cell_range cell = Some (20, 25).
Proof.
  apply (locate_sound Samples.doc22 5 (-1) 0 20 25). reflexivity.
Defined.

(** X5: on a document with one table element at the anchor, a row index
    and a column index within the table select the cell at that row and
    column, and the locator returns that cell's content range: NotFound
    when the cell has no content, and otherwise the start index of its
    first content element and the end index of its last. *)
Theorem locate_in_range (doc : Document) (anchor : Z) (t : Table)
  (rows : list TableRow) (row : TableRow) (cells : list TableCell)
  (cell : TableCell) (r c : Z) :
  tables_at doc anchor = [t] ->
  tableRows t = Some rows ->
  0 <= r -> nth_error rows (Z.to_nat r) = Some row ->
  tableCells row = Some cells ->
  0 <= c -> nth_error cells (Z.to_nat c) = Some cell ->
  _get_cell_content_indexes doc anchor r c = Ret (cell_range cell)
  /\ (get (content cell) [] = [] ->
      _get_cell_content_indexes doc anchor r c = Ret NotFound)
  /\ (forall first more s e,
         content cell = Some (first :: more) ->
         ce_startIndex first = Some s ->
         ce_endIndex (last more first) = Some e ->
         _get_cell_content_indexes doc anchor r c = Ret (Some (s, e))).
Proof.
  intros Ht Hrows Hr Hnr Hcells Hc Hnc.
  assert (Hlr : r < len rows).
  { assert (H : nth_error rows (Z.to_nat r) <> None) by congruence.
    apply nth_error_Some in H. unfold len. lia. }
  assert (Hlc : c < len cells).
  { assert (H : nth_error cells (Z.to_nat c) <> None) by congruence.
    apply nth_error_Some in H. unfold len. lia. }
  assert (Hin : in_table t r c = Ret (cell_range cell)).
  { apply (in_table_resolves t rows row cells cell); try assumption; try lia.
    - unfold wrap. destruct (Z.ltb_spec r 0); [lia|exact Hnr].
    - unfold wrap. destruct (Z.ltb_spec c 0); [lia|exact Hnc]. }
  assert (Hloc : _get_cell_content_indexes doc anchor r c
                 = Ret (cell_range cell)).
  { unfold _get_cell_content_indexes. rewrite scan_tables.
    fold (tables_at doc anchor). rewrite Ht, Hin. cbn [bind].
    destruct (cell_range cell) as [[s e]|]; reflexivity. }
  split; [exact Hloc|]. split.
  - intros Hempty. rewrite Hloc. unfold cell_range. now rewrite Hempty.
  - intros first more s e Hcontent Hs He. rewrite Hloc.
    unfold cell_range. rewrite Hcontent. cbn [get]. rewrite Hs. cbn [get].
    replace (last (first :: more) first) with (last more first).
    + now rewrite He.
    + destruct more; reflexivity.
Qed.

Lemma locate_in_range_witness :
  _get_cell_content_indexes doc_paragraphs 5 0 0 = Ret (Some (7, 31)).
Proof.
  refine (proj2 (proj2 (locate_in_range doc_paragraphs 5 _ _ _ _ _ 0 0
                          eq_refl eq_refl _ eq_refl eq_refl _ eq_refl))
            (Samples.paragraph 7 12)
            [Samples.paragraph 12 20; Samples.paragraph 20 31] 7 31
            eq_refl eq_refl eq_refl); lia.
Defined.

(** ** [write_table_cell] *)

Lemma plan_single (re : bool) (c : cell_entry) :
  plan re [c] = cell_requests re c.
Proof. rewrite plan_groups. cbn. apply app_nil_r. Qed.

(** X6: a call for one cell and the bulk call for that cell alone do the
    same: both submit the same requests when the cell resolves, both answer
    with an error and submit nothing when it does not, and both raise the
    same exception when the lookup raises. *)
Theorem cell_agrees_with_bulk (doc : Document) (args : cell_args) :
  submitted (write_table_cell doc args)
  = submitted (write_table_bulk doc (as_bulk args))
  /\ (write_table_cell doc args = Ret (NoBatch cell_not_found)
      <-> write_table_bulk doc (as_bulk args) = Ret (NoBatch none_found))
  /\ (forall x, write_table_cell doc args = Raise x
                <-> write_table_bulk doc (as_bulk args) = Raise x)
  /\ (_get_cell_content_indexes doc (cell_table_start_index args)
        (row_index args) (column_index args) = Ret NotFound ->
      write_table_cell doc args = Ret (NoBatch cell_not_found)).
Proof.
  unfold write_table_cell, write_table_bulk, as_bulk.
  cbn [cells table_start_index replace_existing collect row column text].
  destruct (_get_cell_content_indexes doc (cell_table_start_index args)
              (row_index args) (column_index args)) as [[[s e]|]|x];
    cbn [bind submitted].
  - rewrite plan_single. unfold cell_requests. cbn [start_idx end_idx entry_text].
    destruct (get (cell_replace_existing args) true && (e >? s + 1));
      repeat split; intros H; try discriminate H.
  - repeat split; intros H; try discriminate H; reflexivity.
  - repeat split; intros H; try discriminate H; exact H.
Qed.

Lemma cell_agrees_with_bulk_witness :
  write_table_cell Samples.doc22
    {| cell_document_id := lit "doc"; cell_table_start_index := 5;
       row_index := 7; column_index := 0; cell_text := lit "x";
       cell_replace_existing := None |}
  = Ret (NoBatch cell_not_found).
Proof.
  apply (proj2 (proj2 (proj2 (cell_agrees_with_bulk Samples.doc22
    {| cell_document_id := lit "doc"; cell_table_start_index := 5;
       row_index := 7; column_index := 0; cell_text := lit "x";
       cell_replace_existing := None |})))).
  reflexivity.
Defined.

(** X7: when the cell resolves to a non-empty range of the snapshot text,
    the requests of [write_table_cell] are accepted and leave the text
    before the cell's start and the text from the cell's last position on
    as they were, whatever the length of the new text: in replace mode the
    new text takes the place of the body, otherwise (and for a cell of one
    position) it is put in front of the body. *)
Theorem write_table_cell_effect (doc : Document) (args : cell_args)
  (s e : Z) (d : str) :
  _get_cell_content_indexes doc (cell_table_start_index args)
    (row_index args) (column_index args) = Ret (Some (s, e)) ->
  0 <= s -> s < e -> e <= len d ->
  exists requests answer body,
    write_table_cell doc args = Ret (Batch requests answer)
    /\ apply_batch d requests
       = Some (firstn (Z.to_nat s) d ++ cell_text args ++ body
               ++ skipn (Z.to_nat (e - 1)) d)
    /\ body = (if get (cell_replace_existing args) true
               then []
               else firstn (Z.to_nat (e - 1 - s)) (skipn (Z.to_nat s) d)).
Proof.
  intros Hloc H0 Hlt Hlen.
  set (c := {| entry_row := row_index args; entry_column := column_index args;
               entry_text := cell_text args; start_idx := s; end_idx := e |}).
  set (re := get (cell_replace_existing args) true).
  assert (Hreq : write_table_cell doc args
                 = Ret (Batch (cell_requests re c)
                          (wrote_cell (row_index args) (column_index args)))).
  { unfold write_table_cell. rewrite Hloc. cbn [bind].
    unfold cell_requests. cbn [start_idx end_idx entry_text c]. fold re.
    destruct (re && (e >? s + 1)); reflexivity. }
  assert (Hc : in_snapshot d c) by (repeat split; assumption).
  pose proof (apply_group re c d [] Hc) as Hrun.
  rewrite !app_nil_r in Hrun. cbn [start_idx entry_text c] in Hrun.
  assert (Hsplit : skipn (Z.to_nat s) d
                   = firstn (Z.to_nat (e - 1 - s)) (skipn (Z.to_nat s) d)
                     ++ skipn (Z.to_nat (e - 1)) d).
  { rewrite <- (firstn_skipn (Z.to_nat (e - 1 - s)) (skipn (Z.to_nat s) d)) at 1.
    f_equal. rewrite skipn_skipn. f_equal. lia. }
  exists (cell_requests re c),
    (wrote_cell (row_index args) (column_index args)),
    (if re then [] else firstn (Z.to_nat (e - 1 - s)) (skipn (Z.to_nat s) d)).
  split; [exact Hreq|]. split; [|reflexivity].
  rewrite Hrun. unfold kept. cbn [start_idx end_idx c].
  destruct re; cbn [andb app].
  - destruct (Z.gtb_spec e (s + 1)) as [Hbody|Hone]; [reflexivity|].
    replace (e - 1) with s by lia. reflexivity.
  - now rewrite <- Hsplit.
Qed.

Lemma write_table_cell_effect_witness :
  exists requests answer body,
    write_table_cell Samples.doc22
      {| cell_document_id := lit "doc"; cell_table_start_index := 5;
         row_index := 1; column_index := 0; cell_text := lit "delta, longer";
         cell_replace_existing := Some true |}
    = Ret (Batch requests answer)
    /\ apply_batch Samples.text22 requests
       = Some (firstn (Z.to_nat 20) Samples.text22 ++ lit "delta, longer"
               ++ body ++ skipn (Z.to_nat (25 - 1)) Samples.text22)
    /\ body = [].
Proof.
  apply (write_table_cell_effect Samples.doc22
    {| cell_document_id := lit "doc"; cell_table_start_index := 5;
       row_index := 1; column_index := 0; cell_text := lit "delta, longer";
       cell_replace_existing := Some true |} 20 25 Samples.text22).
  - reflexivity.
  - lia.
  - lia.
  - vm_compute. discriminate.
Defined.

(** ** More on the planner *)

Lemma sorted_perm_unique (l l' : list cell_entry) :
  StronglySorted starts_strictly_descend l ->
  StronglySorted starts_strictly_descend l' ->
  Permutation l l' ->
  l = l'.
Proof.
  intros Hl. revert l'. induction Hl as [|x l Hl IH Hx]; intros l' Hl' Hp.
  - apply Permutation_nil in Hp. now subst.
  - destruct l' as [|y l']; [apply Permutation_sym, Permutation_nil in Hp;
                             discriminate|].
    inversion Hl' as [|? ? Hl'' Hy]; subst.
    assert (Exy : x = y).
    { assert (Hxin : In x (y :: l'))
        by (eapply Permutation_in; [exact Hp|now left]).
      assert (Hyin : In y (x :: l))
        by (eapply Permutation_in; [apply Permutation_sym; exact Hp|now left]).
      destruct Hxin as [E|Hxin]; [now symmetry|].
      destruct Hyin as [E|Hyin]; [exact E|].
      rewrite Forall_forall in Hx, Hy.
      specialize (Hx y Hyin). specialize (Hy x Hxin).
      unfold starts_strictly_descend in *. lia. }
    subst y. f_equal. apply IH; [assumption|].
    now apply Permutation_cons_inv in Hp.
Qed.

(** X8: when no two targets share a start offset, the request list itself
    does not depend on the order in which the targets are given. *)
Theorem plan_order_independent (re : bool) (cell_data cell_data' : list cell_entry) :
  Permutation cell_data cell_data' ->
  NoDup (map start_idx cell_data) ->
  plan re cell_data = plan re cell_data'.
Proof.
  intros Hp Hnd. rewrite !plan_groups. f_equal.
  apply sorted_perm_unique.
  - apply descend_strictly; [apply sort_desc_sorted|].
    eapply Permutation_NoDup; [|exact Hnd].
    apply Permutation_map, sort_desc_perm.
  - apply descend_strictly; [apply sort_desc_sorted|].
    eapply Permutation_NoDup; [|exact Hnd].
    apply Permutation_map. rewrite <- sort_desc_perm. exact Hp.
  - rewrite <- !sort_desc_perm. exact Hp.
Qed.

Lemma plan_order_independent_witness :
  plan true [Samples.entry 10 14 (lit "a"); Samples.entry 50 54 (lit "b");
             Samples.entry 30 34 (lit "c")]
  = plan true [Samples.entry 30 34 (lit "c"); Samples.entry 10 14 (lit "a");
               Samples.entry 50 54 (lit "b")].
Proof.
  apply plan_order_independent.
  - apply perm_trans with
      [Samples.entry 10 14 (lit "a"); Samples.entry 30 34 (lit "c");
       Samples.entry 50 54 (lit "b")].
    + apply perm_skip, perm_swap.
    + apply perm_swap.
  - cbn. repeat constructor; cbn; intuition discriminate.
Defined.

(** X9: cells given in descending order of their start offsets are planned
    in the order given. *)
Theorem plan_keeps_descending (re : bool) (cell_data : list cell_entry) :
  StronglySorted starts_descend cell_data ->
  sort_desc cell_data = cell_data
  /\ plan re cell_data = flat_map (cell_requests re) cell_data.
Proof.
  intros Hs.
  assert (E : sort_desc cell_data = cell_data).
  { induction Hs as [|x l Hl IH Hx]; [reflexivity|].
    cbn [sort_desc fold_right]. fold (sort_desc l). rewrite IH.
    destruct l as [|y l]; [reflexivity|]. cbn [insert_desc].
    inversion Hx as [|? ? Hxy _]; subst. unfold starts_descend in Hxy.
    destruct (Z.leb_spec (start_idx y) (start_idx x)); [reflexivity|lia]. }
  split; [exact E|]. now rewrite plan_groups, E.
Qed.

Lemma plan_keeps_descending_witness :
  sort_desc [Samples.entry 50 54 []; Samples.entry 30 34 [];
             Samples.entry 30 31 []; Samples.entry 10 14 []]
  = [Samples.entry 50 54 []; Samples.entry 30 34 [];
     Samples.entry 30 31 []; Samples.entry 10 14 []].
Proof.
  refine (proj1 (plan_keeps_descending true _ _)).
  repeat constructor; unfold starts_descend; simpl; lia.
Defined.






Lemma apply_replace_at (P Y t : str) (s e : Z) :
  len P = s -> s < e -> e - s <= len Y ->
  apply_batch (P ++ Y) [deleteContentRange s e; insertText s t]
  = Some (P ++ t ++ skipn (Z.to_nat (e - s)) Y).
Proof.
  intros HP Hlt Hlen. pose proof (len_nonneg P).
  assert (Hn : Z.to_nat s = length P) by (unfold len in HP; lia).
  cbn [apply_batch apply_request].
  replace ((0 <=? s) && (s <? e) && (e <=? len (P ++ Y))) with true.
  2:{ symmetry. rewrite !andb_true_iff, Z.leb_le, Z.ltb_lt, Z.leb_le.
      rewrite len_app. lia. }
  rewrite Hn, firstn_app, firstn_all, Nat.sub_diag, app_nil_r.
  rewrite skipn_app, skipn_all2 by lia. cbn [app].
  replace (Z.to_nat e - length P)%nat with (Z.to_nat (e - s)) by lia.
  set (R := skipn (Z.to_nat (e - s)) Y).
  replace ((0 <=? s) && (s <=? len (P ++ R))) with true.
  2:{ symmetry. rewrite andb_true_iff, !Z.leb_le. rewrite len_app.
      pose proof (len_nonneg R). lia. }
  rewrite firstn_app, firstn_all, Nat.sub_diag, app_nil_r.
  rewrite skipn_app, skipn_all, Nat.sub_diag. reflexivity.
Qed.

(** X11: a cell listed twice is replaced twice against the same stale
    offsets.  The two groups are emitted in the order given; the second
    deletion removes as many characters as the old body had, counted from
    the cell's start in the text the first group left.  When the first new
    text is shorter than the old body, the cell's last position and the
    text after it, up to the missing length, are deleted with it. *)
Theorem repeated_cell_effect (c c' : cell_entry) (d : str) :
  in_snapshot d c ->
  end_idx c > start_idx c + 1 ->
  start_idx c' = start_idx c -> end_idx c' = end_idx c ->
  let body := end_idx c - 1 - start_idx c in
  let rest := skipn (Z.to_nat (end_idx c - 1)) d in
  plan true [c; c'] = cell_requests true c ++ cell_requests true c'
  /\ (body <= len (entry_text c) + len rest ->
      apply_batch d (plan true [c; c'])
      = Some (firstn (Z.to_nat (start_idx c)) d ++ entry_text c'
              ++ skipn (Z.to_nat body) (entry_text c ++ rest)))
  /\ (len (entry_text c) < body ->
      body <= len (entry_text c) + len rest ->
      apply_batch d (plan true [c; c'])
      = Some (firstn (Z.to_nat (start_idx c)) d ++ entry_text c'
              ++ skipn (Z.to_nat (end_idx c - 1 + (body - len (entry_text c))))
                   d)).
Proof.
  intros Hc Hbody Hs He body rest.
  assert (Hplan : plan true [c; c']
                  = cell_requests true c ++ cell_requests true c').
  { rewrite plan_groups. cbn [sort_desc fold_right insert_desc].
    destruct (Z.leb_spec (start_idx c') (start_idx c)); [|lia].
    cbn [flat_map]. now rewrite app_nil_r. }
  assert (Hrun : body <= len (entry_text c) + len rest ->
                 apply_batch d (plan true [c; c'])
                 = Some (firstn (Z.to_nat (start_idx c)) d ++ entry_text c'
                         ++ skipn (Z.to_nat body) (entry_text c ++ rest))).
  { intros Hfit. rewrite Hplan, apply_batch_app.
    pose proof (apply_group true c d [] Hc) as H1.
    rewrite !app_nil_r in H1. rewrite H1. unfold kept. cbn [andb].
    destruct (Z.gtb_spec (end_idx c) (start_idx c + 1)); [|lia].
    fold rest. unfold cell_requests. cbn [andb]. rewrite Hs, He.
    destruct (Z.gtb_spec (end_idx c) (start_idx c + 1)); [|lia].
    cbn [app]. destruct Hc as (Hs0 & _ & Hlen).
    rewrite (apply_replace_at (firstn (Z.to_nat (start_idx c)) d)
               (entry_text c ++ rest) (entry_text c')
               (start_idx c) (end_idx c - 1)).
    - reflexivity.
    - unfold len. rewrite length_firstn. unfold len in Hlen. lia.
    - lia.
    - rewrite len_app. fold body. lia. }
  split; [exact Hplan|]. split; [exact Hrun|].
  intros Hshort Hfit. rewrite (Hrun Hfit). do 3 f_equal.
  rewrite skipn_app.
  rewrite skipn_all2 by (unfold len in Hshort; lia). cbn [app].
  unfold rest. rewrite skipn_skipn. f_equal.
  destruct Hc as (Hs0 & _ & _). unfold len in *. lia.
Qed.

Lemma repeated_cell_effect_witness :
  apply_batch Samples.text22
    (plan true [Samples.entry 7 12 (lit "a"); Samples.entry 7 12 (lit "Z")])
  = Some (lit ".......Zeta|..gama|.|...").
Proof.
  refine (eq_trans
            (proj2 (proj2 (repeated_cell_effect
                             (Samples.entry 7 12 (lit "a"))
                             (Samples.entry 7 12 (lit "Z"))
                             Samples.text22 _ _ eq_refl eq_refl)) _ _) _).
  - repeat split; vm_compute; congruence.
  - simpl. lia.
  - vm_compute. reflexivity.
  - vm_compute. discriminate.
  - vm_compute. reflexivity.
Defined.

(** ** More on the parser *)

Lemma ord_inj (c c' : ascii) : ord c = ord c' -> c = c'.
Proof.
  unfold ord. intros H. apply Nat2Z.inj in H.
  rewrite <- (ascii_nat_embedding c), <- (ascii_nat_embedding c').
  now rewrite H.
Qed.

Lemma base26_letters (l : str) :
  forallb is_letter l = true -> 0 <= base26 l /\ (l <> [] -> 1 <= base26 l).
Proof.
  induction l as [|c l IH]; cbn [forallb base26].
  - intros _. split; [lia|congruence].
  - intros H. apply andb_prop in H. destruct H as [Hc Hl].
    pose proof (letter_value c Hc). destruct (IH Hl) as [IH0 _].
    split; [lia|intros _; lia].
Qed.

Lemma base26_inj (l l' : str) :
  forallb is_letter l = true -> forallb is_letter l' = true ->
  base26 l = base26 l' -> l = l'.
Proof.
  revert l'. induction l as [|c l IH]; intros [|c' l'] Hl Hl' E.
  - reflexivity.
  - destruct (base26_letters _ Hl') as [_ H]. cbn [base26] in E.
    assert (1 <= base26 (c' :: l')) by (apply H; congruence).
    cbn [base26] in *. lia.
  - destruct (base26_letters _ Hl) as [_ H].
    assert (1 <= base26 (c :: l)) by (apply H; congruence).
    cbn [base26] in *. lia.
  - cbn [forallb] in Hl, Hl'. apply andb_prop in Hl, Hl'.
    destruct Hl as [Hc Hl], Hl' as [Hc' Hl']. cbn [base26] in E.
    pose proof (letter_value c Hc). pose proof (letter_value c' Hc').
    assert (base26 l = base26 l' /\ ord c = ord c') as [El Ec] by lia.
    f_equal; [now apply ord_inj|now apply IH].
Qed.

Lemma forallb_rev (p : ascii -> bool) (l : str) :
  forallb p l = true -> forallb p (rev l) = true.
Proof.
  rewrite !forallb_forall. intros H x Hx. apply H. now apply in_rev.
Qed.

(** X12: column names are told apart: two groups of column letters with
    the same index are the same group. *)
Theorem col_to_index_injective (col col' : str) :
  forallb is_letter col = true -> forallb is_letter col' = true ->
  col_to_index col = col_to_index col' ->
  col = col'.
Proof.
  intros H H' E.
  destruct col as [|c l], col' as [|c' l']; try reflexivity;
    try discriminate E.
  unfold col_to_index in E. rewrite !fold_column_number in E.
  injection E as E. unfold column_number in E.
  assert (Erev : rev (c :: l) = rev (c' :: l')).
  { apply base26_inj; [now apply forallb_rev|now apply forallb_rev|lia]. }
  rewrite <- (rev_involutive (c :: l)), <- (rev_involutive (c' :: l')).
  now rewrite Erev.
Qed.

Lemma col_to_index_injective_witness : lit "AZ" = upper (lit "az").
Proof.
  apply (col_to_index_injective (lit "AZ") (upper (lit "az"))); reflexivity.
Defined.

Lemma column_number_pos (col : str) :
  col <> [] -> forallb is_letter col = true -> 1 <= column_number col.
Proof.
  intros Hne H. unfold column_number.
  apply (proj2 (base26_letters (rev col) (forallb_rev _ _ H))).
  intros E. apply Hne. rewrite <- (rev_involutive col), E. reflexivity.
Qed.

Lemma base10_digits (l : str) : forallb is_digit l = true -> 0 <= base10 l.
Proof.
  induction l as [|c l IH]; cbn [forallb base10]; [lia|].
  intros H. apply andb_prop in H. destruct H as [Hc Hl].
  specialize (IH Hl). unfold is_digit in Hc.
  rewrite andb_true_iff, !Z.leb_le in Hc. change (ord "0") with 48. lia.
Qed.

Lemma row_number_nonneg (digits : str) :
  forallb is_digit digits = true -> 0 <= row_number digits.
Proof. intros H. apply base10_digits. now apply forallb_rev. Qed.

Lemma parse_returns (t : str) (sheet_id : Z) (g : GridRange) :
  _parse_a1_range t sheet_id = Ret g ->
  exists c1 r1 c2 r2,
    re_match (upper (sheet_stripped t)) = Some (c1, r1, c2, r2)
    /\ forallb is_letter c1 = true /\ forallb is_digit r1 = true
    /\ forallb is_letter c2 = true /\ forallb is_digit r2 = true
    /\ g = expected sheet_id c1 r1 c2 r2.
Proof.
  rewrite parse_unfold.
  destruct (re_match (upper (sheet_stripped t)))
    as [[[[c1 r1] c2] r2]|] eqn:E; [|discriminate].
  pose proof (re_match_sound _ _ _ _ _ E) as (H1 & H2 & H3 & H4 & _).
  intros H. apply fill_returns in H; [|assumption|assumption].
  destruct H as (-> & _ & _).
  exists c1, r1, c2, r2. auto 10.
Qed.

(** X13: what a returned grid range can be.  It carries the sheet id it
    was given; a start column is 0 or more and a start row -1 or more (row
    number 0 is not refused and gives -1); whenever a start bound is
    present so is the end bound of that axis; an end column is 1 or more
    and an end row 0 or more. *)
Theorem parse_result_bounds (t : str) (sheet_id : Z) (g : GridRange) :
  _parse_a1_range t sheet_id = Ret g ->
  sheetId g = sheet_id
  /\ (forall v, startColumnIndex g = Some v ->
                0 <= v /\ exists w, endColumnIndex g = Some w)
  /\ (forall w, endColumnIndex g = Some w -> 1 <= w)
  /\ (forall v, startRowIndex g = Some v ->
                -1 <= v /\ exists w, endRowIndex g = Some w)
  /\ (forall w, endRowIndex g = Some w -> 0 <= w).
Proof.
  intros H.
  destruct (parse_returns t sheet_id g H)
    as (c1 & r1 & c2 & r2 & _ & H1 & H2 & H3 & H4 & ->).
  unfold expected. cbn [sheetId startColumnIndex endColumnIndex
                        startRowIndex endRowIndex].
  pose proof (row_number_nonneg r1 H2). pose proof (row_number_nonneg r2 H4).
  split; [reflexivity|].
  destruct (nonempty c1) eqn:E1, (nonempty c2) eqn:E3,
           (nonempty r1) eqn:E2, (nonempty r2) eqn:E4;
    try (pose proof (column_number_pos c1 (nonempty_true _ E1) H1));
    try (pose proof (column_number_pos c2 (nonempty_true _ E3) H3));
    repeat match goal with
      | |- forall _, _ => intro
      | |- _ /\ _ => split
      | H : None = Some _ |- _ => discriminate H
      | H : Some _ = Some _ |- _ => injection H as <-
      | |- exists _, _ => eexists; reflexivity
      end;
    lia.
Qed.

Lemma parse_result_bounds_witness :
  sheetId (expected 4 (lit "A") (lit "0") [] []) = 4
  /\ startRowIndex (expected 4 (lit "A") (lit "0") [] []) = Some (-1).
Proof.
  split.
  - apply (proj1 (parse_result_bounds (lit "a0") 4 _ eq_refl)).
  - reflexivity.
Defined.

Lemma until_bang_cut (body junk : str) :
  contains bang body = false -> until_bang (body ++ bang :: junk) = body.
Proof.
  unfold contains.
  induction body as [|c body IH]; cbn [app until_bang existsb].
  - now rewrite Ascii.eqb_refl.
  - rewrite (Ascii.eqb_sym bang c). destruct (Ascii.eqb c bang); [discriminate|].
    cbn [orb]. intros H. now rewrite IH.
Qed.

Lemma stripped_after (name rest : str) :
  contains bang name = false ->
  stripped (name ++ bang :: rest) = until_bang rest.
Proof.
  unfold contains.
  induction name as [|c name IH]; cbn [app stripped existsb].
  - now rewrite Ascii.eqb_refl.
  - rewrite (Ascii.eqb_sym bang c). destruct (Ascii.eqb c bang); [discriminate|].
    cbn [orb]. exact IH.
Qed.

(** X14: of a text with two bangs or more, the piece between the first
    and the second alone is parsed; what follows the second bang is
    ignored, and the result, or the error, is that of the piece. *)
Theorem parse_reads_second_piece (name body junk : str) (sheet_id : Z) :
  contains bang name = false -> contains bang body = false ->
  _parse_a1_range (name ++ bang :: body ++ bang :: junk) sheet_id
  = _parse_a1_range body sheet_id.
Proof.
  intros Hn Hb. rewrite !parse_unfold.
  rewrite (sheet_stripped_plain body Hb).
  replace (sheet_stripped (name ++ bang :: body ++ bang :: junk)) with body.
  - reflexivity.
  - unfold sheet_stripped.
    replace (contains bang (name ++ bang :: body ++ bang :: junk)) with true.
    + rewrite stripped_after by exact Hn. symmetry. now apply until_bang_cut.
    + rewrite contains_app. unfold contains at 2. cbn [existsb].
      rewrite Ascii.eqb_refl. cbn [orb]. now rewrite orb_true_r.
Qed.

Lemma parse_reads_second_piece_witness :
  _parse_a1_range (lit "Sheet1!A1!junk, not a range") 0
  = _parse_a1_range (lit "A1") 0.
Proof.
  apply (parse_reads_second_piece (lit "Sheet1") (lit "A1")
           (lit "junk, not a range") 0); reflexivity.
Defined.

Lemma take_snoc (p : ascii -> bool) (u : str) (x : ascii) :
  p x = false -> take_while p (u ++ [x]) = take_while p u.
Proof.
  intros Hx. induction u as [|c u IH]; cbn [app take_while].
  - now rewrite Hx.
  - destruct (p c); [now rewrite IH|reflexivity].
Qed.

Lemma drop_snoc (p : ascii -> bool) (u : str) (x : ascii) :
  p x = false -> drop_while p (u ++ [x]) = drop_while p u ++ [x].
Proof.
  intros Hx. induction u as [|c u IH]; cbn [app drop_while].
  - now rewrite Hx.
  - destruct (p c); [exact IH|reflexivity].
Qed.

Lemma drop_colon_snoc (u : str) (x : ascii) :
  Ascii.eqb x colon = false -> drop_colon (u ++ [x]) = drop_colon u ++ [x].
Proof.
  intros Hx. destruct u as [|c u]; cbn [app drop_colon].
  - now rewrite Hx.
  - destruct (Ascii.eqb c colon); reflexivity.
Qed.

Lemma contains_drop (p : ascii -> bool) (x : ascii) (u : str) :
  contains x u = false -> contains x (drop_while p u) = false.
Proof.
  unfold contains. induction u as [|c u IH]; cbn [drop_while existsb].
  - reflexivity.
  - intros H. apply orb_false_elim in H. destruct H as [Hc Hu].
    destruct (p c); [now apply IH|]. cbn [existsb]. now rewrite Hc, Hu.
Qed.

Lemma contains_drop_colon (x : ascii) (u : str) :
  contains x u = false -> contains x (drop_colon u) = false.
Proof.
  unfold contains. destruct u as [|c u]; cbn [drop_colon existsb].
  - reflexivity.
  - intros H. apply orb_false_elim in H. destruct H as [Hc Hu].
    destruct (Ascii.eqb c colon); [exact Hu|]. cbn [existsb].
    now rewrite Hc, Hu.
Qed.

Lemma re_match_newline (u : str) (groups : str * str * str * str) :
  contains newline u = false ->
  re_match u = Some groups ->
  re_match (u ++ [newline]) = Some groups.
Proof.
  intros Hnl. unfold re_match.
  rewrite (take_snoc is_letter), (drop_snoc is_letter) by reflexivity.
  rewrite (take_snoc is_digit), (drop_snoc is_digit) by reflexivity.
  rewrite drop_colon_snoc by reflexivity.
  rewrite (take_snoc is_letter), (drop_snoc is_letter) by reflexivity.
  rewrite (take_snoc is_digit), (drop_snoc is_digit) by reflexivity.
  set (rest := drop_while is_digit
                 (drop_while is_letter
                    (drop_colon
                       (drop_while is_digit (drop_while is_letter u))))).
  assert (Hrest : contains newline rest = false).
  { unfold rest. repeat (first [apply contains_drop|apply contains_drop_colon]).
    exact Hnl. }
  destruct (at_end rest) eqn:E; [|discriminate].
  apply at_end_nl in E. destruct E as [E|E]; rewrite E in *.
  - intros H. exact H.
  - discriminate Hrest.
Qed.

Lemma upper_char_newline (c : ascii) :
  Ascii.eqb newline (upper_char c) = Ascii.eqb newline c.
Proof. each_char c. Qed.

Lemma contains_newline_upper (u : str) :
  contains newline (upper u) = contains newline u.
Proof.
  unfold contains, upper. induction u as [|c u IH]; [reflexivity|].
  cbn [map existsb]. now rewrite IH, upper_char_newline.
Qed.

Lemma contains_until_bang (x : ascii) (u : str) :
  contains x u = false -> contains x (until_bang u) = false.
Proof.
  unfold contains. induction u as [|c u IH]; cbn [until_bang existsb].
  - reflexivity.
  - intros H. apply orb_false_elim in H. destruct H as [Hc Hu].
    destruct (Ascii.eqb c bang); [reflexivity|]. cbn [existsb].
    now rewrite Hc, IH.
Qed.

Lemma contains_stripped (x : ascii) (u : str) :
  contains x u = false -> contains x (stripped u) = false.
Proof.
  unfold contains. induction u as [|c u IH]; cbn [stripped existsb].
  - reflexivity.
  - intros H. apply orb_false_elim in H. destruct H as [Hc Hu].
    destruct (Ascii.eqb c bang); [now apply contains_until_bang|now apply IH].
Qed.

Lemma contains_sheet_stripped (x : ascii) (u : str) :
  contains x u = false -> contains x (sheet_stripped u) = false.
Proof.
  intros H. unfold sheet_stripped.
  destruct (contains bang u); [now apply contains_stripped|exact H].
Qed.

Lemma until_bang_snoc (u : str) :
  until_bang (u ++ [newline]) = until_bang u
  \/ until_bang (u ++ [newline]) = until_bang u ++ [newline].
Proof.
  induction u as [|c u IH]; cbn [app until_bang].
  - right. reflexivity.
  - destruct (Ascii.eqb c bang); [now left|].
    destruct IH as [-> | ->]; [now left|now right].
Qed.

Lemma sheet_stripped_snoc (u : str) :
  sheet_stripped (u ++ [newline]) = sheet_stripped u
  \/ sheet_stripped (u ++ [newline]) = sheet_stripped u ++ [newline].
Proof.
  unfold sheet_stripped. rewrite contains_app.
  change (contains bang [newline]) with false. rewrite orb_false_r.
  destruct (contains bang u) eqn:E; [|now right].
  unfold contains in E.
  induction u as [|c u IH]; [discriminate E|].
  cbn [app stripped existsb] in *. rewrite (Ascii.eqb_sym bang c) in E.
  destruct (Ascii.eqb c bang).
  - apply until_bang_snoc.
  - cbn [orb] in E. now apply IH.
Qed.

(** X15: one newline after a range text is let through: a text without a
    newline that parses to a grid range parses to the same grid range when
    a newline is put after it. *)
Theorem parse_trailing_newline (t : str) (sheet_id : Z) (g : GridRange) :
  contains newline t = false ->
  _parse_a1_range t sheet_id = Ret g ->
  _parse_a1_range (t ++ [newline]) sheet_id = Ret g.
Proof.
  intros Hnl H.
  destruct (sheet_stripped_snoc t) as [E|E].
  - rewrite parse_unfold in *. now rewrite E.
  - rewrite parse_unfold in *. rewrite E.
    destruct (re_match (upper (sheet_stripped t))) as [groups|] eqn:Em;
      [|discriminate H].
    unfold upper. rewrite map_app. cbn [map].
    change (upper_char newline) with newline. fold (upper (sheet_stripped t)).
    rewrite (re_match_newline _ groups); [exact H| |exact Em].
    rewrite contains_newline_upper. now apply contains_sheet_stripped.
Qed.

Lemma parse_trailing_newline_witness :
  _parse_a1_range (lit "Sheet1!B2:C3" ++ [newline]) 1
  = Ret {| sheetId := 1; startRowIndex := Some 1; endRowIndex := Some 3;
           startColumnIndex := Some 1; endColumnIndex := Some 3 |}.
Proof.
  apply (parse_trailing_newline (lit "Sheet1!B2:C3") 1); reflexivity.
Defined.

Lemma re_match_no_colon (c1 r1 c2 r2 : str) :
  forallb is_letter c1 = true -> forallb is_digit r1 = true ->
  forallb is_letter c2 = true -> forallb is_digit r2 = true ->
  r1 <> [] -> c2 <> [] ->
  re_match (c1 ++ r1 ++ c2 ++ r2) = Some (c1, r1, c2, r2).
Proof.
  intros H1 H2 H3 H4 Hr1 Hc2. unfold re_match.
  assert (Ha : halts is_letter (r1 ++ c2 ++ r2) = true).
  { destruct r1 as [|x r1]; [congruence|]. cbn in *.
    apply andb_prop in H2. destruct H2 as [Hx _].
    now rewrite (digit_not_letter x Hx). }
  assert (Hb : halts is_digit (c2 ++ r2) = true).
  { destruct c2 as [|x c2]; [congruence|]. cbn in *.
    apply andb_prop in H3. destruct H3 as [Hx _].
    now rewrite (letter_not_digit x Hx). }
  assert (Hc : halts is_letter r2 = true).
  { rewrite <- (app_nil_r r2).
    apply (halts_after _ is_digit); auto using digit_not_letter. }
  assert (Hd : drop_colon (c2 ++ r2) = c2 ++ r2).
  { destruct c2 as [|x c2]; [congruence|]. cbn in *.
    apply andb_prop in H3. destruct H3 as [Hx _].
    now rewrite (letter_not_colon x Hx). }
  rewrite take_app, drop_app_halts by assumption.
  rewrite take_app, drop_app_halts by assumption.
  rewrite Hd.
  rewrite take_app, drop_app_halts by assumption.
  rewrite (take_whole is_digit r2), (drop_whole is_digit r2) by assumption.
  reflexivity.
Qed.

(** X16: the colon may be left out when the start token ends in a row
    number and the end token begins with a column letter: such a text
    parses as the text with the colon does, to the same grid range or with
    the same error; the range is the expected one when the row numbers are
    within the limit of [int]. *)
Theorem parse_without_colon (sheet_id : Z) (body body' c1 r1 c2 r2 : str) :
  forallb is_letter c1 = true -> forallb is_digit r1 = true ->
  forallb is_letter c2 = true -> forallb is_digit r2 = true ->
  r1 <> [] -> c2 <> [] ->
  upper body = c1 ++ r1 ++ c2 ++ r2 ->
  upper body' = c1 ++ r1 ++ colon :: c2 ++ r2 ->
  _parse_a1_range body sheet_id = _parse_a1_range body' sheet_id
  /\ (len r1 <= int_max_str_digits -> len r2 <= int_max_str_digits ->
      _parse_a1_range body sheet_id = Ret (expected sheet_id c1 r1 c2 r2)).
Proof.
  intros H1 H2 H3 H4 Hr1 Hc2 Hb Hb'.
  assert (Hplain : contains bang body = false).
  { rewrite <- contains_upper, Hb, !contains_app.
    rewrite (no_bang is_letter c1 letter_not_bang H1).
    rewrite (no_bang is_digit r1 digit_not_bang H2).
    rewrite (no_bang is_letter c2 letter_not_bang H3).
    now rewrite (no_bang is_digit r2 digit_not_bang H4). }
  assert (Hplain' : contains bang body' = false).
  { rewrite <- contains_upper, Hb'. now apply two_tokens_no_bang. }
  assert (E : _parse_a1_range body sheet_id
              = fill sheet_id (c1, r1, c2, r2)).
  { rewrite parse_unfold, (sheet_stripped_plain body Hplain), Hb.
    now rewrite re_match_no_colon by assumption. }
  assert (E' : _parse_a1_range body' sheet_id
               = fill sheet_id (c1, r1, c2, r2)).
  { rewrite parse_unfold, (sheet_stripped_plain body' Hplain'), Hb'.
    now rewrite re_match_two_tokens by assumption. }
  split; [now rewrite E, E'|].
  intros L2 L4. rewrite E. now apply fill_expected.
Qed.

Lemma parse_without_colon_witness :
  _parse_a1_range (lit "a1d10") 0 = _parse_a1_range (lit "A1:D10") 0
  /\ _parse_a1_range (lit "a1d10") 0
     = Ret (expected 0 (lit "A") (lit "1") (lit "D") (lit "10")).
Proof.
  assert (H := parse_without_colon 0 (lit "a1d10") (lit "A1:D10")
                 (lit "A") (lit "1") (lit "D") (lit "10")).
  destruct H as [Hsame Hrange]; try reflexivity; try discriminate.
  split; [exact Hsame|]. apply Hrange; vm_compute; discriminate.
Defined.

(** ** [format_cells] *)

Section FormatFacts.

Import Format.

Variable number : Type.
Variable is_zero : number -> bool.
Variable zero : number.



Lemma entry_not_given (key : string) (field : option (json number)) :
  given number is_zero field = false ->
  entry number key field (truthy number is_zero) = [].
Proof.
  unfold entry, given. destruct field as [x|]; [|reflexivity].
  now intros ->.
Qed.


Lemma and_then_failed {A B : Type} (c : attempt A) (k : A -> attempt B)
  (f : failure) :
  and_then c k = Failed f ->
  c = Failed f \/ exists a, c = Done a /\ k a = Failed f.
Proof.
  destruct c as [a|f']; cbn [and_then]; intros H.
  - right. exists a. split; [reflexivity|exact H].
  - left. injection H as ->. reflexivity.
Qed.

Lemma get_member_failure (v : json number) (key : string) (f : failure) :
  get_member number v key = Failed f -> f = AttributeError.
Proof. destruct v; cbn; congruence. Qed.

Lemma get_member_or_failure (v : json number) (key : string) (default : json number)
  (f : failure) :
  get_member_or number v key default = Failed f -> f = AttributeError.
Proof.
  unfold get_member_or. intros H. apply and_then_failed in H.
  destruct H as [H|(a & _ & H)]; [|discriminate H].
  now apply get_member_failure in H.
Qed.

Lemma border_side_failure (v : json number) (side : string) (done : dict number)
  (f : failure) :
  border_side number is_zero zero v side done = Failed f -> f = AttributeError.
Proof.
  unfold border_side. intros H. apply and_then_failed in H.
  destruct H as [H|(found & _ & H)]; [now apply get_member_failure in H|].
  destruct found as [config|]; [|discriminate H].
  destruct (truthy number is_zero config); [|discriminate H].
  apply and_then_failed in H.
  destruct H as [H|(style & _ & H)]; [now apply get_member_or_failure in H|].
  apply and_then_failed in H.
  destruct H as [H|(color & _ & H)]; [now apply get_member_or_failure in H|].
  discriminate H.
Qed.

Lemma border_format_failure (args : format_args number) (f : failure) :
  border_format number is_zero zero args = Failed f -> f = AttributeError.
Proof.
  unfold border_format. destruct (borders args) as [v|]; [|discriminate].
  destruct (truthy number is_zero v); [|discriminate].
  intros H. apply and_then_failed in H.
  destruct H as [H|(b & _ & H)]; [|discriminate H].
  unfold border_dict in H.
  repeat (apply and_then_failed in H;
          destruct H as [H|(? & _ & H)];
          [now apply border_side_failure in H|]).
  now apply border_side_failure in H.
Qed.

Lemma format_cells_done (args : format_args number) (r : repeat_cell number) (answer : str) :
  format_cells number is_zero zero args = Done (r, answer) ->
  exists g b,
    _parse_a1_range (range args) (sheet_id args) = Ret g
    /\ border_format number is_zero zero args = Done b
    /\ r = {| request_range := g;
              userEnteredFormat := plain_format number is_zero args ++ b;
              fields := match field_names number is_zero args with
                        | [] => lit "userEnteredFormat"
                        | _ :: _ => join (lit ",")
                                      (field_names number is_zero args)
                        end |}
    /\ answer = formatted (range args).
Proof.
  unfold format_cells.
  destruct (_parse_a1_range (range args) (sheet_id args)) as [g|e];
    [|discriminate].
  destruct (border_format number is_zero zero args) as [b|f]; cbn [and_then];
    [|discriminate].
  intros H. injection H as <- <-. exists g, b. auto.
Qed.

(** X17: the range is parsed before anything else.  The call fails with
    an error of the parser exactly when the parser raises that error, which
    it does exactly when the range text is outside the grid pattern or
    holds a row number too long for [int]; nothing is submitted then.  A
    request that is submitted carries the grid range that the parser
    returns for the text and the sheet id; a truthy [borders] value that is
    not an object fails the call with [AttributeError] once the range has
    parsed. *)
Theorem format_cells_parses_first (args : format_args number) :
  (forall e, format_cells number is_zero zero args = Failed (FromParser e)
             <-> _parse_a1_range (range args) (sheet_id args) = Raise e)
  /\ ((exists e, format_cells number is_zero zero args = Failed (FromParser e))
      <-> ~ grid_pattern (upper (sheet_stripped (range args)))
          \/ long_row (upper (sheet_stripped (range args))))
  /\ (forall r answer,
         format_cells number is_zero zero args = Done (r, answer) ->
         _parse_a1_range (range args) (sheet_id args) = Ret (request_range r)
         /\ answer = formatted (range args))
  /\ (forall v g,
         _parse_a1_range (range args) (sheet_id args) = Ret g ->
         borders args = Some v -> truthy number is_zero v = true ->
         (forall members, v <> JObj members) ->
         format_cells number is_zero zero args = Failed AttributeError).
Proof.
  assert (Hfirst : forall e,
             format_cells number is_zero zero args = Failed (FromParser e)
             <-> _parse_a1_range (range args) (sheet_id args) = Raise e).
  { intros e. unfold format_cells.
    destruct (_parse_a1_range (range args) (sheet_id args)) as [g|e'] eqn:E.
    - split; [|discriminate]. intros He.
      destruct (border_format number is_zero zero args) as [b|f] eqn:Eb;
        [discriminate He|].
      apply border_format_failure in Eb. subst f. discriminate He.
    - split; intros H; injection H as ->; reflexivity. }
  split; [exact Hfirst|]. split; [|split].
  - assert (Hr : raises (_parse_a1_range (range args) (sheet_id args))
                 <-> ~ grid_pattern (upper (sheet_stripped (range args)))
                     \/ long_row (upper (sheet_stripped (range args)))).
    { rewrite parse_raises_iff, <- re_match_grid.
      destruct (re_match (upper (sheet_stripped (range args)))); split;
        intros [H|H]; auto; try discriminate H.
      exfalso. apply H. discriminate. }
    rewrite <- Hr. unfold raises.
    split; intros (e & He); exists e; now apply Hfirst.
  - intros r answer H.
    destruct (format_cells_done args r answer H) as (g & b & Hg & _ & -> & ->).
    split; [exact Hg|reflexivity].
  - intros v g Hg Hb Ht Hobj. unfold format_cells. rewrite Hg.
    unfold border_format. rewrite Hb, Ht.
    unfold border_dict, border_side, get_member.
    destruct v; try reflexivity. exfalso. now apply (Hobj members).
Qed.

(** X18: the call never declines for lack of options.  When no formatting
    option is given and the range parses, a request is submitted all the
    same: its format is empty and its mask is the whole
    [userEnteredFormat]. *)
Theorem format_cells_without_options (args : format_args number) (g : GridRange) :
  no_option number is_zero args ->
  _parse_a1_range (range args) (sheet_id args) = Ret g ->
  format_cells number is_zero zero args
  = Done ({| request_range := g; userEnteredFormat := [];
             fields := lit "userEnteredFormat" |},
          formatted (range args)).
Proof.
  intros (Hb & Hi & Hfs & Hff & Htc & Hbg & Hh & Hv & Hw & Hbo) Hg.
  assert (Etext : text_format_of number is_zero args = []).
  { unfold text_format_of.
    rewrite !entry_not_given by assumption.
    destruct Hb as [-> | ->], Hi as [-> | ->]; reflexivity. }
  assert (Eplain : plain_format number is_zero args = []).
  { unfold plain_format. rewrite Etext.
    rewrite !entry_not_given by assumption. reflexivity. }
  assert (Enames : field_names number is_zero args = []).
  { unfold field_names. rewrite Etext, Hbg, Hh, Hv, Hw, Hbo. reflexivity. }
  assert (Eborders : border_format number is_zero zero args = Done []).
  { unfold border_format. unfold given in Hbo.
    destruct (borders args) as [x|]; [|reflexivity]. now rewrite Hbo. }
  unfold format_cells. rewrite Hg, Eborders. cbn [and_then].
  now rewrite Eplain, Enames.
Qed.




End FormatFacts.

Lemma format_cells_parses_first_witness :
  Format.format_cells Z (Z.eqb 0) 0
    (Format.borders_args (lit "A1:B2") (Format.JStr (lit "SOLID")))
  = Format.Failed Format.AttributeError
  /\ Format.format_cells Z (Z.eqb 0) 0 (Format.plain_args (lit "A1:B2:C3"))
     = Format.Failed
         (Format.FromParser
            (ValueError (lit "Invalid A1 notation: A1:B2:C3"))).
Proof.
  split.
  - refine (proj2 (proj2 (proj2 (format_cells_parses_first Z (Z.eqb 0) 0
                                   (Format.borders_args (lit "A1:B2")
                                      (Format.JStr (lit "SOLID"))))))
              (Format.JStr (lit "SOLID")) _ eq_refl eq_refl eq_refl _).
    intros members. discriminate.
  - apply (proj1 (format_cells_parses_first Z (Z.eqb 0) 0
                    (Format.plain_args (lit "A1:B2:C3")))).
    reflexivity.
Defined.

Lemma format_cells_without_options_witness :
  Format.format_cells Z (Z.eqb 0) 0 (Format.plain_args (lit "A1:B2"))
  = Format.Done
      ({| Format.request_range :=
            {| sheetId := 0; startRowIndex := Some 0; endRowIndex := Some 2;
               startColumnIndex := Some 0; endColumnIndex := Some 2 |};
          Format.userEnteredFormat := [];
          Format.fields := lit "userEnteredFormat" |},
       Format.formatted (lit "A1:B2")).
Proof.
  apply (format_cells_without_options Z (Z.eqb 0) 0
           (Format.plain_args (lit "A1:B2"))).
  - unfold Format.no_option. cbn. auto 12.
  - reflexivity.
Defined.

